(** * SecureSphere login service: authentication core

    A shallow embedding of the Express/Mongoose backend
    (controllers/authController.js, models/User.js, routes/authRoutes.js,
    middleware/authMiddleware.js, server.js), of the checks of the browser
    client (script.js), and the properties of the register / login /
    profile / logout flow.

    Modelling conventions.
    - A JavaScript string is held as the bytes of its UTF-8 encoding, a
      [string].  [Str.length] is the JavaScript [length] (UTF-16 code
      units); [trim] removes the white space of JavaScript, inside and
      outside ASCII; the character classes of the patterns in use are sets
      of ASCII characters, which are single bytes.  [toLowerCase] maps the
      letters A to Z and keeps every other byte: the pattern of the schema
      admits ASCII only, and the case mapping of letters outside ASCII is
      not modelled.
    - [req.body], [req.cookies] and [req.headers] are JavaScript objects
      used as dictionaries: finite maps from field name to string.  A field
      that is absent from the map is [undefined].
    - The MongoDB collection is the list of its documents in insertion
      order; [findOne] and [findById] return the first match.
    - The libraries the code calls but does not contain (validator.js,
      bcryptjs, jsonwebtoken) are a record of functions, [Library]; what a
      theorem needs from them is a hypothesis of that theorem.  A library
      call that can throw returns an error or a value.
    - [process.env] is [Config]: each variable is a string, or unset.
    - [Date.now()], the bcrypt salt and the fresh ObjectId are read from an
      explicit environment, [Env]. *)

From Stdlib Require Import String Ascii List ZArith Bool Lia.
From stdpp Require Import base option gmap strings.
Import ListNotations.

Set Warnings "-register-all".

Local Open Scope Z_scope.
Local Open Scope string_scope.

(* ================================================================== *)
(** * JavaScript string primitives *)

Module Str.

Definition in_range (lo hi : nat) (c : ascii) : bool :=
  (lo <=? nat_of_ascii c)%nat && (nat_of_ascii c <=? hi)%nat.

Definition is_upper (c : ascii) : bool := in_range 65 90 c.
Definition is_lower (c : ascii) : bool := in_range 97 122 c.
Definition is_digit (c : ascii) : bool := in_range 48 57 c.

(** The regular expression class [\w]: [A-Za-z0-9_]. *)
Definition is_word (c : ascii) : bool :=
  is_upper c || is_lower c || is_digit c || Ascii.eqb c "_".

(** The white space of JavaScript (the class [\s]) inside ASCII:
    tab, line feed, vertical tab, form feed, carriage return, space. *)
Definition is_space (c : ascii) : bool :=
  in_range 9 13 c || Ascii.eqb c " ".

Definition lower_char (c : ascii) : ascii :=
  if is_upper c then ascii_of_nat (nat_of_ascii c + 32) else c.

(** [String.prototype.toLowerCase], on the letters A to Z (a character
    outside ASCII keeps its bytes). *)
Fixpoint toLowerCase (s : string) : string :=
  match s with
  | EmptyString => EmptyString
  | String c r => String (lower_char c) (toLowerCase r)
  end.

Definition is_byte (n : nat) (c : ascii) : bool :=
  Nat.eqb (nat_of_ascii c) n.

(** The white space of JavaScript outside ASCII, in UTF-8:
    U+00A0 is [C2 A0]; U+1680 is [E1 9A 80]; U+2000 to U+200A, U+2028,
    U+2029 and U+202F are [E2 80 80] to [E2 80 8A], [E2 80 A8],
    [E2 80 A9] and [E2 80 AF]; U+205F is [E2 81 9F]; U+3000 is
    [E3 80 80]; U+FEFF is [EF BB BF]. *)
Definition is_space2 (a b : ascii) : bool := is_byte 194 a && is_byte 160 b.

Definition is_space3 (a b c : ascii) : bool :=
  (is_byte 225 a && is_byte 154 b && is_byte 128 c)
  || (is_byte 226 a && is_byte 128 b
      && (in_range 128 138 c || in_range 168 169 c || is_byte 175 c))
  || (is_byte 226 a && is_byte 129 b && is_byte 159 c)
  || (is_byte 227 a && is_byte 128 b && is_byte 128 c)
  || (is_byte 239 a && is_byte 187 b && is_byte 191 c).

(** What follows the white space character that [s] starts with, if it
    starts with one. *)
Definition after_space (s : string) : option string :=
  match s with
  | EmptyString => None
  | String a r =>
      if is_space a then Some r
      else
        match r with
        | EmptyString => None
        | String b r' =>
            if is_space2 a b then Some r'
            else
              match r' with
              | EmptyString => None
              | String c r'' => if is_space3 a b c then Some r'' else None
              end
        end
  end.

(** [String.prototype.trimStart]: the string without the white space
    characters, of one, two or three bytes, that it starts with. *)
Fixpoint trimStart (s : string) : string :=
  match s with
  | EmptyString => EmptyString
  | String a r =>
      if is_space a then trimStart r
      else
        match r with
        | EmptyString => s
        | String b r' =>
            if is_space2 a b then trimStart r'
            else
              match r' with
              | EmptyString => s
              | String c r'' => if is_space3 a b c then trimStart r'' else s
              end
        end
  end.

(** [String.prototype.trimEnd]: a byte is kept unless everything from
    it on is white space. *)
Fixpoint trimEnd (s : string) : string :=
  match s with
  | EmptyString => EmptyString
  | String c r =>
      if String.eqb (trimStart s) EmptyString then EmptyString
      else String c (trimEnd r)
  end.

(** [String.prototype.trim] (and validator.js [trim] without a
    character list, the regular expression [^\s+|\s+$]). *)
Definition trim (s : string) : string := trimStart (trimEnd s).

(** Does a white space character outside ASCII occur in [s]? *)
Fixpoint has_wide_space (s : string) : bool :=
  match s with
  | EmptyString => false
  | String a r =>
      match r with
      | String b (String c _) => is_space2 a b || is_space3 a b c
      | String b EmptyString => is_space2 a b
      | EmptyString => false
      end
      || has_wide_space r
  end.

(** The UTF-16 code units of the character that the byte [c] starts:
    none for a continuation byte (128 to 191), two for the lead byte of
    a four-byte character (240 and more), one otherwise. *)
Definition units (c : ascii) : nat :=
  if in_range 128 191 c then 0%nat
  else if (240 <=? nat_of_ascii c)%nat then 2%nat else 1%nat.

(** [s.length] *)
Fixpoint length (s : string) : nat :=
  match s with
  | EmptyString => 0%nat
  | String c r => (units c + length r)%nat
  end.

(** A string without the characters that validator.js counts apart:
    no character outside the basic plane (a lead byte of 240 or more,
    two code units) and no variation selector U+FE0E or U+FE0F
    ([EF B8 8E], [EF B8 8F]). *)
Fixpoint plain (s : string) : bool :=
  match s with
  | EmptyString => true
  | String a r =>
      negb (240 <=? nat_of_ascii a)%nat
      && negb match r with
              | String b (String c _) =>
                  is_byte 239 a && is_byte 184 b
                  && (is_byte 142 c || is_byte 143 c)
              | _ => false
              end
      && plain r
  end.

(** The number that a string of one to eight decimal digits denotes. *)
Fixpoint digits_value (acc : Z) (s : string) : option Z :=
  match s with
  | EmptyString => Some acc
  | String c r =>
      if is_digit c
      then digits_value (10 * acc + (Z.of_nat (nat_of_ascii c) - 48)) r
      else None
  end.

Definition decimal (s : string) : option Z :=
  match s with
  | EmptyString => None
  | _ => if (String.length s <=? 8)%nat then digits_value 0 s else None
  end.

(** [String.prototype.startsWith]. *)
Definition startsWith (s p : string) : bool := String.prefix p s.

(** [s.split(sep)] for a one-character separator: the pieces between
    the separators, always at least one piece. *)
Fixpoint split (sep : ascii) (s : string) : list string :=
  match s with
  | EmptyString => [EmptyString]
  | String c r =>
      if Ascii.eqb c sep then EmptyString :: split sep r
      else match split sep r with
           | p :: ps => String c p :: ps
           | [] => [String c EmptyString]
           end
  end.

(** [sep.join(l)] *)
Fixpoint join (sep : string) (l : list string) : string :=
  match l with
  | [] => EmptyString
  | [x] => x
  | x :: r => x +:+ sep +:+ join sep r
  end.

(** The part of [s] after its last ["."], if it has one. *)
Fixpoint afterLastDot (s : string) : option string :=
  match s with
  | EmptyString => None
  | String c r =>
      match afterLastDot r with
      | Some t => Some t
      | None => if Ascii.eqb c "." then Some r else None
      end
  end.

(** Does the character [c] occur in [s]? *)
Fixpoint has_char (c : ascii) (s : string) : bool :=
  match s with
  | EmptyString => false
  | String c' r => Ascii.eqb c' c || has_char c r
  end.

(** Every character of [s] satisfies [P]. *)
Fixpoint all_chars (P : ascii -> bool) (s : string) : bool :=
  match s with
  | EmptyString => true
  | String c r => P c && all_chars P r
  end.

(** Every character of [s] is in the class [\w]. *)
Fixpoint all_word (s : string) : bool :=
  match s with
  | EmptyString => true
  | String c r => is_word c && all_word r
  end.

(** JavaScript truthiness of a string value that may be [undefined]. *)
Definition truthy (v : option string) : bool :=
  match v with
  | Some s => negb (String.eqb s EmptyString)
  | None => false
  end.

End Str.

(* ================================================================== *)
(** * Regular expressions, as [RegExp.prototype.test] decides them

    A pattern anchored with [^] and [$] accepts a string exactly when the
    whole string is in the language of the pattern.  The matcher keeps the
    set of patterns that may still accept the rest of the input (partial
    derivatives), so it takes no exponential detour on the nested
    repetitions of the email pattern. *)

Module Regex.

(** Character classes of the patterns in use: [\w] and explicit sets
    such as [[\.-]]. *)
Inductive cclass : Type :=
| CWord : cclass
| COneOf : list ascii -> cclass.

Definition class_mem (k : cclass) (c : ascii) : bool :=
  match k with
  | CWord => Str.is_word c
  | COneOf l => existsb (Ascii.eqb c) l
  end.

Inductive re : Type :=
| Never : re
| Empty : re
| Class : cclass -> re
| Seq : re -> re -> re
| Alt : re -> re -> re
| Star : re -> re.

#[global] Instance cclass_eq_dec : EqDecision cclass.
Proof. solve_decision. Defined.

#[global] Instance re_eq_dec : EqDecision re.
Proof. solve_decision. Defined.

(** [r?], [r+] and [r{2,3}]. *)
Definition Opt (r : re) : re := Alt Empty r.
Definition Plus (r : re) : re := Seq r (Star r).
Definition Rep23 (r : re) : re := Seq r (Seq r (Opt r)).

Fixpoint nullable (r : re) : bool :=
  match r with
  | Never => false
  | Empty => true
  | Class _ => false
  | Seq a b => nullable a && nullable b
  | Alt a b => nullable a || nullable b
  | Star _ => true
  end.

(** Sequencing that does not keep a finished left part. *)
Definition seq (a b : re) : re :=
  match a with
  | Empty => b
  | _ => Seq a b
  end.

(** The patterns that may accept what follows the character [c]. *)
Fixpoint pderiv (c : ascii) (r : re) : list re :=
  match r with
  | Never => []
  | Empty => []
  | Class k => if class_mem k c then [Empty] else []
  | Seq a b =>
      map (fun a' => seq a' b) (pderiv c a)
        ++ (if nullable a then pderiv c b else [])
  | Alt a b => pderiv c a ++ pderiv c b
  | Star a => map (fun a' => seq a' (Star a)) (pderiv c a)
  end.

Definition step (c : ascii) (rs : list re) : list re :=
  remove_dups (flat_map (pderiv c) rs).

Fixpoint run (rs : list re) (s : string) : bool :=
  match s with
  | EmptyString => existsb nullable rs
  | String c s' => run (step c rs) s'
  end.

(** [pattern.test(s)] for an anchored pattern. *)
Definition test (r : re) (s : string) : bool := run [r] s.

(** The language of a pattern. *)
Inductive lang : re -> string -> Prop :=
| lang_Empty : lang Empty EmptyString
| lang_Class k c :
    class_mem k c = true -> lang (Class k) (String c EmptyString)
| lang_Seq a b s t : lang a s -> lang b t -> lang (Seq a b) (s +:+ t)
| lang_AltL a b s : lang a s -> lang (Alt a b) s
| lang_AltR a b s : lang b s -> lang (Alt a b) s
| lang_Star0 a : lang (Star a) EmptyString
| lang_StarS a s t :
    lang a s -> lang (Star a) t -> lang (Star a) (s +:+ t).

Definition word : re := Class CWord.
Definition dot_or_dash : re := Class (COneOf ["."; "-"]%char).
Definition dot : re := Class (COneOf ["."]%char).
Definition at_sign : re := Class (COneOf ["@"]%char).

(** [\w+([\.-]?\w+)*] *)
Definition dotted_words : re :=
  Seq (Plus word) (Star (Seq (Opt dot_or_dash) (Plus word))).

(** [\.\w{2,3}] *)
Definition tld_group : re := Seq dot (Rep23 word).

(** [\d] *)
Definition digit : re :=
  Class (COneOf ["0"; "1"; "2"; "3"; "4"; "5"; "6"; "7"; "8"; "9"]%char).

(** A literal string. *)
Fixpoint lit (s : string) : re :=
  match s with
  | EmptyString => Empty
  | String c r => Seq (Class (COneOf [c])) (lit r)
  end.

(** Every character that the pattern can read satisfies [P]. *)
Fixpoint reads_only (P : ascii -> bool) (r : re) : Prop :=
  match r with
  | Never => True
  | Empty => True
  | Class k => forall c, class_mem k c = true -> P c = true
  | Seq a b => reads_only P a /\ reads_only P b
  | Alt a b => reads_only P a /\ reads_only P b
  | Star a => reads_only P a
  end.

(** models/User.js, the [match] of the email path:
    [/^\w+([\.-]?\w+)*@\w+([\.-]?\w+)*(\.\w{2,3})+$/]. *)
Definition email_pattern : re :=
  Seq dotted_words (Seq at_sign (Seq dotted_words (Plus tld_group))).

End Regex.

(* ================================================================== *)
(** * JavaScript values handed to [res.json] *)

Module Js.

Inductive value : Type :=
| VUndefined : value
| VNull : value
| VBool : bool -> value
| VNum : Z -> value
| VStr : string -> value
| VDate : Z -> value
| VArr : list value -> value
| VObj : list (string * value) -> value.

Definition of_string (v : option string) : value :=
  match v with Some s => VStr s | None => VUndefined end.

Definition of_date (v : option Z) : value :=
  match v with Some t => VDate t | None => VUndefined end.


Fixpoint assoc (k : string) (fields : list (string * value)) : option value :=
  match fields with
  | [] => None
  | (k', v) :: r => if String.eqb k k' then Some v else assoc k r
  end.

(** [v.k]; [undefined] when [v] has no such property. *)
Definition get (k : string) (v : value) : value :=
  match v with
  | VObj fields => default VUndefined (assoc k fields)
  | _ => VUndefined
  end.

(** The time value of [new Date(t)]: a date exists only within
    8.64e15 milliseconds of the epoch. *)
Definition timeClip (t : Z) : option Z :=
  if (Z.abs t <=? 8640000000000000)%Z then Some t else None.



End Js.

(* ================================================================== *)
(** * The world around a request *)

(** A thrown JavaScript error: its [name] and [message]. *)
Record Error : Type := mkError { err_name : string; err_message : string }.

(** The payload [generateAuthToken] signs. *)
Record JwtPayload : Type := mkPayload { jwt_id : string; jwt_email : string }.

(** What [jwt.verify] does: return the payload, or throw a
    [JsonWebTokenError] (token malformed, signature invalid), a
    [TokenExpiredError], or another error. *)
Inductive VerifyResult : Type :=
| Decoded : JwtPayload -> VerifyResult
| JsonWebTokenError : string -> VerifyResult
| TokenExpiredError : string -> VerifyResult
| OtherError : Error -> VerifyResult.

(** The library functions the code calls.
    - [isEmail], [normalizeEmail], [isLength min max]: validator.js,
      through express-validator; [normalizeEmail] answers [None] where
      validator.js returns [false]; [isLength] takes the [min] and [max]
      of its options, each given or not.
    - [bcrypt_hash plaintext salt], [bcrypt_compare entered stored]: bcryptjs.
    - [jwt_sign payload secret expiresIn clock],
      [jwt_verify token secret clock]: jsonwebtoken, with the secret and
      the [expiresIn] option as [process.env] has them; [jwt_sign]
      throws (an unusable [expiresIn] or secret) or returns the token.
    - [date_after s clock]: the JavaScript engine, for the time value of
      [new Date(clock + s * 24 * 60 * 60 * 1000)] when [s] is a string
      other than a short decimal number; [None] is an invalid date. *)
Record Library : Type := mkLibrary {
  isEmail : string -> bool;
  normalizeEmail : string -> option string;
  isLength : option nat -> option nat -> string -> bool;
  bcrypt_hash : string -> string -> string;
  bcrypt_compare : string -> string -> bool;
  jwt_sign : JwtPayload -> option string -> option string -> Z
             -> Error + string;
  jwt_verify : string -> option string -> Z -> VerifyResult;
  date_after : string -> Z -> option Z
}.

(** [process.env]: a variable is a string, or unset. *)
Record Config : Type := mkConfig {
  NODE_ENV : option string;
  JWT_SECRET : option string;
  JWT_EXPIRE : option string;
  COOKIE_EXPIRE : option string
}.

(** What one request reads from outside: the clock at each place the code
    (or a library on its behalf) reads it, in milliseconds; the salt of
    [bcrypt.genSalt(10)]; the ObjectId of a new document.  The clock is
    taken to read a time at which the date ten seconds and the date seven
    days later exist. *)
Record Env : Type := mkEnv {
  now_createdAt : Z;   (* schema default of createdAt *)
  now_lastLogin : Z;   (* schema default of lastLogin; Date.now() in login *)
  now_timestamps : Z;  (* updatedAt of a modified document *)
  now_jwt : Z;         (* jwt.sign and jwt.verify *)
  now_cookie : Z;      (* Date.now() of the cookie expiry *)
  genSalt : string;
  new_ObjectId : string
}.

(** One error of [validationResult(req).array()]; its value is the
    field as the failing validator saw it, [undefined] for an absent
    field that no sanitizer has touched. *)
Record FieldError : Type := mkFieldError {
  fe_path : string;
  fe_msg : string;
  fe_value : option string
}.

(** [req.user], attached by the session middleware. *)
Record ReqUser : Type := mkReqUser {
  ru_id : string;
  ru_name : string;
  ru_email : string
}.

Record Request : Type := mkRequest {
  cookies : gmap string string;
  headers : gmap string string;
  body : gmap string string;
  validation : list FieldError;
  user : option ReqUser
}.

(** A [Set-Cookie] made by [res.cookie(name, value, options)]. *)
Record Cookie : Type := mkCookie {
  cookie_name : string;
  cookie_value : string;
  expires : Z;
  httpOnly : bool;
  secure : bool;
  sameSite : option string
}.

Record Response : Type := mkResponse {
  status : Z;
  json : Js.value;
  set_cookie : list Cookie
}.

(** [res.status(code).json({ success: false, message })] *)
Definition failure (code : Z) (message : string) : Response :=
  {| status := code;
     json := Js.VObj [("success", Js.VBool false); ("message", Js.VStr message)];
     set_cookie := [] |}.

(** The [message] property of a response body. *)
Definition message_of (r : Response) : Js.value := Js.get "message" (json r).

(* ================================================================== *)
(** * express-validator chains (routes/authRoutes.js) *)

Module Validator.

(** A step of a chain: a sanitizer, which replaces the field, or a
    validator with the message of [withMessage]. *)
Inductive Step : Type :=
| Sanitize : (string -> option string) -> Step
| Validate : (string -> bool) -> string -> Step.

(** Validators and sanitizers see the field as a string; an absent
    field is the empty string. *)
Definition toString (v : option string) : string := default EmptyString v.

Definition notEmpty (s : string) : bool := negb (String.eqb s EmptyString).

(** Runs the steps in order on the field [path]; every failing
    validator adds its error (no [bail]). *)
Fixpoint run_chain (path : string) (steps : list Step) (v : option string)
  : option string * list FieldError :=
  match steps with
  | [] => (v, [])
  | Sanitize f :: rest => run_chain path rest (f (toString v))
  | Validate ok msg :: rest =>
      let '(v', errs) := run_chain path rest v in
      if ok (toString v) then (v', errs)
      else (v', mkFieldError path msg v :: errs)
  end.

(** The value a chain leaves in its field: validators keep it,
    sanitizers replace it. *)
Fixpoint sanitized (steps : list Step) (v : option string) : option string :=
  match steps with
  | [] => v
  | Sanitize f :: rest => sanitized rest (f (toString v))
  | Validate _ _ :: rest => sanitized rest v
  end.

(** Does every validator of the chain accept the field? *)
Fixpoint passes (steps : list Step) (v : option string) : bool :=
  match steps with
  | [] => true
  | Sanitize f :: rest => passes rest (f (toString v))
  | Validate ok _ :: rest => ok (toString v) && passes rest v
  end.

Definition Chain : Type := (string * list Step)%type.

(** Runs one chain on the request: the sanitized value replaces the
    field in [req.body] (a sanitizer result that is not a string leaves
    the field without a string value), the errors are appended. *)
Definition run_on (c : Chain) (req : Request) : Request :=
  let '(path, steps) := c in
  let '(v, errs) := run_chain path steps (body req !! path) in
  {| cookies := cookies req;
     headers := headers req;
     body := match v with
             | Some s => <[path := s]> (body req)
             | None => delete path (body req)
             end;
     validation := validation req ++ errs;
     user := user req |}.

Definition run_all (cs : list Chain) (req : Request) : Request :=
  fold_left (fun r c => run_on c r) cs req.

Global Arguments run_all : simpl never.

(** Does the body of the request pass every chain? *)
Definition accepts (cs : list Chain) (req : Request) : bool :=
  forallb (fun c => passes (snd c) (body req !! fst c)) cs.

(** The chain of a field, if the list has one. *)
Definition chain_of (k : string) (cs : list Chain) : option Chain :=
  List.find (fun c => String.eqb (fst c) k) cs.

Section Chains.
Variable lib : Library.

Definition trim_step : Step := Sanitize (fun s => Some (Str.trim s)).

Definition registerValidation : list Chain :=
  [ ("name",
      [ trim_step;
        Validate notEmpty "Name is required";
        Validate (isLength lib (Some 2%nat) None)
          "Name must be at least 2 characters";
        Validate (isLength lib None (Some 50%nat))
          "Name cannot exceed 50 characters" ]);
    ("email",
      [ trim_step;
        Validate notEmpty "Email is required";
        Validate (isEmail lib) "Please provide a valid email";
        Sanitize (normalizeEmail lib) ]);
    ("password",
      [ Validate notEmpty "Password is required";
        Validate (isLength lib (Some 6%nat) None)
          "Password must be at least 6 characters" ]);
    ("confirmPassword",
      [ Validate notEmpty "Please confirm your password" ]) ].

Definition loginValidation : list Chain :=
  [ ("email",
      [ trim_step;
        Validate notEmpty "Email is required";
        Validate (isEmail lib) "Please provide a valid email";
        Sanitize (normalizeEmail lib) ]);
    ("password",
      [ Validate notEmpty "Password is required" ]) ].
End Chains.

(** [errors.array()] as the value sent in the response, in the format
    of express-validator 6, whose [param] the browser client reads. *)
Definition errors_array (errs : list FieldError) : Js.value :=
  Js.VArr (map (fun e => Js.VObj [ ("value", Js.of_string (fe_value e));
                                    ("msg", Js.VStr (fe_msg e));
                                    ("param", Js.VStr (fe_path e));
                                    ("location", Js.VStr "body") ]) errs).

End Validator.

(* ================================================================== *)
(** * State and exceptions

    A handler runs against the user collection and may throw; a thrown
    error leaves the collection as it was at the throw. *)

Module Exc.

Definition M (S A : Type) : Type := S -> (Error + A) * S.

Definition ret {S A : Type} (a : A) : M S A := fun st => (inr a, st).

Definition throw {S A : Type} (e : Error) : M S A := fun st => (inl e, st).

Definition bind {S A B : Type} (m : M S A) (k : A -> M S B) : M S B :=
  fun st =>
    match m st with
    | (inl e, st') => (inl e, st')
    | (inr a, st') => k a st'
    end.

(** A call that throws or returns, and does not touch the state. *)
Definition lift {S A : Type} (r : Error + A) : M S A := fun st => (r, st).

Definition get {S : Type} : M S S := fun st => (inr st, st).

Definition put {S : Type} (st : S) : M S unit := fun _ => (inr tt, st).

(** [try { m } catch (error) { h error }] *)
Definition try_catch {S A : Type} (m : M S A) (h : Error -> A) : S -> A * S :=
  fun st =>
    match m st with
    | (inl e, st') => (h e, st')
    | (inr a, st') => (a, st')
    end.

End Exc.

Notation "x <- m ;; k" := (Exc.bind m (fun x => k))
  (at level 100, m at next level, right associativity).

(* ================================================================== *)
(** * The User model (models/User.js) *)

Module User.

(** A document of the [users] collection. [name], [email] and
    [password] are required paths; the dates are filled by defaults and
    by the [timestamps] option. *)
Record Stored : Type := mkStored {
  _id : string;
  name : string;
  email : string;
  password : string;
  createdAt : option Z;
  lastLogin : option Z;
  updatedAt : option Z
}.

Definition Store : Type := list Stored.

(** A document in memory: its paths (a path not selected or not set is
    [None]), whether it is new, and the paths modified since it was
    loaded. *)
Record Document : Type := mkDocument {
  d_id : string;
  d_name : option string;
  d_email : option string;
  d_password : option string;
  d_createdAt : option Z;
  d_lastLogin : option Z;
  d_updatedAt : option Z;
  isNew : bool;
  modifiedPaths : list string
}.

Definition isModified (path : string) (d : Document) : bool :=
  existsb (String.eqb path) (modifiedPaths d).

(** Loading a stored document; [password] has [select: false] and is
    loaded only on [.select('+password')]. *)
Definition hydrate (with_password : bool) (r : Stored) : Document :=
  {| d_id := _id r;
     d_name := Some (name r);
     d_email := Some (email r);
     d_password := if with_password then Some (password r) else None;
     d_createdAt := createdAt r;
     d_lastLogin := lastLogin r;
     d_updatedAt := updatedAt r;
     isNew := false;
     modifiedPaths := [] |}.

(** [User.findOne({ email })] and [User.findById(id)]: the first
    document that matches. *)
Definition findOne_email (e : string) (st : Store) : option Stored :=
  List.find (fun r => String.eqb (email r) e) st.

Definition findById (id : string) (st : Store) : option Stored :=
  List.find (fun r => String.eqb (_id r) id) st.

(** The setters of the schema: [trim] on [name]; [lowercase] and [trim]
    on [email]. *)
Definition set_name (v : string) : string := Str.trim v.
Definition set_email (v : string) : string := Str.trim (Str.toLowerCase v).

(** The input of [User.create]: the paths the caller gives. *)
Record Input : Type := mkInput {
  in_name : option string;
  in_email : option string;
  in_password : option string
}.

Definition given (path : string) (v : option string) : list string :=
  match v with Some _ => [path] | None => [] end.

(** [new User(input)]: setters, then the defaults [Date.now] of
    [createdAt] and [lastLogin], and a fresh [_id]. *)
Definition construct (env : Env) (i : Input) : Document :=
  {| d_id := new_ObjectId env;
     d_name := set_name <$> in_name i;
     d_email := set_email <$> in_email i;
     d_password := in_password i;
     d_createdAt := Some (now_createdAt env);
     d_lastLogin := Some (now_lastLogin env);
     d_updatedAt := None;
     isNew := true;
     modifiedPaths :=
       given "name" (in_name i) ++ given "email" (in_email i)
         ++ given "password" (in_password i) |}.

(** The validators of one path, in order; the first that fails gives
    the error of the path. *)
Definition required (msg : string) (v : option string) : option string :=
  match v with
  | Some (String _ _) => None
  | _ => Some msg
  end.

Definition minlength (n : nat) (msg : string) (v : option string)
  : option string :=
  match v with
  | Some s => if (n <=? Str.length s)%nat then None else Some msg
  | None => None
  end.

Definition maxlength (n : nat) (msg : string) (v : option string)
  : option string :=
  match v with
  | Some s => if (Str.length s <=? n)%nat then None else Some msg
  | None => None
  end.

Definition match_ (r : Regex.re) (msg : string) (v : option string)
  : option string :=
  match v with
  | Some (String c s) => if Regex.test r (String c s) then None else Some msg
  | _ => None
  end.

Fixpoint first_error (checks : list (option string)) : option string :=
  match checks with
  | [] => None
  | Some m :: _ => Some m
  | None :: r => first_error r
  end.

Definition path_error (path : string) (checks : list (option string))
  : list (string * string) :=
  match first_error checks with
  | Some m => [(path, m)]
  | None => []
  end.

(** [doc.validate()] against [UserSchema]: the failing paths with
    their messages. *)
Definition validate (d : Document) : list (string * string) :=
  path_error "name"
    [ required "Please provide a name" (d_name d);
      minlength 2 "Name must be at least 2 characters" (d_name d);
      maxlength 50 "Name cannot exceed 50 characters" (d_name d) ]
  ++ path_error "email"
    [ required "Please provide an email" (d_email d);
      match_ Regex.email_pattern "Please provide a valid email" (d_email d) ]
  ++ path_error "password"
    [ required "Please provide a password" (d_password d);
      minlength 6 "Password must be at least 6 characters" (d_password d) ].

Definition ValidationError (errs : list (string * string)) : Error :=
  mkError "ValidationError"
    ("User validation failed: "
       +:+ Str.join ", " (map (fun pm => fst pm +:+ ": " +:+ snd pm) errs)).

Definition DuplicateKey : Error :=
  mkError "MongoServerError" "E11000 duplicate key error collection: users".

Definition DocumentNotFound : Error :=
  mkError "DocumentNotFoundError" "No document found for query".

Definition IllegalArguments : Error :=
  mkError "Error" "Illegal arguments: undefined, string".

Definition with_password (p : option string) (d : Document) : Document :=
  {| d_id := d_id d; d_name := d_name d; d_email := d_email d;
     d_password := p;
     d_createdAt := d_createdAt d; d_lastLogin := d_lastLogin d;
     d_updatedAt := d_updatedAt d;
     isNew := isNew d; modifiedPaths := modifiedPaths d |}.

(** [doc.lastLogin = t]: the path is marked modified when the value
    changes. *)
Definition with_lastLogin (t : Z) (d : Document) : Document :=
  if bool_decide (d_lastLogin d = Some t) then d
  else
    {| d_id := d_id d; d_name := d_name d; d_email := d_email d;
       d_password := d_password d;
       d_createdAt := d_createdAt d; d_lastLogin := Some t;
       d_updatedAt := d_updatedAt d;
       isNew := isNew d;
       modifiedPaths := modifiedPaths d ++ ["lastLogin"] |}.

Definition with_updatedAt (t : option Z) (paths : list string)
  (d : Document) : Document :=
  {| d_id := d_id d; d_name := d_name d; d_email := d_email d;
     d_password := d_password d;
     d_createdAt := d_createdAt d; d_lastLogin := d_lastLogin d;
     d_updatedAt := t;
     isNew := isNew d; modifiedPaths := paths |}.

(** The document as it is written by an insert. *)
Definition to_stored (d : Document) : option Stored :=
  match d_name d, d_email d, d_password d with
  | Some n, Some e, Some p =>
      Some {| _id := d_id d; name := n; email := e; password := p;
              createdAt := d_createdAt d; lastLogin := d_lastLogin d;
              updatedAt := d_updatedAt d |}
  | _, _, _ => None
  end.

(** [$set] of one modified path from the document in memory. *)
Definition set_path (d : Document) (r : Stored) (path : string) : Stored :=
  if String.eqb path "name" then
    {| _id := _id r; name := default (name r) (d_name d); email := email r;
       password := password r; createdAt := createdAt r;
       lastLogin := lastLogin r; updatedAt := updatedAt r |}
  else if String.eqb path "email" then
    {| _id := _id r; name := name r; email := default (email r) (d_email d);
       password := password r; createdAt := createdAt r;
       lastLogin := lastLogin r; updatedAt := updatedAt r |}
  else if String.eqb path "password" then
    {| _id := _id r; name := name r; email := email r;
       password := default (password r) (d_password d);
       createdAt := createdAt r;
       lastLogin := lastLogin r; updatedAt := updatedAt r |}
  else if String.eqb path "createdAt" then
    {| _id := _id r; name := name r; email := email r;
       password := password r; createdAt := d_createdAt d;
       lastLogin := lastLogin r; updatedAt := updatedAt r |}
  else if String.eqb path "lastLogin" then
    {| _id := _id r; name := name r; email := email r;
       password := password r; createdAt := createdAt r;
       lastLogin := d_lastLogin d; updatedAt := updatedAt r |}
  else if String.eqb path "updatedAt" then
    {| _id := _id r; name := name r; email := email r;
       password := password r; createdAt := createdAt r;
       lastLogin := lastLogin r; updatedAt := d_updatedAt d |}
  else r.

Definition set_paths (d : Document) (r : Stored) : Stored :=
  fold_left (set_path d) (modifiedPaths d) r.

(** [updateOne({ _id }, { $set })]: the first document with this
    [_id] is rewritten; [None] when there is none. *)
Fixpoint updateOne (id : string) (f : Stored -> Stored) (st : Store)
  : option Store :=
  match st with
  | [] => None
  | r :: rest =>
      if String.eqb (_id r) id then Some (f r :: rest)
      else cons r <$> updateOne id f rest
  end.

(** The unique indexes, on [_id] and on [email] ([unique: true]): does
    a stored document already hold one of the two keys? *)
Definition index_conflict (r : Stored) (st : Store) : bool :=
  existsb (fun r' => String.eqb (_id r') (_id r)
                     || String.eqb (email r') (email r)) st.

Section Model.
Variable lib : Library.
Variable cfg : Config.
Variable env : Env.

(** [UserSchema.pre('save')]: hash the password, but only when the
    path is new or modified. *)
Definition pre_save (d : Document) : Exc.M Store Document :=
  if negb (isModified "password" d) then Exc.ret d
  else match d_password d with
       | Some p =>
           Exc.ret (with_password (Some (bcrypt_hash lib p (genSalt env))) d)
       | None => Exc.throw IllegalArguments
       end.

(** The hook of [timestamps: true]: a new document gets
    [updatedAt] equal to its [createdAt]; a modified one gets the
    current time. *)
Definition timestamps (d : Document) : Document :=
  if isNew d then with_updatedAt (d_createdAt d) (modifiedPaths d) d
  else match modifiedPaths d with
       | [] => d
       | paths =>
           with_updatedAt (Some (now_timestamps env))
             (paths ++ ["updatedAt"]) d
       end.

(** The insert, under the unique indexes on [_id] and [email]. *)
Definition insertOne (d : Document) : Exc.M Store Document :=
  match to_stored d with
  | None => Exc.throw (ValidationError (validate d))
  | Some r =>
      st <- Exc.get ;;
      if index_conflict r st then Exc.throw DuplicateKey
      else _ <- Exc.put (st ++ [r])%list ;;
           Exc.ret (with_updatedAt (d_updatedAt d) [] d)
  end.

(** [doc.save(options)] *)
Definition save (validateBeforeSave : bool) (d : Document)
  : Exc.M Store Document :=
  let errs := if validateBeforeSave then validate d else [] in
  match errs with
  | _ :: _ => Exc.throw (ValidationError errs)
  | [] =>
      d1 <- pre_save (timestamps d) ;;
      if isNew d1 then
        d2 <- insertOne d1 ;;
        Exc.ret {| d_id := d_id d2; d_name := d_name d2;
                   d_email := d_email d2; d_password := d_password d2;
                   d_createdAt := d_createdAt d2;
                   d_lastLogin := d_lastLogin d2;
                   d_updatedAt := d_updatedAt d2;
                   isNew := false; modifiedPaths := [] |}
      else
        match modifiedPaths d1 with
        | [] => Exc.ret d1
        | _ =>
            st <- Exc.get ;;
            match updateOne (d_id d1) (set_paths d1) st with
            | None => Exc.throw DocumentNotFound
            | Some st' =>
                _ <- Exc.put st' ;;
                Exc.ret (with_updatedAt (d_updatedAt d1) [] d1)
            end
        end
  end.

(** [User.create(input)] *)
Definition create (i : Input) : Exc.M Store Document :=
  save true (construct env i).

(** [user.comparePassword(enteredPassword)] *)
Definition comparePassword (d : Document) (entered : option string)
  : Exc.M Store bool :=
  match entered, d_password d with
  | Some p, Some h => Exc.ret (bcrypt_compare lib p h)
  | _, _ => Exc.throw IllegalArguments
  end.

(** [user.generateAuthToken()]: it throws what [jwt.sign] throws. *)
Definition generateAuthToken (d : Document) : Error + string :=
  jwt_sign lib
    {| jwt_id := d_id d; jwt_email := Validator.toString (d_email d) |}
    (JWT_SECRET cfg) (JWT_EXPIRE cfg) (now_jwt env).

End Model.

(** [user.getPublicProfile()] *)
Definition getPublicProfile (d : Document) : Js.value :=
  Js.VObj [ ("id", Js.VStr (d_id d));
            ("name", Js.of_string (d_name d));
            ("email", Js.of_string (d_email d));
            ("registeredAt", Js.of_date (d_createdAt d));
            ("lastLogin", Js.of_date (d_lastLogin d)) ].

End User.

(* ================================================================== *)
(** * The controller (controllers/authController.js) *)

Module AuthController.

Definition TypeError (what : string) : Error :=
  mkError "TypeError" ("Cannot read properties of undefined (reading '" +:+ what +:+ "')").

(** [v.toLowerCase()] on a value that may not be a string. *)
Definition toLowerCase (v : option string) : Exc.M User.Store string :=
  match v with
  | Some s => Exc.ret (Str.toLowerCase s)
  | None => Exc.throw (TypeError "toLowerCase")
  end.

Section Handlers.
Variable lib : Library.
Variable cfg : Config.
Variable env : Env.

(** [new Date(Date.now() + cookieExpire * 24 * 60 * 60 * 1000)] with
    [cookieExpire = process.env.COOKIE_EXPIRE || 7]: the time value of
    the date, [None] for an invalid date.  A variable of one to eight
    decimal digits is that number of days; what another string gives is
    up to the arithmetic of the engine. *)
Definition cookieDate : option Z :=
  if Str.truthy (COOKIE_EXPIRE cfg) then
    match Str.decimal (Validator.toString (COOKIE_EXPIRE cfg)) with
    | Some days => Js.timeClip (now_cookie env + days * 24 * 60 * 60 * 1000)
    | None =>
        date_after lib (Validator.toString (COOKIE_EXPIRE cfg))
          (now_cookie env)
    end
  else Some (now_cookie env + 7 * 24 * 60 * 60 * 1000).

Definition InvalidExpires : Error :=
  mkError "TypeError" "option expires is invalid".

(** [res.cookie('token', token, cookieOptions)]: the cookie it sets; it
    throws on an invalid date. *)
Definition sessionCookie (token : string) : Error + Cookie :=
  match cookieDate with
  | Some t =>
      inr {| cookie_name := "token";
             cookie_value := token;
             expires := t;
             httpOnly := true;
             secure := bool_decide (NODE_ENV cfg = Some "production");
             sameSite := Some "strict" |}
  | None => inl InvalidExpires
  end.

Definition validation_failed (errs : list FieldError) : Response :=
  {| status := 400;
     json := Js.VObj [ ("success", Js.VBool false);
                       ("message", Js.VStr "Validation failed");
                       ("errors", Validator.errors_array errs) ];
     set_cookie := [] |}.

(** The [catch] branch of [register], [login] and [getProfile]. *)
Definition server_error (message : string) (e : Error) : Response :=
  {| status := 500;
     json := Js.VObj [ ("success", Js.VBool false);
                       ("message", Js.VStr message);
                       ("error",
                         if bool_decide (NODE_ENV cfg = Some "development")
                         then Js.VStr (err_message e) else Js.VUndefined) ];
     set_cookie := [] |}.

(** [res.status(code).json({ success: true, message, token, user })]
    after [res.cookie]. *)
Definition session_reply (code : Z) (message token : string)
  (cookie : Cookie) (d : User.Document) : Response :=
  {| status := code;
     json := Js.VObj [ ("success", Js.VBool true);
                       ("message", Js.VStr message);
                       ("token", Js.VStr token);
                       ("user", User.getPublicProfile d) ];
     set_cookie := [cookie] |}.

(** The end of [register] and of [login]: sign the token, set the
    cookie, send the reply.  What [generateAuthToken] or [res.cookie]
    throws goes to the [catch] of the handler. *)
Definition session_response (code : Z) (message : string)
  (d : User.Document) : Error + Response :=
  match User.generateAuthToken lib cfg env d with
  | inl e => inl e
  | inr token =>
      match sessionCookie token with
      | inl e => inl e
      | inr cookie => inr (session_reply code message token cookie d)
      end
  end.

(** The [try] block of [exports.register]. *)
Definition register_try (req : Request) : Exc.M User.Store Response :=
  match validation req with
  | _ :: _ => Exc.ret (validation_failed (validation req))
  | [] =>
      let name := body req !! "name" in
      let email := body req !! "email" in
      let password := body req !! "password" in
      let confirmPassword := body req !! "confirmPassword" in
      if negb (bool_decide (password = confirmPassword)) then
        Exc.ret (failure 400 "Passwords do not match")
      else
        e <- toLowerCase email ;;
        st <- Exc.get ;;
        match User.findOne_email e st with
        | Some _ =>
            Exc.ret (failure 400
              "Email already registered. Please use a different email or login.")
        | None =>
            d <- User.create lib env
                   {| User.in_name := name;
                      User.in_email := Some e;
                      User.in_password := password |} ;;
            Exc.lift (session_response 201 "Registration successful" d)
        end
  end.

Definition register (req : Request) (st : User.Store)
  : Response * User.Store :=
  Exc.try_catch (register_try req)
    (server_error "Server error during registration") st.

(** The [try] block of [exports.login]. *)
Definition login_try (req : Request) : Exc.M User.Store Response :=
  match validation req with
  | _ :: _ => Exc.ret (validation_failed (validation req))
  | [] =>
      let email := body req !! "email" in
      let password := body req !! "password" in
      e <- toLowerCase email ;;
      st <- Exc.get ;;
      match User.findOne_email e st with
      | None => Exc.ret (failure 401 "Invalid email or password")
      | Some r =>
          let d := User.hydrate true r in
          isPasswordCorrect <- User.comparePassword lib d password ;;
          if negb isPasswordCorrect then
            Exc.ret (failure 401 "Invalid email or password")
          else
            d' <- User.save lib env false
                    (User.with_lastLogin (now_lastLogin env) d) ;;
            Exc.lift (session_response 200 "Login successful" d')
      end
  end.

Definition login (req : Request) (st : User.Store)
  : Response * User.Store :=
  Exc.try_catch (login_try req)
    (server_error "Server error during login") st.

(** The [try] block of [exports.getProfile]. *)
Definition getProfile_try (req : Request) : Exc.M User.Store Response :=
  match user req with
  | None => Exc.throw (TypeError "id")
  | Some u =>
      st <- Exc.get ;;
      match User.findById (ru_id u) st with
      | None => Exc.ret (failure 404 "User not found")
      | Some r =>
          Exc.ret {| status := 200;
                     json := Js.VObj
                       [ ("success", Js.VBool true);
                         ("user", User.getPublicProfile (User.hydrate false r)) ];
                     set_cookie := [] |}
      end
  end.

Definition getProfile (req : Request) (st : User.Store)
  : Response * User.Store :=
  Exc.try_catch (getProfile_try req)
    (server_error "Server error fetching profile") st.

(** [exports.logout]: nothing in its [try] block throws. *)
Definition logout (req : Request) (st : User.Store)
  : Response * User.Store :=
  ({| status := 200;
      json := Js.VObj [ ("success", Js.VBool true);
                        ("message", Js.VStr "Logout successful") ];
      set_cookie :=
        [ {| cookie_name := "token";
             cookie_value := "none";
             expires := now_cookie env + 10 * 1000;
             httpOnly := true;
             secure := false;
             sameSite := None |} ] |}, st).

Definition identity (u : option ReqUser) : Js.value :=
  match u with
  | Some u => Js.VObj [ ("id", Js.VStr (ru_id u));
                        ("name", Js.VStr (ru_name u));
                        ("email", Js.VStr (ru_email u)) ]
  | None => Js.VUndefined
  end.

(** [exports.verifyToken]: nothing in its [try] block throws. *)
Definition verifyToken (req : Request) (st : User.Store)
  : Response * User.Store :=
  ({| status := 200;
      json := Js.VObj [ ("success", Js.VBool true);
                        ("authenticated", Js.VBool true);
                        ("user", identity (user req)) ];
      set_cookie := [] |}, st).

End Handlers.

End AuthController.

(* ================================================================== *)
(** * The session middleware (middleware/authMiddleware.js) *)

Module AuthMiddleware.

(** A middleware answers the request itself or calls [next()] with the
    request it has prepared. *)
Inductive Outcome : Type :=
| Reject : Response -> Outcome
| Next : Request -> Outcome.

(** The token of a request: [req.cookies.token] when it is truthy;
    otherwise, when the [authorization] header starts with [Bearer],
    the second piece of the header split at spaces. *)
Definition extractToken (req : Request) : option string :=
  if Str.truthy (cookies req !! "token") then cookies req !! "token"
  else
    match headers req !! "authorization" with
    | Some h =>
        if Str.truthy (Some h) && Str.startsWith h "Bearer"
        then Str.split " " h !! 1%nat
        else None
    | None => None
    end.

Definition attach (u : option ReqUser) (req : Request) : Request :=
  {| cookies := cookies req; headers := headers req; body := body req;
     validation := validation req; user := u |}.

Definition identity_of (r : User.Stored) : ReqUser :=
  {| ru_id := User._id r; ru_name := User.name r; ru_email := User.email r |}.

Section Middleware.
Variable lib : Library.
Variable cfg : Config.
Variable env : Env.

(** The outer [try] block of [exports.protect]; [inl] is an error
    that reaches the outer [catch]. *)
Definition protect_try (req : Request) (st : User.Store)
  : Error + Outcome :=
  let token := extractToken req in
  if negb (Str.truthy token) then
    inr (Reject (failure 401
           "Not authorized to access this route. Please login."))
  else
    match jwt_verify lib (Validator.toString token) (JWT_SECRET cfg)
            (now_jwt env) with
    | Decoded p =>
        match User.findById (jwt_id p) st with
        | None => inr (Reject (failure 401 "User not found. Token invalid."))
        | Some r => inr (Next (attach (Some (identity_of r)) req))
        end
    | JsonWebTokenError _ =>
        inr (Reject (failure 401 "Invalid token. Please login again."))
    | TokenExpiredError _ =>
        inr (Reject (failure 401 "Token expired. Please login again."))
    | OtherError e => inl e
    end.

Definition protect (req : Request) (st : User.Store) : Outcome :=
  match protect_try req st with
  | inr o => o
  | inl _ => Reject (failure 500 "Server error during authentication")
  end.

(** [exports.optionalAuth]: always calls [next()]. *)
Definition optionalAuth (req : Request) (st : User.Store) : Request :=
  let token := extractToken req in
  if Str.truthy token then
    match jwt_verify lib (Validator.toString token) (JWT_SECRET cfg)
            (now_jwt env) with
    | Decoded p =>
        match User.findById (jwt_id p) st with
        | Some r => attach (Some (identity_of r)) req
        | None => req
        end
    | _ => attach None req
    end
  else req.

End Middleware.

End AuthMiddleware.

(* ================================================================== *)
(** * The routes (routes/authRoutes.js) *)

Module Routes.

Section Router.
Variable lib : Library.
Variable cfg : Config.
Variable env : Env.

Definition Handler : Type := Request -> User.Store -> Response * User.Store.

(** [router.x(path, protect, handler)] *)
Definition protected (h : Handler) : Handler :=
  fun req st =>
    match AuthMiddleware.protect lib cfg env req st with
    | AuthMiddleware.Reject r => (r, st)
    | AuthMiddleware.Next req' => h req' st
    end.

(** [router.post('/register', registerValidation, register)] *)
Definition POST_register : Handler :=
  fun req =>
    AuthController.register lib cfg env
      (Validator.run_all (Validator.registerValidation lib) req).

(** [router.post('/login', loginValidation, login)] *)
Definition POST_login : Handler :=
  fun req =>
    AuthController.login lib cfg env
      (Validator.run_all (Validator.loginValidation lib) req).

Definition GET_profile : Handler :=
  protected (AuthController.getProfile cfg).

Definition POST_logout : Handler :=
  protected (AuthController.logout env).

Definition GET_verify : Handler :=
  protected AuthController.verifyToken.

End Router.

End Routes.

(* ================================================================== *)
(** * The server (server.js) *)

Module Server.

Definition allowedOrigins : list string :=
  [ "https://secure-sphere-login-page.vercel.app";
    "http://localhost:3000";
    "http://127.0.0.1:3000";
    "http://127.0.0.1:5173";
    "http://localhost:5173" ].

(** [/^https?:\/\/(localhost|127\.0\.0\.1)(:\d+)?$/] *)
Definition localhost_pattern : Regex.re :=
  Regex.Seq (Regex.lit "http")
    (Regex.Seq (Regex.Opt (Regex.lit "s"))
       (Regex.Seq (Regex.lit "://")
          (Regex.Seq (Regex.Alt (Regex.lit "localhost") (Regex.lit "127.0.0.1"))
             (Regex.Opt (Regex.Seq (Regex.lit ":") (Regex.Plus Regex.digit)))))).

Definition NotAllowedByCORS : Error := mkError "Error" "Not allowed by CORS".

(** The [origin] function of the CORS options: [inr true] is
    [callback(null, true)], [inl e] is [callback(e)]. *)
Definition corsOrigin (cfg : Config) (origin : option string) : Error + bool :=
  if negb (Str.truthy origin) then inr true
  else
    let o := Validator.toString origin in
    if negb (bool_decide (NODE_ENV cfg = Some "production"))
       && Regex.test localhost_pattern o
    then inr true
    else if existsb (String.eqb o) allowedOrigins then inr true
    else inl NotAllowedByCORS.

(** The handler of unmatched routes. *)
Definition notFound : Response := failure 404 "Route not found".

End Server.

(* ================================================================== *)
(** * The browser client (frontend/script.js) *)

Module Frontend.

Definition all_ascii : list ascii := map ascii_of_nat (seq 0 256).

(** The class [[^\s@]] on bytes: every byte but the white space of
    ASCII and [@]. *)
Definition not_space_at : Regex.cclass :=
  Regex.COneOf
    (List.filter (fun c => negb (Str.is_space c || Ascii.eqb c "@")) all_ascii).

(** [/^[^\s@]+@[^\s@]+\.[^\s@]+$/] *)
Definition isValidEmail_pattern : Regex.re :=
  Regex.Seq (Regex.Plus (Regex.Class not_space_at))
    (Regex.Seq Regex.at_sign
       (Regex.Seq (Regex.Plus (Regex.Class not_space_at))
          (Regex.Seq Regex.dot (Regex.Plus (Regex.Class not_space_at))))).

(** [isValidEmail(email)].  The pattern spans the whole string, so it
    accepts when the bytes have its shape and no character is a white
    space outside ASCII. *)
Definition isValidEmail (email : string) : bool :=
  Regex.test isValidEmail_pattern email && negb (Str.has_wide_space email).

(** The values of the inputs of the register form. *)
Record RegisterForm : Type := mkRegisterForm {
  f_name : string;
  f_email : string;
  f_password : string;
  f_confirmPassword : string
}.

Definition is_empty (s : string) : bool := String.eqb s EmptyString.

(** The checks of the submit handler of the register form: the errors
    it shows, in order. *)
Definition registerFormErrors (f : RegisterForm) : list (string * string) :=
  let name := Str.trim (f_name f) in
  let email := Str.trim (f_email f) in
  let password := f_password f in
  let confirmPassword := f_confirmPassword f in
  ((if is_empty name then [("name", "Name is required")]
    else if (Str.length name <? 2)%nat
         then [("name", "Name must be at least 2 characters")]
         else [])
   ++ (if is_empty email then [("email", "Email is required")]
       else if negb (isValidEmail email)
            then [("email", "Please enter a valid email")]
            else [])
   ++ (if is_empty password then [("password", "Password is required")]
       else if (Str.length password <? 6)%nat
            then [("password", "Password must be at least 6 characters")]
            else [])
   ++ (if is_empty confirmPassword
       then [("confirmPassword", "Please confirm your password")]
       else if negb (String.eqb password confirmPassword)
            then [("confirmPassword", "Passwords do not match")]
            else []))%list.

(** The JSON body the register form posts when it shows no error. *)
Definition registerBody (f : RegisterForm) : gmap string string :=
  list_to_map [ ("name", Str.trim (f_name f));
                ("email", Str.trim (f_email f));
                ("password", f_password f);
                ("confirmPassword", f_confirmPassword f) ].

(** The checks of the submit handler of the login form. *)
Definition loginFormErrors (email0 password : string)
  : list (string * string) :=
  let email := Str.trim email0 in
  ((if is_empty email then [("email", "Email is required")]
    else if negb (isValidEmail email)
         then [("email", "Please enter a valid email")]
         else [])
   ++ (if is_empty password then [("password", "Password is required")]
       else if (Str.length password <? 6)%nat
            then [("password", "Password must be at least 6 characters")]
            else []))%list.

Definition loginBody (email0 password : string) : gmap string string :=
  list_to_map [ ("email", Str.trim email0); ("password", password) ].

(** A request as the browser sends it: the body, and the token it holds
    in an [Authorization] header. *)
Definition post (b : gmap string string) : Request :=
  {| cookies := ∅; headers := ∅; body := b; validation := []; user := None |}.

End Frontend.

(* ================================================================== *)
(** * A reference instance of the libraries

    A stand-in for validator.js, bcryptjs and jsonwebtoken on which the
    handlers can be run.  Its token check follows the order of
    jsonwebtoken: the shape of the token, then its signature, then its
    expiry. *)

Module Reference.

Definition has_at (s : string) : bool :=
  existsb (Ascii.eqb "@") (list_ascii_of_string s).

(** A token is [id|email|state|key]; [state] is [live] or [stale].
    Signing throws, as jsonwebtoken does, without a secret or without
    an [expiresIn]. *)
Definition sign (p : JwtPayload) (secret expiresIn : option string)
  (clock : Z) : Error + string :=
  if negb (Str.truthy secret) then
    inl (mkError "Error" "secretOrPrivateKey must have a value")
  else if negb (Str.truthy expiresIn) then
    inl (mkError "Error"
           "expiresIn should be a number of seconds or string representing a timespan")
  else
    inr (Str.join "|" [jwt_id p; jwt_email p; "live";
                       Validator.toString secret]).

Definition verify (token : string) (secret : option string) (clock : Z)
  : VerifyResult :=
  if negb (Str.truthy secret) then
    JsonWebTokenError "secret or public key must be provided"
  else
    match Str.split "|" token with
    | [id; email; state; key] =>
        if negb (String.eqb key (Validator.toString secret))
        then JsonWebTokenError "invalid signature"
        else if String.eqb state "stale" then TokenExpiredError "jwt expired"
        else Decoded {| jwt_id := id; jwt_email := email |}
    | _ => JsonWebTokenError "jwt malformed"
    end.

(** The characters of a string: the bytes that do not continue one. *)
Fixpoint characters (s : string) : nat :=
  match s with
  | EmptyString => 0%nat
  | String c r =>
      ((if Str.in_range 128 191 c then 0 else 1) + characters r)%nat
  end.

Definition length_within (min max : option nat) (s : string) : bool :=
  (default 0%nat min <=? characters s)%nat
  && match max with
     | Some m => (characters s <=? m)%nat
     | None => true
     end.

Definition lib : Library :=
  {| isEmail := has_at;
     normalizeEmail := fun s => Some (Str.toLowerCase s);
     isLength := length_within;
     bcrypt_hash := fun plaintext salt => salt +:+ "$" +:+ plaintext;
     bcrypt_compare := fun entered stored =>
       String.eqb (String.substring 4 (String.length stored) stored)
                  ("$" +:+ entered);
     jwt_sign := sign;
     jwt_verify := verify;
     date_after := fun _ _ => None |}.

Definition cfg : Config :=
  {| NODE_ENV := Some "production";
     JWT_SECRET := Some "s3cret";
     JWT_EXPIRE := Some "7d";
     COOKIE_EXPIRE := None |}.

(** The variables of the documented [.env]: no [JWT_EXPIRE]. *)
Definition documented : Config :=
  {| NODE_ENV := Some "development";
     JWT_SECRET := Some "your_jwt_secret_key";
     JWT_EXPIRE := None;
     COOKIE_EXPIRE := None |}.

(** A request at clock [t] (each reading one millisecond after the
    last), with salt [salt] and fresh identifier [oid]. *)
Definition env_at (t : Z) (oid : string) : Env :=
  {| now_createdAt := t;
     now_lastLogin := t + 1;
     now_timestamps := t + 2;
     now_jwt := t + 3;
     now_cookie := t + 4;
     genSalt := "salt";
     new_ObjectId := oid |}.

Definition request (fields : list (string * string)) : Request :=
  {| cookies := ∅; headers := ∅; body := list_to_map fields;
     validation := []; user := None |}.

Definition with_cookie (token : string) : Request :=
  {| cookies := {[ "token" := token ]}; headers := ∅; body := ∅;
     validation := []; user := None |}.

Definition with_bearer (token : string) : Request :=
  {| cookies := ∅; headers := {[ "authorization" := "Bearer " +:+ token ]};
     body := ∅; validation := []; user := None |}.

Definition alice_register : Request :=
  request [ ("name", "Alice Smith"); ("email", "Alice@Example.com");
            ("password", "secret1"); ("confirmPassword", "secret1") ].

Definition alice_login : Request :=
  request [ ("email", "ALICE@example.com"); ("password", "secret1") ].

Definition login_unknown : Request :=
  request [ ("email", "nobody@example.com"); ("password", "secret1") ].

Definition login_wrong_password : Request :=
  request [ ("email", "alice@example.com"); ("password", "guess-1") ].

Definition login_no_password : Request :=
  request [ ("email", "nobody@example.com") ].

Definition register_mismatch : Request :=
  request [ ("name", "Alice Smith"); ("email", "Alice@Example.com");
            ("password", "secret1"); ("confirmPassword", "secret2") ].

Definition register_info : Request :=
  request [ ("name", "Alice Smith"); ("email", "alice@example.info");
            ("password", "secret1"); ("confirmPassword", "secret1") ].

Definition alice_token : string := "u1|alice@example.com|live|s3cret".
Definition stale_token : string := "u1|alice@example.com|stale|s3cret".
Definition forged_stale_token : string := "u1|alice@example.com|stale|forged".

Definition alice : User.Stored :=
  {| User._id := "u1"; User.name := "Alice Smith";
     User.email := "alice@example.com";
     User.password := "salt$secret1";
     User.createdAt := Some 1000; User.lastLogin := Some 1001;
     User.updatedAt := Some 1000 |}.

Definition alice_form : Frontend.RegisterForm :=
  {| Frontend.f_name := " Alice Smith ";
     Frontend.f_email := "Alice@Example.com ";
     Frontend.f_password := "secret1";
     Frontend.f_confirmPassword := "secret1" |}.

(** U+1F600, one character of two code units: [F0 9F 98 80]. *)
Definition emoji : string :=
  String (ascii_of_nat 240)
    (String (ascii_of_nat 159)
       (String (ascii_of_nat 152) (String (ascii_of_nat 128) EmptyString))).

Definition emoji_form : Frontend.RegisterForm :=
  {| Frontend.f_name := emoji;
     Frontend.f_email := "alice@example.com";
     Frontend.f_password := "secret1";
     Frontend.f_confirmPassword := "secret1" |}.

Definition development : Config :=
  {| NODE_ENV := Some "development";
     JWT_SECRET := Some "s3cret";
     JWT_EXPIRE := Some "7d";
     COOKIE_EXPIRE := Some "1" |}.

(** The collection after Alice has registered at clock 1000. *)
Definition after_alice : User.Store :=
  snd (Routes.POST_register lib cfg (env_at 1000 "u1") alice_register []).

End Reference.

(* ================================================================== *)
(** * Vocabulary of the statements *)

Module Spec.

(** The document that [User.create] writes for the name [n], the email
    [e] and the password [p]. *)
Definition new_record (lib : Library) (env : Env) (n e p : string)
  : User.Stored :=
  {| User._id := new_ObjectId env;
     User.name := User.set_name n;
     User.email := User.set_email e;
     User.password := bcrypt_hash lib p (genSalt env);
     User.createdAt := Some (now_createdAt env);
     User.lastLogin := Some (now_lastLogin env);
     User.updatedAt := Some (now_createdAt env) |}.

(** The document [r] after a login at the clock of [env]: the new
    [lastLogin], and the [updatedAt] of the [timestamps] option. *)
Definition touch (env : Env) (r : User.Stored) : User.Stored :=
  {| User._id := User._id r;
     User.name := User.name r;
     User.email := User.email r;
     User.password := User.password r;
     User.createdAt := User.createdAt r;
     User.lastLogin := Some (now_lastLogin env);
     User.updatedAt := Some (now_timestamps env) |}.

(** Two versions of a document that differ at most in [lastLogin] and
    [updatedAt]. *)
Definition same_identity (a b : User.Stored) : Prop :=
  User._id b = User._id a /\ User.name b = User.name a
  /\ User.email b = User.email a /\ User.password b = User.password a
  /\ User.createdAt b = User.createdAt a.

(** The dates of a document are set. *)
Definition dated (r : User.Stored) : Prop :=
  is_Some (User.createdAt r) /\ is_Some (User.lastLogin r)
  /\ is_Some (User.updatedAt r).

(** What the session middleware decides: its reply, or the identity it
    attaches to the request. *)
Definition verdict (o : AuthMiddleware.Outcome) : Response + option ReqUser :=
  match o with
  | AuthMiddleware.Reject r => inl r
  | AuthMiddleware.Next req => inr (user req)
  end.

(** The status codes of the replies that report a failure. *)
Definition error_status (code : Z) : Prop :=
  code = 400 \/ code = 401 \/ code = 404 \/ code = 500.

(** The status codes of the replies that report success. *)
Definition success_status (code : Z) : Prop := code = 200 \/ code = 201.

(** The replies the handlers send. *)
Inductive reply (lib : Library) (cfg : Config) (env : Env)
  : Response -> Prop :=
| reply_validation errs :
    reply lib cfg env (AuthController.validation_failed errs)
| reply_failure code message :
    reply lib cfg env (failure code message)
| reply_error message e :
    reply lib cfg env (AuthController.server_error cfg message e)
| reply_session code message token cookie d :
    success_status code ->
    User.generateAuthToken lib cfg env d = inr token ->
    AuthController.sessionCookie lib cfg env token = inr cookie ->
    reply lib cfg env
      (AuthController.session_reply code message token cookie d)
| reply_profile d :
    reply lib cfg env
      {| status := 200;
         json := Js.VObj [ ("success", Js.VBool true);
                           ("user", User.getPublicProfile d) ];
         set_cookie := [] |}.

(** The reply that ends [register] and [login]: the session reply, or
    the reply of the [catch] when signing the token or setting the
    cookie throws. *)
Definition session_outcome (lib : Library) (cfg : Config) (env : Env)
  (code : Z) (message on_error : string) (d : User.Document) : Response :=
  match AuthController.session_response lib cfg env code message d with
  | inr resp => resp
  | inl e => AuthController.server_error cfg on_error e
  end.

(** The public profile of a stored user: [_id], name, email and the
    two dates, and nothing of the password. *)
Definition profile (r : User.Stored) : Js.value :=
  Js.VObj [ ("id", Js.VStr (User._id r));
            ("name", Js.VStr (User.name r));
            ("email", Js.VStr (User.email r));
            ("registeredAt", Js.of_date (User.createdAt r));
            ("lastLogin", Js.of_date (User.lastLogin r)) ].



(** Stored emails are in lower case and trimmed. *)
Definition normal_email (r : User.Stored) : Prop :=
  Str.toLowerCase (User.email r) = User.email r
  /\ Str.trim (User.email r) = User.email r.

(** What holds of every collection the service builds. *)
Definition invariant (st : User.Store) : Prop :=
  Forall normal_email st /\ Forall dated st
  /\ NoDup (map User.email st) /\ NoDup (map User._id st).

(** A document is unchanged or carries the marks of a login. *)
Definition kept_or_touched (env : Env) (a b : User.Stored) : Prop :=
  b = a \/ b = touch env a.

(** No two documents have emails that are equal up to letter case. *)
Definition emails_unique_ci (st : User.Store) : Prop :=
  NoDup (map (fun r => Str.toLowerCase (User.email r)) st).

(** The collections the service can be in: empty at first, then
    changed by the requests it answers. *)
Inductive reachable (lib : Library) (cfg : Config) : User.Store -> Prop :=
| reach_empty : reachable lib cfg []
| reach_register env req st :
    reachable lib cfg st ->
    reachable lib cfg (snd (Routes.POST_register lib cfg env req st))
| reach_login env req st :
    reachable lib cfg st ->
    reachable lib cfg (snd (Routes.POST_login lib cfg env req st))
| reach_profile env req st :
    reachable lib cfg st ->
    reachable lib cfg (snd (Routes.GET_profile lib cfg env req st))
| reach_logout env req st :
    reachable lib cfg st ->
    reachable lib cfg (snd (Routes.POST_logout lib cfg env req st))
| reach_verify env req st :
    reachable lib cfg st ->
    reachable lib cfg (snd (Routes.GET_verify lib cfg env req st)).

(** What the schema and the save hook guarantee of a stored document:
    a trimmed name of 2 to 50 characters, an email the schema pattern
    accepts, and as password the bcrypt hash of a plaintext of at least
    6 characters. *)
Definition well_formed (lib : Library) (r : User.Stored) : Prop :=
  Str.trim (User.name r) = User.name r
  /\ (2 <= Str.length (User.name r) <= 50)%nat
  /\ Regex.test Regex.email_pattern (User.email r) = true
  /\ exists p salt, (6 <= Str.length p)%nat
                    /\ User.password r = bcrypt_hash lib p salt.

(** A length within [min] and [max], in code units as [s.length]
    counts. *)
Definition length_in (min max : option nat) (s : string) : bool :=
  (default 0%nat min <=? Str.length s)%nat
  && match max with
     | Some m => (Str.length s <=? m)%nat
     | None => true
     end.

(** validator.js counts a string without surrogate pairs and variation
    selectors as [s.length] does. *)
Definition counts_units (lib : Library) : Prop :=
  forall min max s,
    Str.plain s = true -> isLength lib min max s = length_in min max s.

(** The characters the email pattern of the schema reads: [\w], [.]
    and [-]. *)
Definition schema_char (c : ascii) : bool :=
  Str.is_word c || Ascii.eqb c "." || Ascii.eqb c "-".

End Spec.

(* ================================================================== *)
(** * Properties of the string primitives *)

Module StrFacts.
Import Str.

Ltac by_cases_on_char c :=
  destruct c as [[] [] [] [] [] [] [] []]; vm_compute; reflexivity.

Lemma lower_char_idem (c : ascii) : lower_char (lower_char c) = lower_char c.
Proof. by_cases_on_char c. Qed.

Lemma is_space_lower_char (c : ascii) : is_space (lower_char c) = is_space c.
Proof. by_cases_on_char c. Qed.

(** Lower-casing leaves the bytes from 128 on alone, and makes none. *)
Lemma lower_char_low (c : ascii) :
  lower_char c = c
  \/ ((nat_of_ascii c < 128)%nat /\ (nat_of_ascii (lower_char c) < 128)%nat).
Proof.
  destruct c as [[] [] [] [] [] [] [] []];
    first [ left; reflexivity | right; vm_compute; split; lia ].
Qed.

Lemma is_byte_lower_char (n : nat) (c : ascii) :
  (128 <= n)%nat -> is_byte n (lower_char c) = is_byte n c.
Proof.
  intros Hn. destruct (lower_char_low c) as [->|[H1 H2]]; [reflexivity|].
  unfold is_byte.
  destruct (Nat.eqb_spec (nat_of_ascii (lower_char c)) n);
    destruct (Nat.eqb_spec (nat_of_ascii c) n); try reflexivity; lia.
Qed.

Lemma in_range_lower_char (lo hi : nat) (c : ascii) :
  (128 <= lo)%nat -> in_range lo hi (lower_char c) = in_range lo hi c.
Proof.
  intros Hn. destruct (lower_char_low c) as [->|[H1 H2]]; [reflexivity|].
  unfold in_range.
  destruct (Nat.leb_spec lo (nat_of_ascii (lower_char c)));
    destruct (Nat.leb_spec lo (nat_of_ascii c)); try reflexivity; lia.
Qed.

Lemma is_space2_lower_char (a b : ascii) :
  is_space2 (lower_char a) (lower_char b) = is_space2 a b.
Proof. unfold is_space2. rewrite !is_byte_lower_char by lia. reflexivity. Qed.

Lemma is_space3_lower_char (a b c : ascii) :
  is_space3 (lower_char a) (lower_char b) (lower_char c) = is_space3 a b c.
Proof.
  unfold is_space3.
  rewrite !is_byte_lower_char, !in_range_lower_char by lia. reflexivity.
Qed.

Lemma toLowerCase_idem (s : string) : toLowerCase (toLowerCase s) = toLowerCase s.
Proof.
  induction s as [|c s IH]; simpl; [reflexivity|].
  now rewrite lower_char_idem, IH.
Qed.

Lemma toLowerCase_length (s : string) :
  String.length (toLowerCase s) = String.length s.
Proof. induction s; simpl; congruence. Qed.

Lemma toLowerCase_empty (s : string) :
  String.eqb (toLowerCase s) EmptyString = String.eqb s EmptyString.
Proof. now destruct s. Qed.

Lemma append_nil_l (s : string) : EmptyString +:+ s = s.
Proof. reflexivity. Qed.

Lemma append_cons_l (c : ascii) (s t : string) :
  String c s +:+ t = String c (s +:+ t).
Proof. reflexivity. Qed.

(** Induction on the length of a string. *)
Lemma string_length_ind (P : string -> Prop) :
  (forall s, (forall t, (String.length t < String.length s)%nat -> P t) -> P s) ->
  forall s, P s.
Proof.
  intros H s. remember (String.length s) as n eqn:E.
  revert s E. induction n as [n IH] using lt_wf_ind.
  intros s ->. apply H. intros t Ht. now apply (IH (String.length t)).
Qed.

(** ** The white space a string starts with *)

Lemma trimStart_step (s : string) :
  trimStart s = match after_space s with
                | Some t => trimStart t
                | None => s
                end.
Proof.
  destruct s as [|a [|b [|c r]]]; cbn [trimStart after_space];
    try reflexivity.
  - now destruct (is_space a).
  - destruct (is_space a); [reflexivity|]. now destruct (is_space2 a b).
  - destruct (is_space a); [reflexivity|].
    destruct (is_space2 a b); [reflexivity|].
    now destruct (is_space3 a b c).
Qed.

(** The white space character is a prefix, of one to three bytes. *)
Lemma after_space_app (s t : string) :
  after_space s = Some t -> exists w, s = w +:+ t /\ w <> EmptyString.
Proof.
  destruct s as [|a [|b [|c r]]]; cbn [after_space]; try discriminate.
  - destruct (is_space a); [|discriminate]. intros [= <-].
    exists (String a EmptyString). split; [reflexivity|discriminate].
  - destruct (is_space a).
    + intros [= <-]. exists (String a EmptyString).
      split; [reflexivity|discriminate].
    + destruct (is_space2 a b); [|discriminate]. intros [= <-].
      exists (String a (String b EmptyString)).
      split; [reflexivity|discriminate].
  - destruct (is_space a).
    + intros [= <-]. exists (String a EmptyString).
      split; [reflexivity|discriminate].
    + destruct (is_space2 a b).
      * intros [= <-]. exists (String a (String b EmptyString)).
        split; [reflexivity|discriminate].
      * destruct (is_space3 a b c); [|discriminate]. intros [= <-].
        exists (String a (String b (String c EmptyString))).
        split; [reflexivity|discriminate].
Qed.

Lemma length_append (s t : string) :
  String.length (s +:+ t) = (String.length s + String.length t)%nat.
Proof.
  induction s as [|c s IH]; [reflexivity|].
  rewrite append_cons_l. cbn [String.length]. now rewrite IH.
Qed.

Lemma after_space_shorter (s t : string) :
  after_space s = Some t -> (String.length t < String.length s)%nat.
Proof.
  intros H. destruct (after_space_app s t H) as (w & -> & Hw).
  rewrite length_append. destruct w; [congruence|cbn; lia].
Qed.

(** It is decided by the bytes it is made of. *)
Lemma after_space_prefix (s t x : string) :
  after_space s = Some t -> after_space (s +:+ x) = Some (t +:+ x).
Proof.
  destruct s as [|a [|b [|c r]]]; cbn [after_space]; try discriminate;
    rewrite ?append_cons_l, ?append_nil_l.
  - destruct (is_space a) eqn:Ea; [|discriminate]. intros [= <-].
    destruct x as [|x1 x]; cbn [after_space]; now rewrite Ea.
  - destruct (is_space a) eqn:Ea.
    + intros [= <-]. cbn [after_space]. now rewrite Ea.
    + destruct (is_space2 a b) eqn:Eb; [|discriminate]. intros [= <-].
      cbn [after_space]. rewrite Ea.
      destruct x as [|x1 x]; now rewrite Eb.
  - destruct (is_space a) eqn:Ea.
    + intros [= <-]. cbn [after_space]. now rewrite Ea.
    + destruct (is_space2 a b) eqn:Eb.
      * intros [= <-]. cbn [after_space]. now rewrite Ea, Eb.
      * destruct (is_space3 a b c) eqn:Ec; [|discriminate]. intros [= <-].
        cbn [after_space]. now rewrite Ea, Eb, Ec.
Qed.

Lemma after_space_toLowerCase (s : string) :
  after_space (toLowerCase s) = toLowerCase <$> after_space s.
Proof.
  destruct s as [|a [|b [|c r]]]; cbn [after_space toLowerCase];
    rewrite ?is_space_lower_char, ?is_space2_lower_char,
      ?is_space3_lower_char.
  - reflexivity.
  - now destruct (is_space a).
  - destruct (is_space a); [reflexivity|]. now destruct (is_space2 a b).
  - destruct (is_space a); [reflexivity|].
    destruct (is_space2 a b); [reflexivity|].
    now destruct (is_space3 a b c).
Qed.

Lemma trimStart_idem (s : string) : trimStart (trimStart s) = trimStart s.
Proof.
  induction s as [s IH] using string_length_ind.
  rewrite (trimStart_step s).
  destruct (after_space s) as [t|] eqn:E.
  - apply IH. now apply after_space_shorter.
  - rewrite (trimStart_step s), E. reflexivity.
Qed.

(** White space in front of a string goes with the white space the
    string starts with. *)
Lemma trimStart_app (x w : string) :
  trimStart x = EmptyString -> trimStart (x +:+ w) = trimStart w.
Proof.
  induction x as [x IH] using string_length_ind. intros Hx.
  destruct x as [|a r]; [reflexivity|].
  rewrite trimStart_step in Hx. rewrite (trimStart_step (String a r +:+ w)).
  destruct (after_space (String a r)) as [t|] eqn:E; [|discriminate Hx].
  rewrite (after_space_prefix _ _ w E).
  apply IH; [now apply after_space_shorter | exact Hx].
Qed.

Lemma toLowerCase_trimStart (s : string) :
  toLowerCase (trimStart s) = trimStart (toLowerCase s).
Proof.
  induction s as [s IH] using string_length_ind.
  rewrite (trimStart_step s), (trimStart_step (toLowerCase s)),
    after_space_toLowerCase.
  destruct (after_space s) as [t|] eqn:E; cbn [fmap option_fmap option_map].
  - apply IH. now apply after_space_shorter.
  - reflexivity.
Qed.

(** ** The white space a string ends with *)

Lemma trimEnd_cons (c : ascii) (s : string) :
  trimEnd (String c s) =
    if String.eqb (trimStart (String c s)) EmptyString then EmptyString
    else String c (trimEnd s).
Proof. reflexivity. Qed.

(** What [trimEnd] removes is white space. *)
Lemma trimEnd_app (s : string) :
  exists w, s = trimEnd s +:+ w /\ trimStart w = EmptyString.
Proof.
  induction s as [|c s (w & Hs & Hw)]; [now exists EmptyString|].
  rewrite trimEnd_cons.
  destruct (String.eqb (trimStart (String c s)) EmptyString) eqn:E.
  - apply String.eqb_eq in E. now exists (String c s).
  - exists w. split; [|exact Hw]. rewrite append_cons_l. now rewrite <- Hs.
Qed.

Lemma trimEnd_idem (s : string) : trimEnd (trimEnd s) = trimEnd s.
Proof.
  induction s as [|c s IH]; [reflexivity|].
  rewrite trimEnd_cons.
  destruct (String.eqb (trimStart (String c s)) EmptyString) eqn:E;
    [reflexivity|].
  rewrite trimEnd_cons, IH.
  destruct (String.eqb (trimStart (String c (trimEnd s))) EmptyString)
    eqn:E'; [|reflexivity].
  exfalso. apply String.eqb_eq in E'. apply String.eqb_neq in E. apply E.
  destruct (trimEnd_app s) as (w & Hs & Hw).
  rewrite Hs at 1. rewrite <- append_cons_l.
  now rewrite (trimStart_app _ w E').
Qed.

Lemma trimEnd_fixed_tail (w t : string) :
  trimEnd (w +:+ t) = w +:+ t -> trimEnd t = t.
Proof.
  induction w as [|c w IH]; [now rewrite append_nil_l|].
  rewrite append_cons_l, trimEnd_cons.
  destruct (String.eqb _ EmptyString); [discriminate|].
  intros [= H]. now apply IH.
Qed.

Lemma trimEnd_trimStart_fixed (u : string) :
  trimEnd u = u -> trimEnd (trimStart u) = trimStart u.
Proof.
  induction u as [u IH] using string_length_ind. intros Hu.
  rewrite (trimStart_step u).
  destruct (after_space u) as [t|] eqn:E; [|exact Hu].
  apply IH; [now apply after_space_shorter|].
  destruct (after_space_app u t E) as (w & -> & _).
  now apply trimEnd_fixed_tail with w.
Qed.

(** Trimming twice is trimming once. *)
Lemma trim_idem (s : string) : trim (trim s) = trim s.
Proof.
  unfold trim.
  rewrite (trimEnd_trimStart_fixed (trimEnd s)) by apply trimEnd_idem.
  apply trimStart_idem.
Qed.

Lemma toLowerCase_trimEnd (s : string) :
  toLowerCase (trimEnd s) = trimEnd (toLowerCase s).
Proof.
  induction s as [|c s IH]; [reflexivity|].
  rewrite trimEnd_cons.
  assert (trimEnd (toLowerCase (String c s))
          = if String.eqb (trimStart (toLowerCase (String c s))) EmptyString
            then EmptyString
            else String (lower_char c) (trimEnd (toLowerCase s))) as ->
    by reflexivity.
  rewrite <- toLowerCase_trimStart, toLowerCase_empty.
  destruct (String.eqb (trimStart (String c s)) EmptyString);
    [reflexivity|].
  cbn [toLowerCase]. now rewrite IH.
Qed.

(** Lower-casing and trimming commute. *)
Lemma toLowerCase_trim (s : string) :
  toLowerCase (trim s) = trim (toLowerCase s).
Proof.
  unfold trim. now rewrite toLowerCase_trimStart, toLowerCase_trimEnd.
Qed.

(** ** Lengths *)

(** A string of length one or more is not empty. *)
Lemma length_units_nonempty (s : string) :
  (1 <= length s)%nat -> s <> EmptyString.
Proof. destruct s; cbn; [lia|discriminate]. Qed.

(** On ASCII the length is the number of bytes. *)
Lemma length_ascii (s : string) :
  all_chars (in_range 0 127) s = true -> length s = String.length s.
Proof.
  induction s as [|c s IH]; cbn [all_chars length String.length];
    [reflexivity|].
  intros H. apply andb_true_iff in H as [Hc Hs]. rewrite (IH Hs).
  assert (units c = 1%nat) as ->; [|reflexivity].
  revert Hc. destruct c as [[] [] [] [] [] [] [] []]; vm_compute;
    congruence.
Qed.

(** No white space outside ASCII in a string of ASCII. *)
Lemma has_wide_space_ascii (s : string) :
  all_chars (in_range 0 127) s = true -> has_wide_space s = false.
Proof.
  induction s as [|a s IH]; [reflexivity|].
  cbn [all_chars]. intros H. apply andb_true_iff in H as [Ha Hs].
  cbn [has_wide_space]. rewrite (IH Hs), orb_false_r.
  assert (forall n, (128 <= n)%nat -> is_byte n a = false) as Hb.
  { intros n Hn. unfold is_byte, in_range in *.
    apply andb_true_iff in Ha as [_ Ha]. apply Nat.leb_le in Ha.
    apply Nat.eqb_neq. lia. }
  destruct s as [|b [|c r]]; [reflexivity| |];
    unfold is_space2, is_space3; rewrite !Hb by lia; reflexivity.
Qed.

End StrFacts.

(* ================================================================== *)
(** * The matcher decides the language of the pattern *)

Module RegexFacts.
Import Regex.
Export StrFacts.

Ltac app_simpl := rewrite ?append_cons_l, ?append_nil_l in *.

Lemma append_empty_inv (s t : string) :
  s +:+ t = EmptyString -> s = EmptyString /\ t = EmptyString.
Proof. destruct s; app_simpl; [tauto | discriminate]. Qed.

Lemma append_assoc (s t u : string) : (s +:+ t) +:+ u = s +:+ (t +:+ u).
Proof. induction s; app_simpl; congruence. Qed.

Lemma append_empty_r (s : string) : s +:+ EmptyString = s.
Proof. induction s; app_simpl; congruence. Qed.

Lemma lang_nullable (r : re) (s : string) :
  lang r s -> s = EmptyString -> nullable r = true.
Proof.
  induction 1; intros Hs; simpl; try reflexivity; try discriminate.
  - apply append_empty_inv in Hs as [-> ->].
    now rewrite IHlang1, IHlang2.
  - now rewrite IHlang.
  - rewrite IHlang by assumption. apply orb_true_r.
Qed.

Lemma nullable_lang (r : re) : nullable r = true -> lang r EmptyString.
Proof.
  induction r; simpl; intros H; try discriminate.
  - constructor.
  - apply andb_true_iff in H as [H1 H2].
    apply (lang_Seq _ _ EmptyString EmptyString); auto.
  - apply orb_true_iff in H as [H|H].
    + apply lang_AltL; auto.
    + apply lang_AltR; auto.
  - constructor.
Qed.

Lemma lang_seq (a b : re) (s : string) : lang (seq a b) s <-> lang (Seq a b) s.
Proof.
  destruct a; simpl; try tauto.
  split.
  - intros H. apply (lang_Seq Empty b EmptyString s); [constructor | exact H].
  - intros H. inversion H; subst.
    match goal with H1 : lang Empty _ |- _ => inversion H1; subst end.
    assumption.
Qed.

(** The ways a sequence and a repetition accept a non-empty string. *)
Lemma lang_Seq_cons (a b : re) (c : ascii) (s : string) :
  lang (Seq a b) (String c s) ->
  (exists s1 s2, s = s1 +:+ s2 /\ lang a (String c s1) /\ lang b s2)
  \/ (lang a EmptyString /\ lang b (String c s)).
Proof.
  intros H. remember (Seq a b) as r eqn:Er.
  remember (String c s) as w eqn:Ew.
  destruct H as [| |a' b' s1 s2 H1 H2| | | |]; try discriminate.
  injection Er as -> ->.
  destruct s1 as [|c1 s1]; app_simpl.
  - right. subst. auto.
  - left. injection Ew as E1 E2. subst. eauto.
Qed.

Lemma lang_Star_cons (a : re) (c : ascii) (s : string) :
  lang (Star a) (String c s) ->
  exists s1 s2, s = s1 +:+ s2 /\ lang a (String c s1) /\ lang (Star a) s2.
Proof.
  intros H. remember (Star a) as r eqn:Er. remember (String c s) as w eqn:Ew.
  revert c s Ew.
  induction H; intros c' s' Ew; try discriminate.
  injection Er as ->.
  destruct s as [|c1 s1]; app_simpl.
  - apply IHlang2; auto.
  - injection Ew as E1 E2. subst. eauto.
Qed.

Lemma pderiv_complete (r : re) : forall (c : ascii) (s : string),
  lang r (String c s) -> exists r', In r' (pderiv c r) /\ lang r' s.
Proof.
  induction r as [| |k|a IHa b IHb|a IHa b IHb|a IHa]; intros c s H; simpl.
  - inversion H.
  - inversion H.
  - inversion H; subst.
    match goal with E : class_mem _ _ = true |- _ => rewrite E end.
    exists Empty. split; [now left | constructor].
  - apply lang_Seq_cons in H as [(s1 & s2 & -> & Ha & Hb)|[Ha Hb]].
    + destruct (IHa _ _ Ha) as (a' & Hin & Hl).
      exists (seq a' b). split.
      * apply in_or_app. left. apply in_map_iff. eauto.
      * apply lang_seq. now constructor.
    + destruct (IHb _ _ Hb) as (b' & Hin & Hl).
      exists b'. split; [|assumption].
      apply in_or_app. right.
      now rewrite (lang_nullable _ _ Ha eq_refl).
  - inversion H; subst.
    + match goal with Ha : lang a _ |- _ =>
        destruct (IHa _ _ Ha) as (r' & Hin & Hl) end.
      exists r'. split; [apply in_or_app; now left | assumption].
    + match goal with Hb : lang b _ |- _ =>
        destruct (IHb _ _ Hb) as (r' & Hin & Hl) end.
      exists r'. split; [apply in_or_app; now right | assumption].
  - apply lang_Star_cons in H as (s1 & s2 & -> & Ha & Hs).
    destruct (IHa _ _ Ha) as (a' & Hin & Hl).
    exists (seq a' (Star a)). split.
    + apply in_map_iff. eauto.
    + apply lang_seq. now constructor.
Qed.

Lemma pderiv_sound (r : re) : forall (c : ascii) (s : string) (r' : re),
  In r' (pderiv c r) -> lang r' s -> lang r (String c s).
Proof.
  induction r as [| |k|a IHa b IHb|a IHa b IHb|a IHa];
    intros c s r' Hin Hl; simpl in Hin.
  - contradiction.
  - contradiction.
  - destruct (class_mem k c) eqn:E; [|contradiction].
    destruct Hin as [<-|[]]. inversion Hl; subst. now constructor.
  - apply in_app_or in Hin as [Hin|Hin].
    + apply in_map_iff in Hin as (a' & <- & Hin).
      apply lang_seq in Hl. inversion Hl; subst.
      apply (lang_Seq a b (String c s0) t); eauto.
    + destruct (nullable a) eqn:E; [|contradiction].
      apply (lang_Seq a b EmptyString (String c s)).
      * now apply nullable_lang.
      * eauto.
  - apply in_app_or in Hin as [Hin|Hin].
    + apply lang_AltL; eauto.
    + apply lang_AltR; eauto.
  - apply in_map_iff in Hin as (a' & <- & Hin).
    apply lang_seq in Hl. inversion Hl; subst.
    apply (lang_StarS a (String c s0) t); eauto.
Qed.

Lemma run_spec (s : string) : forall rs : list re,
  run rs s = true <-> exists r, In r rs /\ lang r s.
Proof.
  induction s as [|c s IH]; intros rs; simpl.
  - rewrite existsb_exists. split.
    + intros (r & Hin & Hn). exists r. split; [assumption|now apply nullable_lang].
    + intros (r & Hin & Hl). exists r. split; [assumption|].
      now apply (lang_nullable r EmptyString).
  - rewrite IH. unfold step. split.
    + intros (r' & Hin & Hl).
      rewrite <- list_elem_of_In, elem_of_remove_dups, list_elem_of_In in Hin.
      apply in_flat_map in Hin as (r & Hr & Hin).
      exists r. split; [assumption|]. eapply pderiv_sound; eauto.
    + intros (r & Hr & Hl).
      destruct (pderiv_complete _ _ _ Hl) as (r' & Hin & Hl').
      exists r'. split; [|assumption].
      rewrite <- list_elem_of_In, elem_of_remove_dups, list_elem_of_In.
      apply in_flat_map. eauto.
Qed.

(** [test] accepts exactly the language of the pattern. *)
Lemma test_spec (r : re) (s : string) : test r s = true <-> lang r s.
Proof.
  unfold test. rewrite run_spec. split.
  - intros (r' & [<-|[]] & H). exact H.
  - intros H. exists r. split; [now left | exact H].
Qed.

Lemma lang_word (s : string) :
  lang word s -> exists c, s = String c EmptyString /\ Str.is_word c = true.
Proof. intros H. inversion H; subst. eauto. Qed.

Lemma lang_dot (s : string) : lang dot s -> s = ".".
Proof.
  intros H. inversion H as [|k c Hc| | | | |]; subst. simpl in Hc.
  rewrite orb_false_r in Hc. now apply Ascii.eqb_eq in Hc as ->.
Qed.

(** What [\.\w{2,3}] accepts: a dot and two or three word characters. *)
Lemma lang_tld_group (g : string) :
  lang tld_group g ->
  exists w, g = String "." w /\ Str.all_word w = true
            /\ (2 <= String.length w <= 3)%nat.
Proof.
  unfold tld_group, Rep23, Opt. intros H.
  inversion H as [| |? ? s1 t1 Hd H1| | | |]; subst.
  apply lang_dot in Hd as ->.
  inversion H1 as [| |? ? s2 t2 Hw1 H2| | | |]; subst.
  apply lang_word in Hw1 as (c1 & -> & Hc1).
  inversion H2 as [| |? ? s3 t3 Hw2 H3| | | |]; subst.
  apply lang_word in Hw2 as (c2 & -> & Hc2).
  inversion H3 as [| | |? ? ? He|? ? ? Hw3| |]; subst.
  - inversion He; subst.
    exists (String c1 (String c2 EmptyString)). simpl.
    rewrite Hc1, Hc2. repeat split; lia.
  - apply lang_word in Hw3 as (c3 & -> & Hc3).
    exists (String c1 (String c2 (String c3 EmptyString))). simpl.
    rewrite Hc1, Hc2, Hc3. repeat split; lia.
Qed.

Lemma lang_star_tld_group (t : string) :
  lang (Star tld_group) t ->
  t = EmptyString
  \/ exists p w, t = p +:+ String "." w /\ Str.all_word w = true
                 /\ (2 <= String.length w <= 3)%nat.
Proof.
  intros H. remember (Star tld_group) as r eqn:Er.
  induction H as [| | | | | |a s t Hs _ Ht IH]; try discriminate.
  - now left.
  - injection Er as ->. right.
    destruct (IH eq_refl) as [->|(p & w & -> & Hw & Hl)].
    + apply lang_tld_group in Hs as (w & -> & Hw & Hl).
      exists EmptyString, w. rewrite append_empty_r. auto.
    + exists (s +:+ p), w. rewrite append_assoc. auto.
Qed.

Lemma is_word_not_dot (c : ascii) :
  Str.is_word c = true -> Ascii.eqb c "." = false.
Proof.
  destruct c as [[] [] [] [] [] [] [] []]; vm_compute; congruence.
Qed.

Lemma afterLastDot_all_word (w : string) :
  Str.all_word w = true -> Str.afterLastDot w = None.
Proof.
  induction w as [|c w IH]; simpl; [reflexivity|].
  intros [Hc Hw]%andb_true_iff.
  now rewrite (IH Hw), (is_word_not_dot c Hc).
Qed.

Lemma afterLastDot_app (p w : string) :
  Str.afterLastDot w = None ->
  Str.afterLastDot (p +:+ String "." w) = Some w.
Proof.
  intros Hw. induction p as [|c p IH]; app_simpl; simpl.
  - now rewrite Hw.
  - now rewrite IH.
Qed.

(** An address that the email pattern of the schema accepts ends in a
    dot and two or three word characters: its top-level domain has
    length 2 or 3. *)
Lemma email_pattern_tld (s : string) :
  test email_pattern s = true ->
  exists w, Str.afterLastDot s = Some w /\ Str.all_word w = true
            /\ (2 <= String.length w <= 3)%nat.
Proof.
  intros H. apply test_spec in H. unfold email_pattern in H.
  inversion H as [| |? ? s1 t1 _ H1| | | |]; subst.
  inversion H1 as [| |? ? s2 t2 _ H2| | | |]; subst.
  inversion H2 as [| |? ? s3 t3 _ H3| | | |]; subst.
  unfold Plus in H3.
  inversion H3 as [| |? ? g t Hg Ht| | | |]; subst.
  assert (exists p w, g +:+ t = p +:+ String "." w /\ Str.all_word w = true
                      /\ (2 <= String.length w <= 3)%nat)
    as (p & w & E & Hw & Hl).
  { apply lang_star_tld_group in Ht as [->|(p & w & -> & Hw & Hl)].
    - apply lang_tld_group in Hg as (w & -> & Hw & Hl).
      exists EmptyString, w. rewrite append_empty_r. auto.
    - exists (g +:+ p), w. rewrite append_assoc. auto. }
  exists w. split; [|auto].
  rewrite E, <- !append_assoc.
  apply afterLastDot_app, afterLastDot_all_word, Hw.
Qed.

End RegexFacts.

(* ================================================================== *)
(** * Properties of the validation chains *)

Module ValidatorFacts.
Import Validator.

Lemma run_on_body (path : string) (steps : list Step) (req : Request)
  (k : string) :
  body (run_on (path, steps) req) !! k
  = if decide (path = k) then fst (run_chain path steps (body req !! path))
    else body req !! k.
Proof.
  unfold run_on.
  destruct (run_chain path steps (body req !! path)) as [[s|] errs]; simpl.
  - rewrite lookup_insert. destruct (decide (path = k)); reflexivity.
  - rewrite lookup_delete. destruct (decide (path = k)); reflexivity.
Qed.

Lemma run_on_validation (path : string) (steps : list Step) (req : Request) :
  validation (run_on (path, steps) req)
  = (validation req ++ snd (run_chain path steps (body req !! path)))%list.
Proof.
  unfold run_on.
  now destruct (run_chain path steps (body req !! path)) as [[s|] errs].
Qed.

Lemma run_on_rest (c : Chain) (req : Request) :
  cookies (run_on c req) = cookies req /\ headers (run_on c req) = headers req
  /\ user (run_on c req) = user req.
Proof.
  destruct c as [path steps]. unfold run_on.
  now destruct (run_chain path steps (body req !! path)) as [[s|] errs].
Qed.

Lemma run_chain_fst (path : string) (steps : list Step) :
  forall v, fst (run_chain path steps v) = sanitized steps v.
Proof.
  induction steps as [|[f|ok msg] rest IH]; intros v; simpl.
  - reflexivity.
  - apply IH.
  - specialize (IH v). destruct (run_chain path rest v) as [v' errs].
    simpl in IH. now destruct (ok (toString v)).
Qed.

Lemma run_chain_snd (path : string) (steps : list Step) :
  forall v, snd (run_chain path steps v) = [] <-> passes steps v = true.
Proof.
  induction steps as [|[f|ok msg] rest IH]; intros v; simpl.
  - tauto.
  - apply IH.
  - specialize (IH v). destruct (run_chain path rest v) as [v' errs].
    simpl in IH. destruct (ok (toString v)); simpl.
    + exact IH.
    + split; discriminate.
Qed.

Lemma chain_of_None (k : string) (cs : list Chain) :
  ~ In k (map fst cs) -> chain_of k cs = None.
Proof.
  unfold chain_of. induction cs as [|c cs IH]; simpl; [reflexivity|].
  intros H. destruct (String.eqb (fst c) k) eqn:E.
  - apply String.eqb_eq in E. tauto.
  - apply IH. tauto.
Qed.

(** Chains on different fields do not interfere: each field ends as its
    own chain leaves it, and the errors are those of each chain on the
    field as it was sent. *)
Lemma run_all_spec (cs : list Chain) :
  NoDup (map fst cs) ->
  forall req,
    (forall k, body (run_all cs req) !! k
               = match chain_of k cs with
                 | Some c => sanitized (snd c) (body req !! k)
                 | None => body req !! k
                 end)
    /\ (validation (run_all cs req) = []
        <-> validation req = [] /\ accepts cs req = true)
    /\ cookies (run_all cs req) = cookies req
    /\ headers (run_all cs req) = headers req
    /\ user (run_all cs req) = user req.
Proof.
  induction cs as [|[path steps] cs IH]; intros Hnd req.
  - simpl. repeat split; tauto.
  - simpl in Hnd. apply NoDup_cons in Hnd as [Hnin Hnd].
    rewrite list_elem_of_In in Hnin.
    change (run_all ((path, steps) :: cs) req)
      with (run_all cs (run_on (path, steps) req)).
    destruct (IH Hnd (run_on (path, steps) req)) as (Hb & Hv & Hc & Hh & Hu).
    destruct (run_on_rest (path, steps) req) as (Hc' & Hh' & Hu').
    split; [|split; [|repeat split; congruence]].
    + intros k. rewrite Hb, run_on_body, run_chain_fst.
      unfold chain_of. simpl.
      destruct (decide (path = k)) as [->|Hne].
      * rewrite String.eqb_refl.
        fold (chain_of k cs). now rewrite chain_of_None.
      * apply String.eqb_neq in Hne. rewrite Hne. reflexivity.
    + assert (accepts cs (run_on (path, steps) req) = accepts cs req) as Ha.
      { unfold accepts. clear -Hnin.
        induction cs as [|c cs IH]; [reflexivity|].
        cbn [forallb]. rewrite run_on_body.
        destruct (decide (path = fst c)) as [->|Hne];
          [exfalso; apply Hnin; now left|].
        f_equal. apply IH. intros H. apply Hnin. now right. }
      rewrite Hv, run_on_validation, Ha.
      change (accepts ((path, steps) :: cs) req)
        with (passes steps (body req !! path) && accepts cs req).
      rewrite andb_true_iff, <- (run_chain_snd path).
      split.
      * intros [H1 H2]. destruct (app_eq_nil _ _ H1) as [H3 H4].
        repeat split; assumption.
      * intros (H1 & H2 & H3). rewrite H1, H2. split; [reflexivity|assumption].
Qed.

Lemma registerValidation_paths (lib : Library) :
  NoDup (map fst (registerValidation lib)).
Proof.
  simpl. repeat (apply NoDup_cons; split); try apply NoDup_nil_2.
  all: rewrite list_elem_of_In; simpl; intuition discriminate.
Qed.

Lemma loginValidation_paths (lib : Library) :
  NoDup (map fst (loginValidation lib)).
Proof.
  simpl. repeat (apply NoDup_cons; split); try apply NoDup_nil_2.
  all: rewrite list_elem_of_In; simpl; intuition discriminate.
Qed.

(** The body of a register request after its validators. *)
Lemma registerValidation_body (lib : Library) (req : Request) :
  let req' := run_all (registerValidation lib) req in
  body req' !! "name" = Some (Str.trim (toString (body req !! "name")))
  /\ body req' !! "email"
     = normalizeEmail lib (Str.trim (toString (body req !! "email")))
  /\ body req' !! "password" = body req !! "password"
  /\ body req' !! "confirmPassword" = body req !! "confirmPassword".
Proof.
  destruct (run_all_spec _ (registerValidation_paths lib) req) as (Hb & _).
  cbv zeta.
  rewrite (Hb "name"), (Hb "email"), (Hb "password"), (Hb "confirmPassword").
  repeat split; reflexivity.
Qed.

Lemma loginValidation_body (lib : Library) (req : Request) :
  let req' := run_all (loginValidation lib) req in
  body req' !! "email"
  = normalizeEmail lib (Str.trim (toString (body req !! "email")))
  /\ body req' !! "password" = body req !! "password".
Proof.
  destruct (run_all_spec _ (loginValidation_paths lib) req) as (Hb & _).
  cbv zeta. rewrite (Hb "email"), (Hb "password").
  repeat split; reflexivity.
Qed.

End ValidatorFacts.

(* ================================================================== *)
(** * Properties of the model and of the handlers *)

Module ModelFacts.
Import User.

Lemma validate_nil (d : Document) :
  validate d = [] ->
  exists n e p, d_name d = Some n /\ d_email d = Some e
                /\ d_password d = Some p.
Proof.
  unfold validate. intros H.
  apply app_eq_nil in H as [H1 H]. apply app_eq_nil in H as [H2 H3].
  destruct (d_name d) as [n|]; [|discriminate H1].
  destruct (d_email d) as [e|]; [|discriminate H2].
  destruct (d_password d) as [p|]; [|discriminate H3].
  now exists n, e, p.
Qed.

Lemma isModified_password_new (env : Env) (n e p : option string) :
  isModified "password"
    (construct env {| in_name := n; in_email := e; in_password := p |})
  = match p with Some _ => true | None => false end.
Proof. destruct n, e, p; reflexivity. Qed.

Lemma create_invalid (lib : Library) (env : Env) (i : Input) (st : Store)
  (err : string * string) (errs : list (string * string)) :
  validate (construct env i) = err :: errs ->
  create lib env i st = (inl (ValidationError (err :: errs)), st).
Proof. intros V. unfold create, save. cbv zeta. rewrite V. reflexivity. Qed.

Lemma create_valid (lib : Library) (env : Env) (n e p : string) (st : Store) :
  validate (construct env {| in_name := Some n; in_email := Some e;
                             in_password := Some p |}) = [] ->
  create lib env {| in_name := Some n; in_email := Some e;
                    in_password := Some p |} st
  = if index_conflict (Spec.new_record lib env n e p) st
    then (inl DuplicateKey, st)
    else (inr (hydrate true (Spec.new_record lib env n e p)),
          (st ++ [Spec.new_record lib env n e p])%list).
Proof.
  intros V. unfold create, save. cbv zeta. rewrite V.
  unfold Exc.bind, pre_save, insertOne; simpl.
  unfold Exc.bind, Exc.get, Exc.put, Exc.ret, Exc.throw; simpl.
  unfold Spec.new_record.
  now destruct (index_conflict _ st).
Qed.

(** What [User.create] does: it throws and leaves the collection as it
    was, or it appends the new document. *)
Lemma create_cases (lib : Library) (env : Env) (i : Input) (st : Store) :
  (exists err, create lib env i st = (inl err, st))
  \/ (exists n e p,
        in_name i = Some n /\ in_email i = Some e /\ in_password i = Some p
        /\ validate (construct env i) = []
        /\ index_conflict (Spec.new_record lib env n e p) st = false
        /\ create lib env i st
           = (inr (hydrate true (Spec.new_record lib env n e p)),
              (st ++ [Spec.new_record lib env n e p])%list)).
Proof.
  destruct (validate (construct env i)) as [|err errs] eqn:V;
    [|left; eexists; exact (create_invalid lib env i st err errs V)].
  destruct (validate_nil _ V) as (n & e & p & Hn & He & Hp).
  destruct i as [[n'|] [e'|] [p'|]]; simpl in Hn, He, Hp; try discriminate.
  rewrite (create_valid lib env n' e' p' st V).
  destruct (index_conflict (Spec.new_record lib env n' e' p') st) eqn:C;
    [left; eauto|].
  right. exists n', e', p'. auto 10.
Qed.

Lemma create_err_store (lib : Library) (env : Env) (i : Input)
  (st st' : Store) (err : Error) :
  create lib env i st = (inl err, st') -> st' = st.
Proof.
  destruct (create_cases lib env i st)
    as [(err' & E)|(n & e & p & _ & _ & _ & _ & _ & E)];
    rewrite E; congruence.
Qed.


Lemma updateOne_ext (id : string) (f g : Stored -> Stored) (st : Store) :
  (forall r, f r = g r) -> updateOne id f st = updateOne id g st.
Proof.
  intros H. induction st as [|r st IH]; simpl; [reflexivity|].
  now rewrite H, IH.
Qed.

Lemma updateOne_In (f : Stored -> Stored) (r : Stored) (st : Store) :
  In r st -> exists st', updateOne (_id r) f st = Some st'.
Proof.
  induction st as [|r0 st IH]; simpl; [contradiction|].
  intros [->|Hin].
  - rewrite String.eqb_refl. eauto.
  - destruct (String.eqb (_id r0) (_id r)); [eauto|].
    destruct (IH Hin) as (st' & ->). simpl. eauto.
Qed.

(** [updateOne] rewrites one document and keeps the others, in place. *)
Lemma updateOne_Forall2 (R : Stored -> Stored -> Prop) (id : string)
  (f : Stored -> Stored) :
  (forall r, R r r) -> (forall r, R r (f r)) ->
  forall st st', updateOne id f st = Some st' -> Forall2 R st st'.
Proof.
  intros Hrefl Hf. induction st as [|r st IH]; simpl; intros st' H.
  - discriminate.
  - destruct (String.eqb (_id r) id).
    + injection H as <-. constructor; [apply Hf|].
      clear IH. induction st; constructor; auto.
    + destruct (updateOne id f st) as [st1|]; [|discriminate].
      injection H as <-. constructor; auto.
Qed.

Lemma findOne_email_In (e : string) (st : Store) (r : Stored) :
  findOne_email e st = Some r -> In r st /\ email r = e.
Proof.
  unfold findOne_email. intros H. apply find_some in H as [Hin He].
  apply String.eqb_eq in He. auto.
Qed.

Lemma findById_In (id : string) (st : Store) (r : Stored) :
  findById id st = Some r -> In r st /\ _id r = id.
Proof.
  unfold findById. intros H. apply find_some in H as [Hin He].
  apply String.eqb_eq in He. auto.
Qed.

End ModelFacts.

Module HandlerFacts.
Import User AuthController ModelFacts.

Ltac unchanged :=
  left; split; [reflexivity | unfold Spec.error_status; simpl; lia].

(** How [register] and [login] end: with the session reply, when the
    token is signed and the cookie is set, or with the reply of the
    [catch]. *)
Lemma session_outcome_cases (lib : Library) (cfg : Config) (env : Env)
  (code : Z) (message on_error : string) (d : Document) :
  (exists token cookie,
      generateAuthToken lib cfg env d = inr token
      /\ sessionCookie lib cfg env token = inr cookie
      /\ Spec.session_outcome lib cfg env code message on_error d
         = session_reply code message token cookie d)
  \/ (exists e,
        (generateAuthToken lib cfg env d = inl e
         \/ exists token, generateAuthToken lib cfg env d = inr token
                          /\ sessionCookie lib cfg env token = inl e)
        /\ Spec.session_outcome lib cfg env code message on_error d
           = server_error cfg on_error e).
Proof.
  unfold Spec.session_outcome, session_response.
  destruct (generateAuthToken lib cfg env d) as [e|token].
  - right. exists e. split; [now left | reflexivity].
  - destruct (sessionCookie lib cfg env token) as [e|cookie] eqn:C.
    + right. exists e. split; [right; exists token; auto | reflexivity].
    + left. exists token, cookie. auto.
Qed.

(** The session reply, when the token is signed and the date of the
    cookie exists. *)
Lemma session_outcome_ok (lib : Library) (cfg : Config) (env : Env)
  (code : Z) (message on_error token : string) (t : Z) (d : Document) :
  generateAuthToken lib cfg env d = inr token ->
  cookieDate lib cfg env = Some t ->
  Spec.session_outcome lib cfg env code message on_error d
  = session_reply code message token
      {| cookie_name := "token";
         cookie_value := token;
         expires := t;
         httpOnly := true;
         secure := bool_decide (NODE_ENV cfg = Some "production");
         sameSite := Some "strict" |} d.
Proof.
  intros Ht Hd. unfold Spec.session_outcome, session_response, sessionCookie.
  now rewrite Ht, Hd.
Qed.

(** The reply of the [catch], when signing the token throws. *)
Lemma session_outcome_sign_error (lib : Library) (cfg : Config) (env : Env)
  (code : Z) (message on_error : string) (e : Error) (d : Document) :
  generateAuthToken lib cfg env d = inl e ->
  Spec.session_outcome lib cfg env code message on_error d
  = server_error cfg on_error e.
Proof.
  intros Ht. unfold Spec.session_outcome, session_response. now rewrite Ht.
Qed.

(** The reply of the [catch], when setting the cookie throws. *)
Lemma session_outcome_cookie_error (lib : Library) (cfg : Config)
  (env : Env) (code : Z) (message on_error token : string) (d : Document) :
  generateAuthToken lib cfg env d = inr token ->
  cookieDate lib cfg env = None ->
  Spec.session_outcome lib cfg env code message on_error d
  = server_error cfg on_error InvalidExpires.
Proof.
  intros Ht Hd. unfold Spec.session_outcome, session_response, sessionCookie.
  now rewrite Ht, Hd.
Qed.

Lemma session_outcome_reply (lib : Library) (cfg : Config) (env : Env)
  (code : Z) (message on_error : string) (d : Document) :
  Spec.success_status code ->
  Spec.reply lib cfg env
    (Spec.session_outcome lib cfg env code message on_error d).
Proof.
  intros Hc.
  destruct (session_outcome_cases lib cfg env code message on_error d)
    as [(t & c & Ht & Hk & ->)|(e & _ & ->)]; now constructor.
Qed.

Lemma session_outcome_status (lib : Library) (cfg : Config) (env : Env)
  (code : Z) (message on_error : string) (d : Document) :
  status (Spec.session_outcome lib cfg env code message on_error d) = code
  \/ status (Spec.session_outcome lib cfg env code message on_error d) = 500.
Proof.
  destruct (session_outcome_cases lib cfg env code message on_error d)
    as [(t & c & _ & _ & ->)|(e & _ & ->)]; [now left | now right].
Qed.

(** A cookie that is set carries the token, expires at the date of
    [cookieDate] and has the options of the session cookie. *)
Lemma sessionCookie_inr (lib : Library) (cfg : Config) (env : Env)
  (token : string) (cookie : Cookie) :
  sessionCookie lib cfg env token = inr cookie ->
  exists t, cookieDate lib cfg env = Some t
            /\ cookie = {| cookie_name := "token";
                           cookie_value := token;
                           expires := t;
                           httpOnly := true;
                           secure := bool_decide
                                       (NODE_ENV cfg = Some "production");
                           sameSite := Some "strict" |}.
Proof.
  unfold sessionCookie. destruct (cookieDate lib cfg env) as [t|];
    [|discriminate]. intros [= <-]. eauto.
Qed.

(** [register] leaves the collection as it was, or it has appended the
    new document, which has passed the validation of the schema; then
    it answers 201, or 500 when signing the token or setting the cookie
    throws. *)
Lemma register_outcomes (lib : Library) (cfg : Config) (env : Env)
  (req : Request) (st : Store) :
  (snd (register lib cfg env req st) = st
   /\ (status (fst (register lib cfg env req st)) = 400
       \/ status (fst (register lib cfg env req st)) = 500))
  \/ (exists n e p,
        validation req = []
        /\ body req !! "name" = Some n
        /\ body req !! "email" = Some e
        /\ body req !! "password" = Some p
        /\ body req !! "confirmPassword" = Some p
        /\ findOne_email (Str.toLowerCase e) st = None
        /\ validate (construct env {| in_name := Some n;
                                      in_email := Some (Str.toLowerCase e);
                                      in_password := Some p |}) = []
        /\ index_conflict
             (Spec.new_record lib env n (Str.toLowerCase e) p) st = false
        /\ register lib cfg env req st
           = (Spec.session_outcome lib cfg env 201 "Registration successful"
                "Server error during registration"
                (hydrate true
                   (Spec.new_record lib env n (Str.toLowerCase e) p)),
              (st ++ [Spec.new_record lib env n (Str.toLowerCase e) p])%list)).
Proof.
  remember (register lib cfg env req st) as res eqn:E.
  unfold register, Exc.try_catch, register_try in E.
  destruct (validation req) as [|fe fes]; [|subst res; left; auto].
  destruct (bool_decide (body req !! "password" = body req !! "confirmPassword"))
    eqn:Epw; simpl in E; [|subst res; left; auto].
  apply bool_decide_eq_true in Epw.
  destruct (body req !! "email") as [e|] eqn:Ee; simpl in E;
    [|subst res; left; auto].
  unfold Exc.bind at 1 in E. simpl in E. unfold Exc.bind at 1 in E. simpl in E.
  destruct (findOne_email (Str.toLowerCase e) st) eqn:Ef; simpl in E;
    [subst res; left; auto|].
  unfold Exc.bind in E.
  destruct (create_cases lib env
              {| in_name := body req !! "name";
                 in_email := Some (Str.toLowerCase e);
                 in_password := body req !! "password" |} st)
    as [(err & Hc)|(n & e' & p & Hn & He & Hp & Hv & Hc & Hr)].
  - rewrite Hc in E. subst res. left. auto.
  - rewrite Hr in E. simpl in Hn, He, Hp. injection He as <-.
    right. exists n, e, p. rewrite <- Epw.
    rewrite Hn, Hp in Hv.
    do 8 (split; [reflexivity || assumption|]).
    subst res. unfold Spec.session_outcome, Exc.lift.
    now destruct (session_response lib cfg env 201 _ _).
Qed.

Lemma register_cases (lib : Library) (cfg : Config) (env : Env)
  (req : Request) (st : Store) :
  (snd (register lib cfg env req st) = st
   /\ Spec.error_status (status (fst (register lib cfg env req st))))
  \/ (exists n e p,
        validation req = []
        /\ body req !! "name" = Some n
        /\ body req !! "email" = Some e
        /\ body req !! "password" = Some p
        /\ body req !! "confirmPassword" = Some p
        /\ findOne_email (Str.toLowerCase e) st = None
        /\ index_conflict
             (Spec.new_record lib env n (Str.toLowerCase e) p) st = false
        /\ register lib cfg env req st
           = (Spec.session_outcome lib cfg env 201 "Registration successful"
                "Server error during registration"
                (hydrate true
                   (Spec.new_record lib env n (Str.toLowerCase e) p)),
              (st ++ [Spec.new_record lib env n (Str.toLowerCase e) p])%list)).
Proof.
  destruct (register_outcomes lib cfg env req st)
    as [[H1 H2]|(n & e & p & H1 & H2 & H3 & H4 & H5 & H6 & _ & H7 & H8)].
  - left. split; [exact H1|]. unfold Spec.error_status. lia.
  - right. exists n, e, p. auto 10.
Qed.

Ltac unchanged200 := unchanged.

(** [login] leaves the collection as it was, unless the password is
    right; then the document of the user carries the new [lastLogin]
    and [updatedAt] (or was already at this clock reading), and the
    answer is 200, or 500 when signing the token or setting the cookie
    throws. *)
Lemma login_cases (lib : Library) (cfg : Config) (env : Env)
  (req : Request) (st : Store) :
  (snd (login lib cfg env req st) = st
   /\ Spec.error_status (status (fst (login lib cfg env req st))))
  \/ (exists e p r r' st',
        validation req = []
        /\ body req !! "email" = Some e
        /\ body req !! "password" = Some p
        /\ findOne_email (Str.toLowerCase e) st = Some r
        /\ bcrypt_compare lib p (password r) = true
        /\ ((lastLogin r = Some (now_lastLogin env) /\ r' = r /\ st' = st)
            \/ (lastLogin r <> Some (now_lastLogin env)
                /\ r' = Spec.touch env r
                /\ updateOne (_id r) (Spec.touch env) st = Some st'))
        /\ login lib cfg env req st
           = (Spec.session_outcome lib cfg env 200 "Login successful"
                "Server error during login" (hydrate true r'), st')).
Proof.
  remember (login lib cfg env req st) as res eqn:E.
  unfold login, Exc.try_catch, login_try in E.
  destruct (validation req) as [|fe fes]; [|subst res; unchanged200].
  destruct (body req !! "email") as [e|] eqn:Ee; simpl in E;
    [|subst res; unchanged200].
  unfold Exc.bind at 1 in E. simpl in E. unfold Exc.bind at 1 in E. simpl in E.
  destruct (findOne_email (Str.toLowerCase e) st) as [r|] eqn:Ef; simpl in E;
    [|subst res; unchanged200].
  destruct (body req !! "password") as [p|] eqn:Ep;
    [|unfold Exc.bind in E; simpl in E; subst res; unchanged200].
  unfold Exc.bind at 1 in E. simpl in E.
  destruct (bcrypt_compare lib p (password r)) eqn:Ec; simpl in E;
    [|subst res; unchanged200].
  right. unfold with_lastLogin in E. simpl in E.
  destruct (bool_decide (lastLogin r = Some (now_lastLogin env))) eqn:Ell.
  - apply bool_decide_eq_true in Ell.
    exists e, p, r, r, st.
    do 5 (split; [reflexivity || assumption|]).
    split; [left; auto|].
    subst res. unfold Exc.bind, save. simpl.
    unfold Spec.session_outcome, Exc.lift.
    now destruct (session_response lib cfg env 200 _ _).
  - apply bool_decide_eq_false in Ell.
    destruct (findOne_email_In _ _ _ Ef) as [Hin _].
    destruct (updateOne_In (Spec.touch env) r st Hin) as (st' & Hu).
    exists e, p, r, (Spec.touch env r), st'.
    do 5 (split; [reflexivity || assumption|]).
    split; [right; auto|].
    subst res. unfold Exc.bind, save. simpl.
    unfold Exc.bind, Exc.get, Exc.put, Exc.ret. simpl.
    rewrite (updateOne_ext _ _ (Spec.touch env)) by reflexivity.
    rewrite Hu. unfold Spec.session_outcome, Exc.lift.
    now destruct (session_response lib cfg env 200 _ _).
Qed.

(** ** Handlers that do not write *)

Lemma getProfile_store (cfg : Config) (req : Request) (st : Store) :
  snd (getProfile cfg req st) = st.
Proof.
  unfold getProfile, Exc.try_catch, getProfile_try.
  destruct (user req) as [u|]; [|reflexivity].
  unfold Exc.bind, Exc.get. simpl.
  destruct (findById (ru_id u) st); reflexivity.
Qed.

Lemma protected_store (lib : Library) (cfg : Config) (env : Env)
  (h : Routes.Handler) (req : Request) (st : Store) :
  (forall req' st', snd (h req' st') = st') ->
  snd (Routes.protected lib cfg env h req st) = st.
Proof.
  intros Hh. unfold Routes.protected.
  destruct (AuthMiddleware.protect lib cfg env req st); [reflexivity|apply Hh].
Qed.

(** ** The invariant of the collection *)

Lemma new_record_normal (lib : Library) (env : Env) (n e p : string) :
  Spec.normal_email (Spec.new_record lib env n e p).
Proof.
  unfold Spec.normal_email, Spec.new_record, set_email. simpl. split.
  - now rewrite StrFacts.toLowerCase_trim, StrFacts.toLowerCase_idem.
  - apply StrFacts.trim_idem.
Qed.

Lemma index_conflict_false (r : Stored) (st : Store) :
  index_conflict r st = false ->
  (_id r ∉ map _id st) /\ (email r ∉ map email st).
Proof.
  unfold index_conflict.
  induction st as [|a st IH]; simpl; intros H.
  - split; apply not_elem_of_nil.
  - apply orb_false_iff in H as [H1 H2].
    apply orb_false_iff in H1 as [Hi He].
    apply String.eqb_neq in Hi, He.
    destruct (IH H2) as [IH1 IH2].
    split; apply not_elem_of_cons; split; congruence.
Qed.

Lemma invariant_snoc (lib : Library) (env : Env) (n e p : string)
  (st : Store) :
  Spec.invariant st ->
  index_conflict (Spec.new_record lib env n e p) st = false ->
  Spec.invariant (st ++ [Spec.new_record lib env n e p])%list.
Proof.
  intros (Hn & Hd & He & Hi) Hc.
  apply index_conflict_false in Hc as [Hid Hem].
  unfold Spec.invariant. rewrite !map_app. simpl.
  repeat split.
  - apply Forall_app. split; [assumption|].
    constructor; [apply new_record_normal|constructor].
  - apply Forall_app. split; [assumption|].
    constructor; [|constructor]. unfold Spec.dated; simpl. eauto.
  - apply NoDup_app. split; [assumption|]. split; [|apply NoDup_singleton].
    intros x Hx Hx'. apply list_elem_of_singleton in Hx'. now subst.
  - apply NoDup_app. split; [assumption|]. split; [|apply NoDup_singleton].
    intros x Hx Hx'. apply list_elem_of_singleton in Hx'. now subst.
Qed.

Lemma kept_or_touched_map {A : Type} (env : Env) (f : Stored -> A)
  (st st' : Store) :
  (forall r, f (Spec.touch env r) = f r) ->
  Forall2 (Spec.kept_or_touched env) st st' -> map f st' = map f st.
Proof.
  intros Hf H. induction H as [|a b st st' [->| ->] _ IH]; simpl;
    [reflexivity| |]; rewrite ?Hf; now f_equal.
Qed.

Lemma kept_or_touched_Forall (env : Env) (P : Stored -> Prop)
  (st st' : Store) :
  (forall r, P r -> P (Spec.touch env r)) ->
  Forall2 (Spec.kept_or_touched env) st st' -> Forall P st -> Forall P st'.
Proof.
  intros HP H. induction H as [|a b st st' [->| ->] _ IH];
    intros Hall; [constructor| |];
    apply Forall_cons in Hall as [Ha Hall]; constructor; auto.
Qed.

Lemma invariant_touched (env : Env) (st st' : Store) :
  Forall2 (Spec.kept_or_touched env) st st' ->
  Spec.invariant st -> Spec.invariant st'.
Proof.
  intros H (Hn & Hd & He & Hi). unfold Spec.invariant.
  rewrite (kept_or_touched_map env email st st') by (assumption || reflexivity).
  rewrite (kept_or_touched_map env _id st st') by (assumption || reflexivity).
  repeat split; try assumption.
  - apply (kept_or_touched_Forall env _ st st'); auto.
  - apply (kept_or_touched_Forall env _ st st'); auto.
    intros r (Hc & _ & _). unfold Spec.dated; simpl. eauto.
Qed.

Lemma kept_refl (env : Env) (st : Store) :
  Forall2 (Spec.kept_or_touched env) st st.
Proof. induction st; constructor; [now left | assumption]. Qed.

(** A login rewrites at most one document, and only its [lastLogin]
    and [updatedAt]. *)
Lemma login_touches (lib : Library) (cfg : Config) (env : Env)
  (req : Request) (st : Store) :
  Forall2 (Spec.kept_or_touched env) st (snd (login lib cfg env req st)).
Proof.
  destruct (login_cases lib cfg env req st)
    as [[-> _]|(e & p & r & r' & st' & _ & _ & _ & _ & _ & Hst & ->)].
  - apply kept_refl.
  - simpl. destruct Hst as [(_ & _ & ->)|(_ & _ & Hu)]; [apply kept_refl|].
    eapply updateOne_Forall2; [| |exact Hu].
    + now left.
    + now right.
Qed.

Lemma register_invariant (lib : Library) (cfg : Config) (env : Env)
  (req : Request) (st : Store) :
  Spec.invariant st -> Spec.invariant (snd (register lib cfg env req st)).
Proof.
  intros Hinv.
  destruct (register_cases lib cfg env req st)
    as [[-> _]|(n & e & p & _ & _ & _ & _ & _ & _ & Hc & ->)];
    [assumption|].
  simpl. now apply invariant_snoc.
Qed.

(** Every collection the service reaches satisfies the invariant. *)
Lemma reachable_invariant (lib : Library) (cfg : Config) (st : Store) :
  Spec.reachable lib cfg st -> Spec.invariant st.
Proof.
  induction 1 as [|env req st _ IH|env req st _ IH|env req st _ IH
                  |env req st _ IH|env req st _ IH].
  - repeat split; constructor.
  - now apply register_invariant.
  - eapply invariant_touched; [apply login_touches | exact IH].
  - unfold Routes.GET_profile.
    rewrite protected_store; [assumption|apply getProfile_store].
  - unfold Routes.POST_logout.
    rewrite protected_store; [assumption|reflexivity].
  - unfold Routes.GET_verify.
    rewrite protected_store; [assumption|reflexivity].
Qed.

Lemma invariant_unique_ci (st : Store) :
  Spec.invariant st -> Spec.emails_unique_ci st.
Proof.
  intros (Hn & _ & He & _). unfold Spec.emails_unique_ci.
  replace (map (fun r => Str.toLowerCase (email r)) st) with (map email st);
    [assumption|].
  clear He. induction Hn as [|r st [Hr _] _ IH]; simpl; [reflexivity|].
  now rewrite Hr, IH.
Qed.

End HandlerFacts.


(* ================================================================== *)
(** * The handlers, branch by branch *)

Module HandlerEquations.
Import User AuthController ModelFacts HandlerFacts.

Lemma required_ok (m s : string) :
  s <> EmptyString -> required m (Some s) = None.
Proof. destruct s; [congruence | reflexivity]. Qed.

Lemma minlength_ok (k : nat) (m s : string) :
  (k <= Str.length s)%nat -> minlength k m (Some s) = None.
Proof. intros H. unfold minlength. apply Nat.leb_le in H. now rewrite H. Qed.

Lemma maxlength_ok (k : nat) (m s : string) :
  (Str.length s <= k)%nat -> maxlength k m (Some s) = None.
Proof. intros H. unfold maxlength. apply Nat.leb_le in H. now rewrite H. Qed.

Lemma match_ok (r : Regex.re) (m s : string) :
  Regex.test r s = true -> match_ r m (Some s) = None.
Proof. intros H. unfold match_. destruct s; [reflexivity | now rewrite H]. Qed.

Lemma length_pos_nonempty (s : string) :
  (1 <= String.length s)%nat -> s <> EmptyString.
Proof. destruct s; simpl; [lia | discriminate]. Qed.

Lemma validate_ok (env : Env) (n e p : string) :
  (2 <= Str.length (set_name n) <= 50)%nat ->
  Regex.test Regex.email_pattern (set_email e) = true ->
  (6 <= Str.length p)%nat ->
  validate (construct env {| in_name := Some n; in_email := Some e;
                             in_password := Some p |}) = [].
Proof.
  intros [Hn1 Hn2] He Hp. unfold validate, construct.
  cbn [d_name d_email d_password in_name in_email in_password].
  change (set_name <$> Some n) with (Some (set_name n)).
  change (set_email <$> Some e) with (Some (set_email e)).
  rewrite !required_ok, !minlength_ok, maxlength_ok, match_ok;
    try assumption; try reflexivity.
  - apply StrFacts.length_units_nonempty. lia.
  - intros E. rewrite E in He. discriminate He.
  - apply StrFacts.length_units_nonempty. lia.
Qed.

Ltac exc_step :=
  cbv beta iota zeta delta
    [Exc.bind Exc.get Exc.ret Exc.put Exc.throw Exc.try_catch
     negb toLowerCase fst snd].

(** The early returns of [register]. *)
Lemma register_invalid (lib : Library) (cfg : Config) (env : Env)
  (req : Request) (st : Store) (fe : FieldError) (fes : list FieldError) :
  validation req = fe :: fes ->
  register lib cfg env req st = (validation_failed (fe :: fes), st).
Proof. intros Hv. unfold register, register_try. now rewrite Hv. Qed.

Lemma register_passwords_differ (lib : Library) (cfg : Config) (env : Env)
  (req : Request) (st : Store) :
  validation req = [] ->
  body req !! "password" <> body req !! "confirmPassword" ->
  register lib cfg env req st = (failure 400 "Passwords do not match", st).
Proof.
  intros Hv Hne. unfold register, register_try.
  rewrite Hv, bool_decide_eq_false_2 by assumption. reflexivity.
Qed.

Lemma register_taken (lib : Library) (cfg : Config) (env : Env)
  (req : Request) (st : Store) (e : string) (r : Stored) :
  validation req = [] ->
  body req !! "password" = body req !! "confirmPassword" ->
  body req !! "email" = Some e ->
  findOne_email (Str.toLowerCase e) st = Some r ->
  register lib cfg env req st
  = (failure 400
       "Email already registered. Please use a different email or login.",
     st).
Proof.
  intros Hv Hpw He Hf. unfold register, register_try.
  rewrite Hv, He, bool_decide_eq_true_2 by assumption.
  exc_step. now rewrite Hf.
Qed.

Lemma register_invalid_document (lib : Library) (cfg : Config) (env : Env)
  (req : Request) (st : Store) (e : string)
  (err : string * string) (errs : list (string * string)) :
  validation req = [] ->
  body req !! "password" = body req !! "confirmPassword" ->
  body req !! "email" = Some e ->
  findOne_email (Str.toLowerCase e) st = None ->
  validate (construct env {| in_name := body req !! "name";
                             in_email := Some (Str.toLowerCase e);
                             in_password := body req !! "password" |})
    = err :: errs ->
  register lib cfg env req st
  = (server_error cfg "Server error during registration"
       (ValidationError (err :: errs)), st).
Proof.
  intros Hv Hpw He Hf Hval. unfold register, register_try.
  rewrite Hv, He, bool_decide_eq_true_2 by assumption.
  exc_step. rewrite Hf.
  now rewrite (create_invalid lib env _ st err errs Hval).
Qed.

(** The early returns of [login]. *)
Lemma login_invalid (lib : Library) (cfg : Config) (env : Env)
  (req : Request) (st : Store) (fe : FieldError) (fes : list FieldError) :
  validation req = fe :: fes ->
  login lib cfg env req st = (validation_failed (fe :: fes), st).
Proof. intros Hv. unfold login, login_try. now rewrite Hv. Qed.

Lemma login_unknown_email (lib : Library) (cfg : Config) (env : Env)
  (req : Request) (st : Store) (e : string) :
  validation req = [] ->
  body req !! "email" = Some e ->
  findOne_email (Str.toLowerCase e) st = None ->
  login lib cfg env req st = (failure 401 "Invalid email or password", st).
Proof.
  intros Hv He Hf. unfold login, login_try. rewrite Hv, He.
  exc_step. now rewrite Hf.
Qed.

Lemma login_bad_password (lib : Library) (cfg : Config) (env : Env)
  (req : Request) (st : Store) (e p : string) (r : Stored) :
  validation req = [] ->
  body req !! "email" = Some e ->
  body req !! "password" = Some p ->
  findOne_email (Str.toLowerCase e) st = Some r ->
  bcrypt_compare lib p (password r) = false ->
  login lib cfg env req st = (failure 401 "Invalid email or password", st).
Proof.
  intros Hv He Hp Hf Hc. unfold login, login_try. rewrite Hv, He, Hp.
  exc_step. rewrite Hf. unfold comparePassword, hydrate.
  cbn [d_password]. exc_step. now rewrite Hc.
Qed.

(** The [register] handler on a validated request for a free email. *)
Lemma register_ok (lib : Library) (cfg : Config) (env : Env)
  (req : Request) (st : Store) (n e p : string) :
  validation req = [] ->
  body req !! "name" = Some n ->
  body req !! "email" = Some e ->
  body req !! "password" = Some p ->
  body req !! "confirmPassword" = Some p ->
  findOne_email (Str.toLowerCase e) st = None ->
  validate (construct env {| in_name := Some n;
                             in_email := Some (Str.toLowerCase e);
                             in_password := Some p |}) = [] ->
  register lib cfg env req st
  = if index_conflict (Spec.new_record lib env n (Str.toLowerCase e) p) st
    then (server_error cfg "Server error during registration" DuplicateKey,
          st)
    else (Spec.session_outcome lib cfg env 201 "Registration successful"
            "Server error during registration"
            (hydrate true (Spec.new_record lib env n (Str.toLowerCase e) p)),
          (st ++ [Spec.new_record lib env n (Str.toLowerCase e) p])%list).
Proof.
  intros Hv Hn He Hp Hc Hf Hval.
  unfold register, register_try.
  rewrite Hv, Hn, He, Hp, Hc, bool_decide_eq_true_2 by reflexivity.
  exc_step. rewrite Hf.
  rewrite (create_valid lib env n (Str.toLowerCase e) p st Hval).
  destruct (index_conflict _ st); [reflexivity|].
  unfold Spec.session_outcome, Exc.lift.
  now destruct (session_response lib cfg env 201 _ _).
Qed.

(** The [login] handler on a validated request with the right
    password. *)
Lemma login_ok (lib : Library) (cfg : Config) (env : Env)
  (req : Request) (st : Store) (e p : string) (r : Stored) :
  validation req = [] ->
  body req !! "email" = Some e ->
  body req !! "password" = Some p ->
  findOne_email (Str.toLowerCase e) st = Some r ->
  bcrypt_compare lib p (password r) = true ->
  login lib cfg env req st
  = if bool_decide (lastLogin r = Some (now_lastLogin env))
    then (Spec.session_outcome lib cfg env 200 "Login successful"
            "Server error during login" (hydrate true r), st)
    else match updateOne (_id r) (Spec.touch env) st with
         | Some st' =>
             (Spec.session_outcome lib cfg env 200 "Login successful"
                "Server error during login"
                (hydrate true (Spec.touch env r)), st')
         | None =>
             (server_error cfg "Server error during login" DocumentNotFound,
              st)
         end.
Proof.
  intros Hv He Hp Hf Hc.
  unfold login, login_try.
  rewrite Hv, He, Hp. exc_step. rewrite Hf.
  unfold comparePassword, hydrate. cbn [d_password]. exc_step.
  rewrite Hc. unfold with_lastLogin. cbn [d_lastLogin].
  destruct (bool_decide (lastLogin r = Some (now_lastLogin env))).
  - unfold save. simpl. exc_step.
    unfold Spec.session_outcome, Exc.lift.
    now destruct (session_response lib cfg env 200 _ _).
  - unfold save, pre_save, timestamps. simpl. exc_step. simpl.
    rewrite (updateOne_ext _ _ (Spec.touch env)) by reflexivity.
    destruct (updateOne (_id r) (Spec.touch env) st); [|reflexivity].
    unfold Spec.session_outcome, Exc.lift.
    now destruct (session_response lib cfg env 200 _ _).
Qed.

Lemma findOne_email_app (e : string) (st l : Store) :
  findOne_email e st = None ->
  findOne_email e (st ++ l)%list = findOne_email e l.
Proof.
  unfold findOne_email. induction st as [|a st IH]; simpl; [reflexivity|].
  destruct (String.eqb (email a) e); [discriminate|exact IH].
Qed.

Lemma updateOne_app (id : string) (f : Stored -> Stored) (st l : Store) :
  findById id st = None ->
  updateOne id f (st ++ l)%list = app st <$> updateOne id f l.
Proof.
  unfold findById. induction st as [|a st IH]; simpl; intros H.
  - now destruct (updateOne id f l).
  - destruct (String.eqb (_id a) id); [discriminate|].
    rewrite (IH H). now destruct (updateOne id f l).
Qed.

Lemma index_conflict_find (r : Stored) (st : Store) :
  index_conflict r st = false ->
  findOne_email (email r) st = None /\ findById (_id r) st = None.
Proof.
  unfold index_conflict, findOne_email, findById.
  induction st as [|a st IH]; simpl; [auto|].
  intros H. apply orb_false_iff in H as [H1 H2].
  apply orb_false_iff in H1 as [-> ->]. auto.
Qed.

End HandlerEquations.

Module RouteEquations.
Import User AuthController ModelFacts HandlerFacts HandlerEquations.

(** What the validators of the register route require. *)
Lemma accepts_register (lib : Library) (req : Request) (n raw p c : string) :
  body req !! "name" = Some n ->
  body req !! "email" = Some raw ->
  body req !! "password" = Some p ->
  body req !! "confirmPassword" = Some c ->
  Validator.accepts (Validator.registerValidation lib) req = true ->
  Str.trim n <> EmptyString
  /\ isLength lib (Some 2%nat) None (Str.trim n) = true
  /\ isLength lib None (Some 50%nat) (Str.trim n) = true
  /\ Str.trim raw <> EmptyString
  /\ isEmail lib (Str.trim raw) = true
  /\ p <> EmptyString
  /\ isLength lib (Some 6%nat) None p = true
  /\ c <> EmptyString.
Proof.
  intros Hn He Hp Hc.
  unfold Validator.accepts, Validator.registerValidation.
  cbn [forallb fst snd]. rewrite Hn, He, Hp, Hc.
  cbn [Validator.passes Validator.trim_step Validator.toString default
       Validator.notEmpty].
  unfold Validator.notEmpty, id.
  rewrite !andb_true_iff, !negb_true_iff, !String.eqb_neq.
  tauto.
Qed.

(** Register on the route: a request that passes the validators, with
    equal passwords, a name, an email and a password that the schema
    accepts and an email that no stored user has, appends the new
    document (unless the fresh [_id] is already taken) and ends with
    the session reply. *)
Lemma POST_register_ok (lib : Library) (cfg : Config) (env : Env)
  (req : Request) (st : Store) (n raw p e : string) :
  validation req = [] ->
  Validator.accepts (Validator.registerValidation lib) req = true ->
  body req !! "name" = Some n ->
  body req !! "email" = Some raw ->
  body req !! "password" = Some p ->
  body req !! "confirmPassword" = Some p ->
  normalizeEmail lib (Str.trim raw) = Some e ->
  (2 <= Str.length (Str.trim n) <= 50)%nat ->
  Regex.test Regex.email_pattern (set_email (Str.toLowerCase e)) = true ->
  (6 <= Str.length p)%nat ->
  findOne_email (Str.toLowerCase e) st = None ->
  Routes.POST_register lib cfg env req st
  = if index_conflict
         (Spec.new_record lib env (Str.trim n) (Str.toLowerCase e) p) st
    then (server_error cfg "Server error during registration" DuplicateKey,
          st)
    else (Spec.session_outcome lib cfg env 201 "Registration successful"
            "Server error during registration"
            (hydrate true
               (Spec.new_record lib env (Str.trim n) (Str.toLowerCase e) p)),
          (st ++ [Spec.new_record lib env (Str.trim n)
                    (Str.toLowerCase e) p])%list).
Proof.
  intros Hv Hacc Hn Hraw Hp Hc Hnorm Hlen Hre Hplen Hfree.
  destruct (ValidatorFacts.run_all_spec _
              (ValidatorFacts.registerValidation_paths lib) req)
    as (_ & Hval & _).
  destruct (ValidatorFacts.registerValidation_body lib req)
    as (Bn & Be & Bp & Bc).
  unfold Routes.POST_register.
  apply register_ok.
  - apply Hval. auto.
  - rewrite Bn, Hn. reflexivity.
  - rewrite Be, Hraw. exact Hnorm.
  - now rewrite Bp.
  - now rewrite Bc.
  - exact Hfree.
  - apply validate_ok; try assumption.
    unfold set_name. now rewrite StrFacts.trim_idem.
Qed.

(** Login on the route with the right password. *)
Lemma POST_login_ok (lib : Library) (cfg : Config) (env : Env)
  (req : Request) (st : Store) (raw p e : string) (r : Stored) :
  validation req = [] ->
  Validator.accepts (Validator.loginValidation lib) req = true ->
  body req !! "email" = Some raw ->
  body req !! "password" = Some p ->
  normalizeEmail lib (Str.trim raw) = Some e ->
  findOne_email (Str.toLowerCase e) st = Some r ->
  bcrypt_compare lib p (password r) = true ->
  Routes.POST_login lib cfg env req st
  = if bool_decide (lastLogin r = Some (now_lastLogin env))
    then (Spec.session_outcome lib cfg env 200 "Login successful"
            "Server error during login" (hydrate true r), st)
    else match updateOne (_id r) (Spec.touch env) st with
         | Some st' =>
             (Spec.session_outcome lib cfg env 200 "Login successful"
                "Server error during login"
                (hydrate true (Spec.touch env r)), st')
         | None =>
             (server_error cfg "Server error during login" DocumentNotFound,
              st)
         end.
Proof.
  intros Hv Hacc Hraw Hp Hnorm Hf Hc.
  destruct (ValidatorFacts.run_all_spec _
              (ValidatorFacts.loginValidation_paths lib) req)
    as (_ & Hval & _).
  destruct (ValidatorFacts.loginValidation_body lib req) as (Be & Bp).
  unfold Routes.POST_login.
  apply login_ok with e p.
  - apply Hval. auto.
  - rewrite Be, Hraw. exact Hnorm.
  - now rewrite Bp.
  - exact Hf.
  - exact Hc.
Qed.

End RouteEquations.

(* ================================================================== *)
(** * Login failures *)

Module LoginClaims.
Import User AuthController.

(** C1 (as the code has it).  A login request that passes the
    validators of the route and names an email with no stored user, or
    names a stored user with a password that bcrypt rejects, gets the
    reply 401 "Invalid email or password" and changes nothing: the
    reply is one and the same value in both cases. *)
Theorem login_failure_is_generic (lib : Library) (cfg : Config) (env : Env)
  (req : Request) (st : Store) (e p : string) :
  validation (Validator.run_all (Validator.loginValidation lib) req) = [] ->
  body (Validator.run_all (Validator.loginValidation lib) req) !! "email"
    = Some e ->
  body (Validator.run_all (Validator.loginValidation lib) req) !! "password"
    = Some p ->
  (findOne_email (Str.toLowerCase e) st = None
   \/ exists r, findOne_email (Str.toLowerCase e) st = Some r
                /\ bcrypt_compare lib p (password r) = false) ->
  Routes.POST_login lib cfg env req st
  = (failure 401 "Invalid email or password", st).
Proof.
  intros Hv He Hp Hcase. unfold Routes.POST_login.
  destruct Hcase as [Hf|(r & Hf & Hc)].
  - now apply HandlerEquations.login_unknown_email with e.
  - now apply HandlerEquations.login_bad_password with e p r.
Qed.

Lemma login_failure_is_generic_witness :
  Routes.POST_login Reference.lib Reference.cfg (Reference.env_at 5000 "u2")
    Reference.login_unknown [Reference.alice]
  = (failure 401 "Invalid email or password", [Reference.alice])
  /\ Routes.POST_login Reference.lib Reference.cfg (Reference.env_at 5000 "u2")
       Reference.login_wrong_password [Reference.alice]
     = (failure 401 "Invalid email or password", [Reference.alice]).
Proof.
  split.
  - apply (login_failure_is_generic _ _ _ _ _ "nobody@example.com" "secret1");
      [vm_compute; reflexivity .. | left; vm_compute; reflexivity].
  - apply (login_failure_is_generic _ _ _ _ _ "alice@example.com" "guess-1");
      [vm_compute; reflexivity .. |].
    right. exists Reference.alice. split; vm_compute; reflexivity.
Defined.

(** C1 (as stated) fails: a request for an unknown email that sends no
    password is answered 400 "Validation failed", not 401. *)
Lemma login_without_password_is_400 :
  findOne_email "nobody@example.com" [Reference.alice] = None
  /\ status (fst (Routes.POST_login Reference.lib Reference.cfg
                    (Reference.env_at 5000 "u2")
                    Reference.login_no_password [Reference.alice])) = 400
  /\ message_of (fst (Routes.POST_login Reference.lib Reference.cfg
                        (Reference.env_at 5000 "u2")
                        Reference.login_no_password [Reference.alice]))
     = Js.VStr "Validation failed".
Proof. repeat split; vm_compute; reflexivity. Qed.

End LoginClaims.

(* ================================================================== *)
(** * Registration failures *)

Module RegisterClaims.
Import User AuthController ModelFacts HandlerFacts.

(** C2.  A register request whose [password] and [confirmPassword]
    differ is answered with status 400 and no document is written. *)
Theorem register_password_mismatch (lib : Library) (cfg : Config)
  (env : Env) (req : Request) (st : Store) :
  body req !! "password" <> body req !! "confirmPassword" ->
  status (fst (Routes.POST_register lib cfg env req st)) = 400
  /\ snd (Routes.POST_register lib cfg env req st) = st.
Proof.
  intros Hne. unfold Routes.POST_register.
  destruct (ValidatorFacts.registerValidation_body lib req)
    as (_ & _ & Hp & Hc).
  destruct (validation
              (Validator.run_all (Validator.registerValidation lib) req))
    as [|fe fes] eqn:V.
  - rewrite HandlerEquations.register_passwords_differ; [split; reflexivity|exact V|].
    now rewrite Hp, Hc.
  - rewrite (HandlerEquations.register_invalid _ _ _ _ _ fe fes V).
    split; reflexivity.
Qed.

Lemma register_password_mismatch_witness :
  status (fst (Routes.POST_register Reference.lib Reference.cfg
                 (Reference.env_at 1000 "u1")
                 Reference.register_mismatch [])) = 400
  /\ snd (Routes.POST_register Reference.lib Reference.cfg
            (Reference.env_at 1000 "u1") Reference.register_mismatch []) = [].
Proof.
  apply register_password_mismatch. vm_compute. discriminate.
Defined.

Lemma findOne_email_found (r : Stored) (st : Store) :
  In r st -> exists r', findOne_email (email r) st = Some r'.
Proof.
  unfold findOne_email. induction st as [|a st IH]; simpl; [contradiction|].
  intros [->|Hin].
  - rewrite String.eqb_refl. eauto.
  - destruct (String.eqb (email a) (email r)); eauto.
Qed.

(** C3 (as the code has it).  In a collection the service has built,
    a register request whose email, after the sanitizers of the route,
    equals the email of a stored user up to letter case is answered
    with status 400 and writes nothing.  The message is "Email already
    registered. Please use a different email or login." when the
    request passes the validators and its two passwords agree (the
    validation and the password comparison come first).  No register
    request makes two stored emails equal up to letter case. *)
Theorem register_duplicate_email (lib : Library) (cfg : Config) (env : Env)
  (req : Request) (st : Store) (e : string) (r : Stored) :
  Spec.reachable lib cfg st ->
  body (Validator.run_all (Validator.registerValidation lib) req) !! "email"
    = Some e ->
  In r st ->
  Str.toLowerCase e = Str.toLowerCase (email r) ->
  status (fst (Routes.POST_register lib cfg env req st)) = 400
  /\ snd (Routes.POST_register lib cfg env req st) = st
  /\ (validation (Validator.run_all (Validator.registerValidation lib) req)
        = [] ->
      body req !! "password" = body req !! "confirmPassword" ->
      fst (Routes.POST_register lib cfg env req st)
      = failure 400
          "Email already registered. Please use a different email or login.")
  /\ (forall env' req',
        Spec.emails_unique_ci
          (snd (Routes.POST_register lib cfg env' req' st))).
Proof.
  intros Hreach He Hin Hci.
  pose proof (reachable_invariant lib cfg st Hreach) as Hinv.
  assert (exists r', findOne_email (Str.toLowerCase e) st = Some r')
    as (r' & Hfind).
  { destruct Hinv as (Hn & _). rewrite Forall_forall in Hn.
    destruct (Hn r (proj2 (list_elem_of_In _ _) Hin)) as [Hl _]. rewrite Hci, Hl.
    now apply findOne_email_found. }
  destruct (ValidatorFacts.registerValidation_body lib req)
    as (_ & _ & Hp & Hc).
  unfold Routes.POST_register.
  destruct (validation
              (Validator.run_all (Validator.registerValidation lib) req))
    as [|fe fes] eqn:V.
  2:{ rewrite (HandlerEquations.register_invalid _ _ _ _ _ fe fes V).
      repeat split; try reflexivity; try discriminate.
      intros env' req'.
      apply invariant_unique_ci, reachable_invariant with lib cfg.
      now apply Spec.reach_register. }
  destruct (decide
    (body (Validator.run_all (Validator.registerValidation lib) req)
       !! "password"
     = body (Validator.run_all (Validator.registerValidation lib) req)
         !! "confirmPassword")) as [Heq|Hne].
  2:{ rewrite (HandlerEquations.register_passwords_differ _ _ _ _ _ V Hne).
      repeat split; try reflexivity.
      - intros _ Hpw. exfalso. apply Hne. now rewrite Hp, Hc.
      - intros env' req'.
        apply invariant_unique_ci, reachable_invariant with lib cfg.
        now apply Spec.reach_register. }
  rewrite (HandlerEquations.register_taken _ _ _ _ _ e r' V Heq He Hfind).
  repeat split.
  - intros env' req'. apply invariant_unique_ci, reachable_invariant with lib cfg.
    now apply Spec.reach_register.
Qed.


Lemma register_duplicate_email_witness :
  status (fst (Routes.POST_register Reference.lib Reference.cfg
                 (Reference.env_at 2000 "u2") Reference.alice_register
                 Reference.after_alice)) = 400
  /\ snd (Routes.POST_register Reference.lib Reference.cfg
            (Reference.env_at 2000 "u2") Reference.alice_register
            Reference.after_alice) = Reference.after_alice
  /\ fst (Routes.POST_register Reference.lib Reference.cfg
            (Reference.env_at 2000 "u2") Reference.alice_register
            Reference.after_alice)
     = failure 400
         "Email already registered. Please use a different email or login.".
Proof.
  destruct (register_duplicate_email Reference.lib Reference.cfg
              (Reference.env_at 2000 "u2") Reference.alice_register
              Reference.after_alice "alice@example.com" Reference.alice)
    as (H1 & H2 & H3 & _).
  - apply Spec.reach_register, Spec.reach_empty.
  - vm_compute; reflexivity.
  - vm_compute. left; reflexivity.
  - reflexivity.
  - split; [exact H1|]. split; [exact H2|].
    apply H3; vm_compute; reflexivity.
Defined.

(** C3 (as stated) fails: with a stored user of the same email up to
    letter case, a request whose two passwords differ is answered
    "Passwords do not match", not "Email already registered". *)
Lemma register_duplicate_with_mismatch :
  Str.toLowerCase "Alice@Example.com"
    = Str.toLowerCase (email Reference.alice)
  /\ message_of (fst (Routes.POST_register Reference.lib Reference.cfg
                        (Reference.env_at 2000 "u2")
                        Reference.register_mismatch [Reference.alice]))
     = Js.VStr "Passwords do not match"
  /\ message_of (fst (Routes.POST_register Reference.lib Reference.cfg
                        (Reference.env_at 2000 "u2")
                        Reference.alice_register [Reference.alice]))
     <> Js.VStr "Email already registered".
Proof. repeat split; vm_compute; congruence. Qed.

End RegisterClaims.

(* ================================================================== *)
(** * The public profile *)

Module ProfileClaims.
Import User AuthController ModelFacts HandlerFacts.

Lemma register_reply (lib : Library) (cfg : Config) (env : Env)
  (req : Request) (st : Store) :
  Spec.reply lib cfg env (fst (register lib cfg env req st)).
Proof.
  destruct (register_cases lib cfg env req st)
    as [_|(n & e & p & _ & _ & _ & _ & _ & _ & _ & ->)];
    [|apply session_outcome_reply; now right].
  unfold register, Exc.try_catch, register_try.
  destruct (validation req) as [|fe fes]; [|constructor].
  destruct (bool_decide _); cbn [negb]; [|constructor].
  destruct (body req !! "email") as [e|]; cbn [toLowerCase]; [|constructor].
  unfold Exc.bind at 1. cbn [Exc.ret]. unfold Exc.bind at 1. cbn [Exc.get].
  destruct (findOne_email (Str.toLowerCase e) st); [constructor|].
  unfold Exc.bind.
  destruct (create lib env _ st) as [[err|d] st']; [constructor|].
  unfold Exc.lift. destruct (session_response lib cfg env 201 _ d) as [err|x]
    eqn:E; [constructor|].
  cbn [fst]. unfold session_response in E.
  destruct (generateAuthToken lib cfg env d) as [?|token] eqn:T;
    [discriminate|].
  destruct (sessionCookie lib cfg env token) as [?|cookie] eqn:K;
    [discriminate|].
  injection E as <-. constructor; [now right | exact T | exact K].
Qed.

Lemma login_reply (lib : Library) (cfg : Config) (env : Env)
  (req : Request) (st : Store) :
  Spec.reply lib cfg env (fst (login lib cfg env req st)).
Proof.
  destruct (login_cases lib cfg env req st)
    as [_|(e & p & r & r' & st' & _ & _ & _ & _ & _ & _ & ->)];
    [|apply session_outcome_reply; now left].
  unfold login, Exc.try_catch, login_try.
  destruct (validation req) as [|fe fes]; [|constructor].
  destruct (body req !! "email") as [e|]; simpl; [|constructor].
  unfold Exc.bind at 1. simpl. unfold Exc.bind at 1. simpl.
  destruct (findOne_email (Str.toLowerCase e) st) as [r|]; simpl;
    [|constructor].
  destruct (body req !! "password") as [p|];
    [|unfold Exc.bind; simpl; constructor].
  unfold Exc.bind at 1. simpl.
  destruct (bcrypt_compare lib p (password r)); simpl; [|constructor].
  unfold Exc.bind.
  destruct (save lib env false _ st) as [[err|d] st']; [constructor|].
  unfold Exc.lift. destruct (session_response lib cfg env 200 _ d) as [err|x]
    eqn:E; [constructor|].
  cbn [fst]. unfold session_response in E.
  destruct (generateAuthToken lib cfg env d) as [?|token] eqn:T;
    [discriminate|].
  destruct (sessionCookie lib cfg env token) as [?|cookie] eqn:K;
    [discriminate|].
  injection E as <-. constructor; [now left | exact T | exact K].
Qed.

(** [getProfile] answers 200 exactly when the identity on the request
    names a stored user, and then sends that user's profile. *)
Lemma getProfile_cases (lib : Library) (cfg : Config) (env : Env)
  (req : Request) (st : Store) :
  Spec.reply lib cfg env (fst (getProfile cfg req st))
  /\ (status (fst (getProfile cfg req st)) = 200 ->
      exists u r, user req = Some u /\ findById (ru_id u) st = Some r
        /\ Js.get "user" (json (fst (getProfile cfg req st)))
           = getPublicProfile (hydrate false r)).
Proof.
  unfold getProfile, Exc.try_catch, getProfile_try.
  destruct (user req) as [u|]; simpl.
  - unfold Exc.bind, Exc.get. simpl.
    destruct (findById (ru_id u) st) as [r|] eqn:Ef; simpl.
    + split; [constructor|]. intros _. exists u, r. auto.
    + split; [constructor|]. discriminate.
  - split; [constructor|]. discriminate.
Qed.

Lemma protected_reply (lib : Library) (cfg : Config) (env : Env)
  (h : Routes.Handler) (req : Request) (st : Store) :
  (forall req' st', Spec.reply lib cfg env (fst (h req' st'))) ->
  Spec.reply lib cfg env (fst (Routes.protected lib cfg env h req st)).
Proof.
  intros Hh. unfold Routes.protected, AuthMiddleware.protect,
    AuthMiddleware.protect_try.
  destruct (negb _); [constructor|].
  destruct (jwt_verify lib _ _ _); try constructor.
  destruct (findById _ st); [apply Hh|constructor].
Qed.

Lemma error_not_success (code : Z) :
  Spec.error_status code -> Spec.success_status code -> False.
Proof. unfold Spec.error_status, Spec.success_status. lia. Qed.


Lemma profile_hydrate (b : bool) (r : Stored) :
  getPublicProfile (hydrate b r) = Spec.profile r.
Proof. reflexivity. Qed.

Lemma token_hydrate (lib : Library) (cfg : Config) (env : Env) (b : bool)
  (r : Stored) :
  generateAuthToken lib cfg env (hydrate b r)
  = jwt_sign lib {| jwt_id := _id r; jwt_email := email r |}
      (JWT_SECRET cfg) (JWT_EXPIRE cfg) (now_jwt env).
Proof. reflexivity. Qed.











End ProfileClaims.

(* ================================================================== *)
(** * Register, then login *)

Module ScenarioClaims.
Import User AuthController ModelFacts HandlerFacts HandlerEquations RouteEquations.

Lemma accepts_register_intro (lib : Library) (req : Request)
  (n raw p c : string) :
  body req !! "name" = Some n ->
  body req !! "email" = Some raw ->
  body req !! "password" = Some p ->
  body req !! "confirmPassword" = Some c ->
  Str.trim n <> EmptyString ->
  isLength lib (Some 2%nat) None (Str.trim n) = true ->
  isLength lib None (Some 50%nat) (Str.trim n) = true ->
  Str.trim raw <> EmptyString ->
  isEmail lib (Str.trim raw) = true ->
  p <> EmptyString ->
  isLength lib (Some 6%nat) None p = true ->
  c <> EmptyString ->
  Validator.accepts (Validator.registerValidation lib) req = true.
Proof.
  intros Hn He Hp Hc Hnne Hmin Hmax Hrne Hmail Hpne Hplen Hcne.
  unfold Validator.accepts, Validator.registerValidation.
  cbn [forallb fst snd]. rewrite Hn, He, Hp, Hc.
  cbn [Validator.passes Validator.trim_step Validator.toString default
       Validator.notEmpty].
  unfold Validator.notEmpty, id.
  rewrite !andb_true_iff, !negb_true_iff, !String.eqb_neq.
  repeat split; assumption.
Qed.

Lemma accepts_login_intro (lib : Library) (req : Request) (raw p : string) :
  body req !! "email" = Some raw ->
  body req !! "password" = Some p ->
  Str.trim raw <> EmptyString ->
  isEmail lib (Str.trim raw) = true ->
  p <> EmptyString ->
  Validator.accepts (Validator.loginValidation lib) req = true.
Proof.
  intros He Hp Hrne Hmail Hpne.
  unfold Validator.accepts, Validator.loginValidation.
  cbn [forallb fst snd]. rewrite He, Hp.
  cbn [Validator.passes Validator.trim_step Validator.toString default
       Validator.notEmpty].
  unfold Validator.notEmpty, id.
  rewrite !andb_true_iff, !negb_true_iff, !String.eqb_neq.
  repeat split; assumption.
Qed.

(** Login looks the user up by the lower-cased email: two requests
    that differ only in the letter case of the email get the same
    answer. *)
Lemma login_case_insensitive (lib : Library) (cfg : Config) (env : Env)
  (req1 req2 : Request) (st : Store) (e1 e2 : string) :
  validation req1 = validation req2 ->
  body req1 !! "password" = body req2 !! "password" ->
  body req1 !! "email" = Some e1 ->
  body req2 !! "email" = Some e2 ->
  Str.toLowerCase e1 = Str.toLowerCase e2 ->
  login lib cfg env req1 st = login lib cfg env req2 st.
Proof.
  intros Hv Hp H1 H2 He. unfold login, login_try.
  rewrite Hv, Hp, H1, H2. exc_step. now rewrite He.
Qed.

(** C5.  Registering Alice Smith with the email Alice@Example.com and
    the password secret1 (twice) in a collection that has neither her
    email nor the fresh identifier is answered 201 and stores the
    email alice@example.com; the login that follows with
    ALICE@example.com and secret1 is answered 200 and leaves her
    document with the [createdAt] of the registration, a [lastLogin]
    read at the login and not before [createdAt], and the password
    hash of the registration.  In every collection the service builds
    the stored emails are in lower case and trimmed, and Login treats
    emails that differ in letter case alike.  (The libraries are
    assumed to accept the name, the password and the two addresses, to
    normalize the addresses to alice@example.com up to letter case, to
    verify a password against its own hash and to sign the token of
    Alice at both requests, for which [JWT_SECRET] and [JWT_EXPIRE]
    must be usable; the date of the cookie is assumed to exist at both
    requests, and the clock not to run backwards.) *)
Theorem alice_scenario (lib : Library) (cfg : Config) (env1 env2 : Env)
  (st : Store) (a1 a2 t1 t2 : string) (d1 d2 : Z) :
  isLength lib (Some 2%nat) None "Alice Smith" = true ->
  isLength lib None (Some 50%nat) "Alice Smith" = true ->
  isLength lib (Some 6%nat) None "secret1" = true ->
  isEmail lib "Alice@Example.com" = true ->
  normalizeEmail lib "Alice@Example.com" = Some a1 ->
  Str.toLowerCase a1 = "alice@example.com" ->
  isEmail lib "ALICE@example.com" = true ->
  normalizeEmail lib "ALICE@example.com" = Some a2 ->
  Str.toLowerCase a2 = "alice@example.com" ->
  bcrypt_compare lib "secret1" (bcrypt_hash lib "secret1" (genSalt env1))
    = true ->
  jwt_sign lib {| jwt_id := new_ObjectId env1;
                  jwt_email := "alice@example.com" |}
    (JWT_SECRET cfg) (JWT_EXPIRE cfg) (now_jwt env1) = inr t1 ->
  jwt_sign lib {| jwt_id := new_ObjectId env1;
                  jwt_email := "alice@example.com" |}
    (JWT_SECRET cfg) (JWT_EXPIRE cfg) (now_jwt env2) = inr t2 ->
  cookieDate lib cfg env1 = Some d1 ->
  cookieDate lib cfg env2 = Some d2 ->
  index_conflict
    (Spec.new_record lib env1 "Alice Smith" "alice@example.com" "secret1") st
    = false ->
  now_createdAt env1 <= now_lastLogin env2 ->
  (status (fst (Routes.POST_register lib cfg env1
                  Reference.alice_register st)) = 201
   /\ exists u,
        snd (Routes.POST_register lib cfg env1 Reference.alice_register st)
          = (st ++ [u])%list
        /\ email u = "alice@example.com"
        /\ status (fst (Routes.POST_login lib cfg env2 Reference.alice_login
                          (st ++ [u])%list)) = 200
        /\ exists u' c l,
             snd (Routes.POST_login lib cfg env2 Reference.alice_login
                    (st ++ [u])%list) = (st ++ [u'])%list
             /\ email u' = "alice@example.com"
             /\ password u' = password u
             /\ createdAt u' = Some c /\ c = now_createdAt env1
             /\ lastLogin u' = Some l /\ l = now_lastLogin env2
             /\ c <= l)
  /\ (forall st0, Spec.reachable lib cfg st0 ->
        Forall Spec.normal_email st0)
  /\ (forall env req1 req2 st0 e1 e2,
        validation req1 = validation req2 ->
        body req1 !! "password" = body req2 !! "password" ->
        body req1 !! "email" = Some e1 ->
        body req2 !! "email" = Some e2 ->
        Str.toLowerCase e1 = Str.toLowerCase e2 ->
        login lib cfg env req1 st0 = login lib cfg env req2 st0).
Proof.
  intros Hmin Hmax Hplen Hm1 Hn1 Hl1 Hm2 Hn2 Hl2 Hbc Ht1 Ht2 Hd1 Hd2
    Hfree Hclock.
  split; [|split; [intros st0 H; apply (reachable_invariant lib cfg st0 H)
                  |intros; now apply login_case_insensitive with e1 e2]].
  set (u := Spec.new_record lib env1 "Alice Smith" "alice@example.com"
              "secret1") in *.
  destruct (index_conflict_find u st Hfree) as [Hnoemail Hnoid].
  assert (email u = "alice@example.com") as Hem by reflexivity.
  rewrite Hem in Hnoemail.
  assert (Routes.POST_register lib cfg env1 Reference.alice_register st
          = (Spec.session_outcome lib cfg env1 201 "Registration successful"
               "Server error during registration"
               (hydrate true u), (st ++ [u])%list)) as Hreg.
  { rewrite (POST_register_ok lib cfg env1 Reference.alice_register st
               "Alice Smith" "Alice@Example.com" "secret1" a1);
      try reflexivity; try exact Hn1.
    - rewrite Hl1. change (Str.trim "Alice Smith") with "Alice Smith".
      fold u. now rewrite Hfree.
    - apply (accepts_register_intro lib _ "Alice Smith" "Alice@Example.com"
               "secret1" "secret1");
        try reflexivity; try assumption; discriminate.
    - vm_compute. split; lia.
    - rewrite Hl1. reflexivity.
    - vm_compute. lia.
    - rewrite Hl1. exact Hnoemail. }
  rewrite Hreg.
  rewrite (session_outcome_ok lib cfg env1 _ _ _ t1 d1) by assumption.
  split; [reflexivity|].
  exists u. split; [reflexivity|]. split; [reflexivity|].
  assert (findOne_email (Str.toLowerCase a2) (st ++ [u])%list = Some u) as Hf.
  { rewrite Hl2, (findOne_email_app _ st [u] Hnoemail). reflexivity. }
  rewrite (POST_login_ok lib cfg env2 Reference.alice_login (st ++ [u])%list
             "ALICE@example.com" "secret1" a2 u);
    try reflexivity; try exact Hn2; try exact Hf; try exact Hbc.
  2:{ apply (accepts_login_intro lib _ "ALICE@example.com" "secret1");
        try reflexivity; try exact Hm2; discriminate. }
  destruct (bool_decide (lastLogin u = Some (now_lastLogin env2))) eqn:Ell.
  - apply bool_decide_eq_true in Ell.
    rewrite (session_outcome_ok lib cfg env2 _ _ _ t2 d2) by assumption.
    split; [reflexivity|].
    exists u, (now_createdAt env1), (now_lastLogin env2).
    repeat split; try reflexivity; assumption.
  - rewrite (updateOne_app _ _ st [u] Hnoid).
    change (updateOne (_id u) (Spec.touch env2) [u])
      with (if String.eqb (_id u) (_id u) then Some [Spec.touch env2 u]
            else None).
    rewrite String.eqb_refl. cbn [fmap option_fmap option_map].
    rewrite (session_outcome_ok lib cfg env2 _ _ _ t2 d2) by assumption.
    split; [reflexivity|].
    exists (Spec.touch env2 u), (now_createdAt env1), (now_lastLogin env2).
    repeat split; try reflexivity; assumption.
Qed.

Lemma alice_scenario_witness :
  status (fst (Routes.POST_register Reference.lib Reference.cfg
                 (Reference.env_at 1000 "u1")
                 Reference.alice_register [])) = 201
  /\ exists u,
       snd (Routes.POST_register Reference.lib Reference.cfg
              (Reference.env_at 1000 "u1") Reference.alice_register [])
         = [u]
       /\ email u = "alice@example.com"
       /\ status (fst (Routes.POST_login Reference.lib Reference.cfg
                         (Reference.env_at 5000 "u2")
                         Reference.alice_login [u])) = 200.
Proof.
  destruct (alice_scenario Reference.lib Reference.cfg
              (Reference.env_at 1000 "u1") (Reference.env_at 5000 "u2") []
              "alice@example.com" "alice@example.com"
              Reference.alice_token Reference.alice_token
              604801004 604805004)
    as ((H1 & u & H2 & H3 & H4 & _) & _);
    try (vm_compute; reflexivity).
  - vm_compute. discriminate.
  - split; [exact H1|]. exists u. auto.
Defined.

End ScenarioClaims.

(* ================================================================== *)
(** * Logout *)

Module LogoutClaims.
Import User AuthController.

(** C6 (as the code has it).  An authenticated logout request gets
    status 200 with [success: true] and one cookie: [token] with the
    value ["none"], httpOnly, expiring ten seconds after the clock
    reading of the request.  No logout request, authenticated or not,
    changes the collection. *)
Theorem logout_overwrites_cookie (lib : Library) (cfg : Config) (env : Env)
  (req req' : Request) (st : Store) :
  AuthMiddleware.protect lib cfg env req st = AuthMiddleware.Next req' ->
  Routes.POST_logout lib cfg env req st
  = ({| status := 200;
        json := Js.VObj [ ("success", Js.VBool true);
                          ("message", Js.VStr "Logout successful") ];
        set_cookie :=
          [ {| cookie_name := "token";
               cookie_value := "none";
               expires := now_cookie env + 10000;
               httpOnly := true;
               secure := false;
               sameSite := None |} ] |}, st)
  /\ (forall req0, snd (Routes.POST_logout lib cfg env req0 st) = st).
Proof.
  intros Hp. split.
  - unfold Routes.POST_logout, Routes.protected. now rewrite Hp.
  - intros req0. unfold Routes.POST_logout.
    now apply HandlerFacts.protected_store.
Qed.

Lemma logout_overwrites_cookie_witness :
  Routes.POST_logout Reference.lib Reference.cfg (Reference.env_at 5000 "u2")
    (Reference.with_cookie Reference.alice_token) [Reference.alice]
  = ({| status := 200;
        json := Js.VObj [ ("success", Js.VBool true);
                          ("message", Js.VStr "Logout successful") ];
        set_cookie :=
          [ {| cookie_name := "token";
               cookie_value := "none";
               expires := 15004;
               httpOnly := true;
               secure := false;
               sameSite := None |} ] |}, [Reference.alice]).
Proof.
  apply (logout_overwrites_cookie Reference.lib Reference.cfg
           (Reference.env_at 5000 "u2")
           (Reference.with_cookie Reference.alice_token)
           (AuthMiddleware.attach
              (Some (AuthMiddleware.identity_of Reference.alice))
              (Reference.with_cookie Reference.alice_token))).
  vm_compute. reflexivity.
Defined.

(** C6 (as stated) fails: the cookie that logout sets is not empty and
    does not expire at once; its value is ["none"] and it expires ten
    seconds later. *)
Lemma logout_cookie_is_none_for_ten_seconds :
  exists c,
    set_cookie (fst (Routes.POST_logout Reference.lib Reference.cfg
                       (Reference.env_at 5000 "u2")
                       (Reference.with_cookie Reference.alice_token)
                       [Reference.alice])) = [c]
    /\ cookie_value c = "none"
    /\ cookie_value c <> EmptyString
    /\ expires c = now_cookie (Reference.env_at 5000 "u2") + 10000
    /\ now_cookie (Reference.env_at 5000 "u2") < expires c.
Proof.
  eexists. split; [vm_compute; reflexivity|].
  repeat split; try discriminate; reflexivity.
Qed.

End LogoutClaims.

(* ================================================================== *)
(** * What a login writes *)

Module LoginFrameClaims.
Import User AuthController ModelFacts HandlerFacts.

Lemma touch_same_identity (env : Env) (a b : Stored) :
  Spec.kept_or_touched env a b -> Spec.same_identity a b.
Proof. intros [->| ->]; unfold Spec.same_identity; simpl; auto. Qed.

(** C7 (as the code has it).  A login leaves every stored document as
    it was or rewrites it with a new [lastLogin] and a new [updatedAt]
    (the [timestamps] option of the schema): [_id], [name], [email],
    the password hash and [createdAt] of every document are unchanged.
    The save hook hashes nothing when the password path is
    unmodified. *)
Theorem login_frame (lib : Library) (cfg : Config) (env : Env)
  (req : Request) (st : Store) :
  Forall2 (Spec.kept_or_touched env) st
    (snd (Routes.POST_login lib cfg env req st))
  /\ Forall2 Spec.same_identity st
       (snd (Routes.POST_login lib cfg env req st))
  /\ (forall d st0, isModified "password" d = false ->
        pre_save lib env d st0 = (inr d, st0)).
Proof.
  assert (Forall2 (Spec.kept_or_touched env) st
            (snd (Routes.POST_login lib cfg env req st))) as H.
  { unfold Routes.POST_login. apply login_touches. }
  split; [exact H|]. split.
  - eapply Forall2_impl; [exact H|]. apply touch_same_identity.
  - intros d st0 Hm. unfold pre_save. now rewrite Hm.
Qed.

Lemma login_frame_witness :
  Forall2 Spec.same_identity [Reference.alice]
    (snd (Routes.POST_login Reference.lib Reference.cfg
            (Reference.env_at 5000 "u2") Reference.alice_login
            [Reference.alice]))
  /\ pre_save Reference.lib (Reference.env_at 5000 "u2")
       (hydrate true Reference.alice) [Reference.alice]
     = (inr (hydrate true Reference.alice), [Reference.alice]).
Proof.
  destruct (login_frame Reference.lib Reference.cfg
              (Reference.env_at 5000 "u2") Reference.alice_login
              [Reference.alice]) as (_ & H1 & H2).
  split; [exact H1|]. apply H2. reflexivity.
Defined.

(** C7 (as stated) fails: a successful login changes [updatedAt] as
    well as [lastLogin]. *)
Lemma login_changes_updatedAt :
  status (fst (Routes.POST_login Reference.lib Reference.cfg
                 (Reference.env_at 5000 "u2") Reference.alice_login
                 [Reference.alice])) = 200
  /\ snd (Routes.POST_login Reference.lib Reference.cfg
            (Reference.env_at 5000 "u2") Reference.alice_login
            [Reference.alice])
     = [ {| _id := "u1"; name := "Alice Smith";
            email := "alice@example.com"; password := "salt$secret1";
            createdAt := Some 1000; lastLogin := Some 5001;
            updatedAt := Some 5002 |} ]
  /\ updatedAt Reference.alice = Some 1000.
Proof. repeat split; vm_compute; reflexivity. Qed.

End LoginFrameClaims.

(* ================================================================== *)
(** * The session middleware *)

Module MiddlewareClaims.
Import User AuthMiddleware.

Lemma split_no_sep (sep : ascii) (s : string) :
  Str.has_char sep s = false -> Str.split sep s = [s].
Proof.
  induction s as [|c s IH]; simpl; [reflexivity|].
  intros H. apply orb_false_iff in H as [Hc Hs].
  now rewrite Hc, (IH Hs).
Qed.

(** [Bearer <token>] for a token without spaces yields the token. *)
Lemma split_bearer (tok : string) :
  Str.has_char " " tok = false ->
  Str.split " " ("Bearer " +:+ tok) !! 1%nat = Some tok.
Proof.
  intros H.
  change ("Bearer " +:+ tok) with
    (String "B" (String "e" (String "a" (String "r" (String "e"
       (String "r" (String " " tok))))))).
  cbn [Str.split Ascii.eqb Bool.eqb]. now rewrite (split_no_sep _ _ H).
Qed.

Lemma protect_no_token (lib : Library) (cfg : Config) (env : Env)
  (req : Request) (st : Store) :
  Str.truthy (extractToken req) = false ->
  protect lib cfg env req st
  = Reject (failure 401
              "Not authorized to access this route. Please login.").
Proof. intros H. unfold protect, protect_try. now rewrite H. Qed.

(** With a token, the verdict follows what [jwt.verify] does. *)
Lemma protect_with_token (lib : Library) (cfg : Config) (env : Env)
  (req : Request) (st : Store) (tok : string) :
  extractToken req = Some tok -> tok <> EmptyString ->
  protect lib cfg env req st
  = match jwt_verify lib tok (JWT_SECRET cfg) (now_jwt env) with
    | Decoded p =>
        match findById (jwt_id p) st with
        | None => Reject (failure 401 "User not found. Token invalid.")
        | Some r => Next (attach (Some (identity_of r)) req)
        end
    | JsonWebTokenError _ =>
        Reject (failure 401 "Invalid token. Please login again.")
    | TokenExpiredError _ =>
        Reject (failure 401 "Token expired. Please login again.")
    | OtherError _ =>
        Reject (failure 500 "Server error during authentication")
    end.
Proof.
  intros Ht Hne. unfold protect, protect_try. rewrite Ht.
  cbn [Str.truthy Validator.toString default].
  apply String.eqb_neq in Hne. rewrite Hne. cbn [negb]. unfold id.
  destruct (jwt_verify lib tok (JWT_SECRET cfg) (now_jwt env));
    try reflexivity.
  now destruct (findById _ st).
Qed.

Lemma truthy_Some (v : option string) :
  Str.truthy v = true -> exists s, v = Some s /\ s <> EmptyString.
Proof.
  destruct v as [s|]; [|discriminate]. simpl. intros H.
  apply negb_true_iff, String.eqb_neq in H. eauto.
Qed.

(** The verdict depends on the request only through its token. *)
Lemma protect_by_token (lib : Library) (cfg : Config) (env : Env)
  (req1 req2 : Request) (st : Store) :
  extractToken req1 = extractToken req2 ->
  Spec.verdict (protect lib cfg env req1 st)
  = Spec.verdict (protect lib cfg env req2 st).
Proof.
  intros E. destruct (Str.truthy (extractToken req1)) eqn:T.
  - destruct (truthy_Some _ T) as (tok & Ht & Hne).
    rewrite (protect_with_token lib cfg env req1 st tok Ht Hne).
    rewrite E in Ht.
    rewrite (protect_with_token lib cfg env req2 st tok Ht Hne).
    destruct (jwt_verify lib tok (JWT_SECRET cfg) (now_jwt env));
      try reflexivity.
    now destruct (findById _ st).
  - rewrite (protect_no_token lib cfg env req1 st T).
    rewrite E in T.
    now rewrite (protect_no_token lib cfg env req2 st T).
Qed.

(** C8 (as the code has it).  The middleware takes the token from the
    cookie [token] when that cookie has a non-empty value, and
    otherwise from an [authorization] header [Bearer <token>].  With
    no token it rejects with 401 "Not authorized to access this route.
    Please login.".  With a token, it rejects with 401 "Invalid token.
    Please login again." when [jwt.verify] throws a
    [JsonWebTokenError], and with 401 "Token expired. Please login
    again." when [jwt.verify] throws a [TokenExpiredError]; which of
    the two an expired token with a bad signature gets is decided
    inside [jwt.verify].  Two requests that carry the same token, in
    the cookie or in the header, get the same verdict and the same
    identity. *)
Theorem protect_verdicts (lib : Library) (cfg : Config) (env : Env)
  (req : Request) (st : Store) :
  (Str.truthy (cookies req !! "token") = true ->
   extractToken req = cookies req !! "token")
  /\ (forall tok,
        Str.truthy (cookies req !! "token") = false ->
        headers req !! "authorization" = Some ("Bearer " +:+ tok) ->
        Str.has_char " " tok = false ->
        extractToken req = Some tok)
  /\ (Str.truthy (extractToken req) = false ->
      protect lib cfg env req st
      = Reject (failure 401
                  "Not authorized to access this route. Please login."))
  /\ (forall tok m,
        extractToken req = Some tok -> tok <> EmptyString ->
        jwt_verify lib tok (JWT_SECRET cfg) (now_jwt env)
          = JsonWebTokenError m ->
        protect lib cfg env req st
        = Reject (failure 401 "Invalid token. Please login again."))
  /\ (forall tok m,
        extractToken req = Some tok -> tok <> EmptyString ->
        jwt_verify lib tok (JWT_SECRET cfg) (now_jwt env)
          = TokenExpiredError m ->
        protect lib cfg env req st
        = Reject (failure 401 "Token expired. Please login again."))
  /\ (forall req2,
        extractToken req2 = extractToken req ->
        Spec.verdict (protect lib cfg env req2 st)
        = Spec.verdict (protect lib cfg env req st)).
Proof.
  repeat split.
  - intros H. unfold extractToken. now rewrite H.
  - intros tok Hc Hh Hs. unfold extractToken. rewrite Hc, Hh.
    cbn [Str.truthy Str.startsWith].
    change (String.prefix "Bearer" ("Bearer " +:+ tok)) with true.
    rewrite andb_true_r.
    destruct (String.eqb ("Bearer " +:+ tok) EmptyString) eqn:E;
      [apply String.eqb_eq in E; discriminate E|].
    cbn [negb]. now apply split_bearer.
  - apply protect_no_token.
  - intros tok m Ht Hne Hv.
    now rewrite (protect_with_token lib cfg env req st tok Ht Hne), Hv.
  - intros tok m Ht Hne Hv.
    now rewrite (protect_with_token lib cfg env req st tok Ht Hne), Hv.
  - intros req2 E. now apply protect_by_token.
Qed.

Lemma protect_verdicts_witness :
  protect Reference.lib Reference.cfg (Reference.env_at 5000 "u2")
    (Reference.with_bearer Reference.stale_token) [Reference.alice]
  = Reject (failure 401 "Token expired. Please login again.")
  /\ Spec.verdict
       (protect Reference.lib Reference.cfg (Reference.env_at 5000 "u2")
          (Reference.with_cookie Reference.alice_token) [Reference.alice])
     = Spec.verdict
         (protect Reference.lib Reference.cfg (Reference.env_at 5000 "u2")
            (Reference.with_bearer Reference.alice_token) [Reference.alice]).
Proof.
  split.
  - destruct (protect_verdicts Reference.lib Reference.cfg
                (Reference.env_at 5000 "u2")
                (Reference.with_bearer Reference.stale_token)
                [Reference.alice]) as (_ & _ & _ & _ & H & _).
    apply (H Reference.stale_token "jwt expired");
      [vm_compute; reflexivity | discriminate | vm_compute; reflexivity].
  - destruct (protect_verdicts Reference.lib Reference.cfg
                (Reference.env_at 5000 "u2")
                (Reference.with_bearer Reference.alice_token)
                [Reference.alice]) as (_ & _ & _ & _ & _ & H).
    apply H. vm_compute. reflexivity.
Defined.

(** C8 (as stated) fails when the verifier checks the signature before
    the expiry, as jsonwebtoken does: a token that is past its expiry
    and badly signed is rejected with "Invalid token. Please login
    again.", not with "Token expired.". *)
Lemma expired_forged_token_is_invalid :
  Reference.verify Reference.stale_token (JWT_SECRET Reference.cfg) 5003
    = TokenExpiredError "jwt expired"
  /\ Reference.verify Reference.forged_stale_token
       (JWT_SECRET Reference.cfg) 5003
     = JsonWebTokenError "invalid signature"
  /\ protect Reference.lib Reference.cfg (Reference.env_at 5000 "u2")
       (Reference.with_bearer Reference.forged_stale_token)
       [Reference.alice]
     = Reject (failure 401 "Invalid token. Please login again.").
Proof. repeat split; vm_compute; reflexivity. Qed.

End MiddlewareClaims.

(* ================================================================== *)
(** * Emails the route accepts and the schema rejects *)

Module SchemaClaims.
Import User AuthController ModelFacts HandlerFacts HandlerEquations.

(** The schema rejects an address whose part after the last dot is
    longer than three characters. *)
Lemma long_tld_rejected (s t : string) :
  Str.afterLastDot s = Some t -> (3 < String.length t)%nat ->
  Regex.test Regex.email_pattern s = false.
Proof.
  intros Ht Hlen. destruct (Regex.test Regex.email_pattern s) eqn:E;
    [|reflexivity].
  destruct (RegexFacts.email_pattern_tld s E) as (w & Hw & _ & Hl).
  rewrite Ht in Hw. injection Hw as ->. lia.
Qed.

Lemma validate_email_rejected (env : Env) (n p : option string) (e : string) :
  set_email e <> EmptyString ->
  Regex.test Regex.email_pattern (set_email e) = false ->
  exists err errs,
    validate (construct env {| in_name := n; in_email := Some e;
                               in_password := p |}) = err :: errs.
Proof.
  intros Hne Hre. unfold validate, construct.
  cbn [d_name d_email d_password in_name in_email in_password].
  change (set_email <$> Some e) with (Some (set_email e)).
  rewrite (required_ok _ _ Hne).
  unfold match_. destruct (set_email e) as [|c s]; [congruence|].
  rewrite Hre.
  change (path_error "email"
            [None; Some "Please provide a valid email"])
    with [("email", "Please provide a valid email")].
  destruct (path_error "name" _) as [|x xs]; simpl; eauto.
Qed.

(** C9.  A register request that passes the validators of the route,
    with equal passwords and an email that no stored user has, but
    whose top-level domain is longer than three characters, is
    rejected by the email pattern of the schema when the document is
    created: the reply is 500 "Server error during registration" and
    nothing is stored.  (The witness is alice@example.info.) *)
Theorem register_long_tld_is_500 (lib : Library) (cfg : Config) (env : Env)
  (req : Request) (st : Store) (e t : string) :
  validation (Validator.run_all (Validator.registerValidation lib) req)
    = [] ->
  body req !! "password" = body req !! "confirmPassword" ->
  body (Validator.run_all (Validator.registerValidation lib) req) !! "email"
    = Some e ->
  findOne_email (Str.toLowerCase e) st = None ->
  Str.afterLastDot (set_email (Str.toLowerCase e)) = Some t ->
  (3 < String.length t)%nat ->
  Regex.test Regex.email_pattern (set_email (Str.toLowerCase e)) = false
  /\ status (fst (Routes.POST_register lib cfg env req st)) = 500
  /\ message_of (fst (Routes.POST_register lib cfg env req st))
     = Js.VStr "Server error during registration"
  /\ snd (Routes.POST_register lib cfg env req st) = st.
Proof.
  intros Hv Hpw He Hf Ht Hlen.
  pose proof (long_tld_rejected _ _ Ht Hlen) as Hre.
  split; [exact Hre|].
  destruct (ValidatorFacts.registerValidation_body lib req)
    as (_ & _ & Hp & Hc).
  assert (set_email (Str.toLowerCase e) <> EmptyString) as Hne.
  { intros E. rewrite E in Ht. discriminate Ht. }
  destruct (validate_email_rejected env
              (body (Validator.run_all (Validator.registerValidation lib) req)
                 !! "name")
              (body (Validator.run_all (Validator.registerValidation lib) req)
                 !! "password")
              (Str.toLowerCase e) Hne Hre) as (err & errs & Hval).
  unfold Routes.POST_register.
  rewrite (register_invalid_document lib cfg env _ st e err errs Hv);
    try assumption.
  - repeat split; reflexivity.
  - now rewrite Hp, Hc.
Qed.

Lemma register_long_tld_is_500_witness :
  Regex.test Regex.email_pattern "alice@example.info" = false
  /\ status (fst (Routes.POST_register Reference.lib Reference.cfg
                    (Reference.env_at 1000 "u1")
                    Reference.register_info [])) = 500
  /\ message_of (fst (Routes.POST_register Reference.lib Reference.cfg
                        (Reference.env_at 1000 "u1")
                        Reference.register_info []))
     = Js.VStr "Server error during registration"
  /\ snd (Routes.POST_register Reference.lib Reference.cfg
            (Reference.env_at 1000 "u1") Reference.register_info []) = [].
Proof.
  apply (register_long_tld_is_500 Reference.lib Reference.cfg
           (Reference.env_at 1000 "u1") Reference.register_info []
           "alice@example.info" "info");
    first [vm_compute; reflexivity | simpl; lia].
Defined.

(** C10.  A user that Register creates has [lastLogin] set, to the
    clock reading of its schema default taken while the document is
    built, next to the reading that gives [createdAt]; the two differ
    by no more than the clock moved between them.  The profile in the
    201 reply carries this [lastLogin] as a date. *)
Theorem register_sets_lastLogin (lib : Library) (cfg : Config) (env : Env)
  (req : Request) (st : Store) :
  status (fst (Routes.POST_register lib cfg env req st)) = 201 ->
  exists u,
    snd (Routes.POST_register lib cfg env req st) = (st ++ [u])%list
    /\ createdAt u = Some (now_createdAt env)
    /\ lastLogin u = Some (now_lastLogin env)
    /\ Js.get "lastLogin"
         (Js.get "user" (json (fst (Routes.POST_register lib cfg env req st))))
       = Js.VDate (now_lastLogin env)
    /\ Js.get "registeredAt"
         (Js.get "user" (json (fst (Routes.POST_register lib cfg env req st))))
       = Js.VDate (now_createdAt env)
    /\ (forall delta,
          Z.abs (now_lastLogin env - now_createdAt env) <= delta ->
          exists c l, createdAt u = Some c /\ lastLogin u = Some l
                      /\ Z.abs (l - c) <= delta).
Proof.
  unfold Routes.POST_register. intros Hs.
  destruct (register_cases lib cfg env
              (Validator.run_all (Validator.registerValidation lib) req) st)
    as [[_ He]|(n & e & p & _ & _ & _ & _ & _ & _ & _ & E)].
  - unfold Spec.error_status in He. lia.
  - rewrite E in Hs |- *. cbn [fst snd] in Hs |- *.
    destruct (session_outcome_cases lib cfg env 201
                "Registration successful" "Server error during registration"
                (hydrate true
                   (Spec.new_record lib env n (Str.toLowerCase e) p)))
      as [(t & c & _ & _ & R)|(err & _ & R)]; rewrite R in Hs |- *;
      [|discriminate Hs].
    eexists. split; [reflexivity|].
    repeat split; try reflexivity.
    intros delta Hd. eexists _, _. repeat split; try reflexivity. exact Hd.
Qed.

Lemma register_sets_lastLogin_witness :
  exists u,
    snd (Routes.POST_register Reference.lib Reference.cfg
           (Reference.env_at 1000 "u1") Reference.alice_register [])
      = [u]
    /\ createdAt u = Some 1000 /\ lastLogin u = Some 1001
    /\ Js.get "lastLogin"
         (Js.get "user"
            (json (fst (Routes.POST_register Reference.lib Reference.cfg
                          (Reference.env_at 1000 "u1")
                          Reference.alice_register []))))
       = Js.VDate 1001.
Proof.
  destruct (register_sets_lastLogin Reference.lib Reference.cfg
              (Reference.env_at 1000 "u1") Reference.alice_register [])
    as (u & H1 & H2 & H3 & H4 & _).
  - vm_compute. reflexivity.
  - exists u. auto.
Defined.

End SchemaClaims.

(* ================================================================== *)
(** * What the collection holds *)

Module StoreProperties.
Import User AuthController ModelFacts HandlerFacts HandlerEquations.

Lemma first_error_None3 (a b c : option string) :
  first_error [a; b; c] = None -> a = None /\ b = None /\ c = None.
Proof. destruct a, b, c; simpl; intros H; try discriminate; auto. Qed.

Lemma first_error_None2 (a b : option string) :
  first_error [a; b] = None -> a = None /\ b = None.
Proof. destruct a, b; simpl; intros H; try discriminate; auto. Qed.

Lemma path_error_nil (path : string) (checks : list (option string)) :
  path_error path checks = [] -> first_error checks = None.
Proof. unfold path_error. now destruct (first_error checks). Qed.

Lemma minlength_inv (k : nat) (m s : string) :
  minlength k m (Some s) = None -> (k <= Str.length s)%nat.
Proof.
  unfold minlength. destruct (k <=? Str.length s)%nat eqn:E;
    [intros _; now apply Nat.leb_le | discriminate].
Qed.

Lemma maxlength_inv (k : nat) (m s : string) :
  maxlength k m (Some s) = None -> (Str.length s <= k)%nat.
Proof.
  unfold maxlength. destruct (Str.length s <=? k)%nat eqn:E;
    [intros _; now apply Nat.leb_le | discriminate].
Qed.

Lemma match_inv (r : Regex.re) (m m' s : string) :
  required m (Some s) = None -> match_ r m' (Some s) = None ->
  Regex.test r s = true.
Proof.
  destruct s as [|c s]; [discriminate|]. intros _. unfold match_.
  now destruct (Regex.test r (String c s)).
Qed.

(** What a document has passed when the schema validation finds no
    error. *)
Lemma validate_inv (env : Env) (n e p : string) :
  validate (construct env {| in_name := Some n; in_email := Some e;
                             in_password := Some p |}) = [] ->
  (2 <= Str.length (set_name n) <= 50)%nat
  /\ Regex.test Regex.email_pattern (set_email e) = true
  /\ (6 <= Str.length p)%nat.
Proof.
  unfold validate, construct.
  cbn [d_name d_email d_password in_name in_email in_password].
  change (set_name <$> Some n) with (Some (set_name n)).
  change (set_email <$> Some e) with (Some (set_email e)).
  intros H. destruct (app_eq_nil _ _ H) as [H1 H23].
  destruct (app_eq_nil _ _ H23) as [H2 H3].
  apply path_error_nil, first_error_None3 in H1 as (_ & Hmin & Hmax).
  apply path_error_nil, first_error_None2 in H2 as (Hreq & Hmatch).
  apply path_error_nil, first_error_None2 in H3 as (_ & Hpw).
  split; [split; [eapply minlength_inv | eapply maxlength_inv]; eassumption|].
  split; [eapply match_inv; eassumption | eapply minlength_inv; eassumption].
Qed.

Lemma new_record_well_formed (lib : Library) (env : Env) (n e p : string) :
  validate (construct env {| in_name := Some n; in_email := Some e;
                             in_password := Some p |}) = [] ->
  Spec.well_formed lib (Spec.new_record lib env n e p).
Proof.
  intros V. destruct (validate_inv env n e p V) as (Hn & He & Hp).
  unfold Spec.well_formed, Spec.new_record. cbn [name email password].
  repeat split; try tauto.
  - unfold set_name. apply StrFacts.trim_idem.
  - exists p, (genSalt env). auto.
Qed.

Lemma well_formed_touch (lib : Library) (env : Env) (r : Stored) :
  Spec.well_formed lib r -> Spec.well_formed lib (Spec.touch env r).
Proof. unfold Spec.well_formed. simpl. tauto. Qed.

Lemma reachable_well_formed (lib : Library) (cfg : Config) (st : Store) :
  Spec.reachable lib cfg st -> Forall (Spec.well_formed lib) st.
Proof.
  induction 1 as [|env req st _ IH|env req st _ IH|env req st _ IH
                  |env req st _ IH|env req st _ IH].
  - constructor.
  - unfold Routes.POST_register.
    set (req' := Validator.run_all (Validator.registerValidation lib) req).
    destruct (register_outcomes lib cfg env req' st)
      as [[-> _]|(n & e & p & _ & _ & _ & _ & _ & _ & V & _ & E)];
      [assumption|].
    rewrite E. cbn [snd]. apply Forall_app. split; [assumption|].
    constructor; [now apply new_record_well_formed | constructor].
  - unfold Routes.POST_login.
    eapply kept_or_touched_Forall; [|apply login_touches|exact IH].
    intros r. apply well_formed_touch.
  - unfold Routes.GET_profile.
    rewrite protected_store; [assumption|apply getProfile_store].
  - unfold Routes.POST_logout.
    rewrite protected_store; [assumption|reflexivity].
  - unfold Routes.GET_verify.
    rewrite protected_store; [assumption|reflexivity].
Qed.

Lemma find_unique {K : Type} (key : Stored -> string) (r : Stored)
  (st : Store) :
  NoDup (map key st) -> In r st ->
  List.find (fun x => String.eqb (key x) (key r)) st = Some r.
Proof.
  induction st as [|a st IH]; simpl; [contradiction|].
  intros Hnd Hin. apply NoDup_cons in Hnd as [Hnin Hnd].
  destruct Hin as [->|Hin].
  - now rewrite String.eqb_refl.
  - destruct (String.eqb (key a) (key r)) eqn:E.
    + apply String.eqb_eq in E. exfalso. apply Hnin. rewrite E.
      apply list_elem_of_In, in_map, Hin.
    + now apply IH.
Qed.

(** In every collection the service builds, a stored user is found by
    its [_id] and by its email, and no other stored user has the same
    email or the same [_id]. *)
Theorem stored_user_lookup (lib : Library) (cfg : Config) (st : Store)
  (r : Stored) :
  Spec.reachable lib cfg st -> In r st ->
  findById (_id r) st = Some r
  /\ findOne_email (email r) st = Some r
  /\ (forall r', In r' st -> email r' = email r \/ _id r' = _id r -> r' = r).
Proof.
  intros Hreach Hin.
  destruct (reachable_invariant lib cfg st Hreach) as (_ & _ & He & Hi).
  assert (findById (_id r) st = Some r) as Hid
    by (apply (find_unique (K := unit) _id); assumption).
  assert (findOne_email (email r) st = Some r) as Hem
    by (apply (find_unique (K := unit) email); assumption).
  repeat split; try assumption.
  intros r' Hin' [E|E].
  - pose proof (find_unique (K := unit) email r' st He Hin') as H'.
    rewrite E in H'. unfold findOne_email in Hem. congruence.
  - pose proof (find_unique (K := unit) _id r' st Hi Hin') as H'.
    rewrite E in H'. unfold findById in Hid. congruence.
Qed.

Lemma stored_user_lookup_witness :
  findById "u1" Reference.after_alice = Some Reference.alice
  /\ findOne_email "alice@example.com" Reference.after_alice
     = Some Reference.alice.
Proof.
  destruct (stored_user_lookup Reference.lib Reference.cfg
              Reference.after_alice Reference.alice) as (H1 & H2 & _).
  - apply Spec.reach_register, Spec.reach_empty.
  - vm_compute. left; reflexivity.
  - split; [exact H1 | exact H2].
Defined.

Lemma all_word_ascii (w : string) :
  Str.all_word w = true -> Str.all_chars (Str.in_range 0 127) w = true.
Proof.
  induction w as [|c w IH]; cbn [Str.all_word Str.all_chars];
    [reflexivity|].
  intros H. apply andb_true_iff in H as [Hc Hw]. rewrite (IH Hw), andb_true_r.
  revert Hc. destruct c as [[] [] [] [] [] [] [] []]; vm_compute; congruence.
Qed.

(** In every collection the service builds, a stored user has a trimmed
    name whose [length] is 2 to 50, a trimmed lower-case email that the
    schema pattern accepts (so its top-level domain is 2 or 3
    characters of [\w]), as password the bcrypt hash of a plaintext
    whose [length] is at least 6, and its three dates set. *)
Theorem stored_user_well_formed (lib : Library) (cfg : Config) (st : Store)
  (r : Stored) :
  Spec.reachable lib cfg st -> In r st ->
  Str.trim (name r) = name r
  /\ (2 <= Str.length (name r) <= 50)%nat
  /\ Regex.test Regex.email_pattern (email r) = true
  /\ (exists p salt, (6 <= Str.length p)%nat
                     /\ password r = bcrypt_hash lib p salt)
  /\ Spec.normal_email r /\ Spec.dated r
  /\ exists w, Str.afterLastDot (email r) = Some w
               /\ Str.all_word w = true
               /\ (2 <= Str.length w <= 3)%nat.
Proof.
  intros Hreach Hin.
  pose proof (reachable_well_formed lib cfg st Hreach) as Hwf.
  destruct (reachable_invariant lib cfg st Hreach) as (Hn & Hd & _).
  rewrite Forall_forall in Hwf, Hn, Hd.
  apply list_elem_of_In in Hin.
  destruct (Hwf r Hin) as (W1 & W2 & W3 & W4).
  do 4 (split; [assumption|]).
  split; [now apply Hn|]. split; [now apply Hd|].
  destruct (RegexFacts.email_pattern_tld _ W3) as (w & Hw & Hword & Hl).
  exists w. split; [exact Hw|]. split; [exact Hword|].
  now rewrite (StrFacts.length_ascii w (all_word_ascii w Hword)).
Qed.

Lemma stored_user_well_formed_witness :
  (2 <= Str.length (name Reference.alice) <= 50)%nat
  /\ Spec.normal_email Reference.alice.
Proof.
  destruct (stored_user_well_formed Reference.lib Reference.cfg
              Reference.after_alice Reference.alice)
    as (_ & H1 & _ & _ & H2 & _).
  - apply Spec.reach_register, Spec.reach_empty.
  - vm_compute. left; reflexivity.
  - split; [exact H1 | exact H2].
Defined.

(** Register writes one document or none, and writes it before it
    signs the token.  A 201 appends exactly one document to the
    collection; a 400 leaves the collection as it was; a 500 leaves it
    as it was, unless the document was written and then [jwt.sign] or
    [res.cookie] threw: in that case the new document stays in the
    collection although the reply reports a failure.  So with a
    [JWT_EXPIRE] that [jwt.sign] refuses for every payload, no request
    is answered 201. *)
Theorem register_appends_one (lib : Library) (cfg : Config) (env : Env)
  (req : Request) (st : Store) :
  ((status (fst (Routes.POST_register lib cfg env req st)) = 201
    /\ exists u, snd (Routes.POST_register lib cfg env req st)
                 = (st ++ [u])%list
                 /\ findOne_email (email u) st = None
                 /\ findById (_id u) st = None)
   \/ (status (fst (Routes.POST_register lib cfg env req st)) = 400
       /\ snd (Routes.POST_register lib cfg env req st) = st)
   \/ (status (fst (Routes.POST_register lib cfg env req st)) = 500
       /\ (snd (Routes.POST_register lib cfg env req st) = st
           \/ exists u e,
                snd (Routes.POST_register lib cfg env req st)
                = (st ++ [u])%list
                /\ findOne_email (email u) st = None
                /\ findById (_id u) st = None
                /\ fst (Routes.POST_register lib cfg env req st)
                   = server_error cfg "Server error during registration" e
                /\ (jwt_sign lib {| jwt_id := _id u; jwt_email := email u |}
                      (JWT_SECRET cfg) (JWT_EXPIRE cfg) (now_jwt env)
                    = inl e
                    \/ (cookieDate lib cfg env = None
                        /\ e = InvalidExpires)))))
  /\ ((forall p, exists e,
         jwt_sign lib p (JWT_SECRET cfg) (JWT_EXPIRE cfg) (now_jwt env)
         = inl e) ->
      status (fst (Routes.POST_register lib cfg env req st)) <> 201).
Proof.
  unfold Routes.POST_register.
  set (req' := Validator.run_all (Validator.registerValidation lib) req).
  destruct (register_outcomes lib cfg env req' st)
    as [[Hst [Hs|Hs]]|(n & e & p & _ & _ & _ & _ & _ & _ & _ & Hc & E)].
  - split; [right; left; auto|]. intros _. lia.
  - split; [right; right; auto|]. intros _. lia.
  - set (u := Spec.new_record lib env n (Str.toLowerCase e) p) in *.
    destruct (index_conflict_find u st Hc) as [Hem Hid].
    rewrite E. cbn [fst snd].
    unfold Spec.session_outcome, session_response.
    change (generateAuthToken lib cfg env (hydrate true u))
      with (jwt_sign lib {| jwt_id := _id u; jwt_email := email u |}
              (JWT_SECRET cfg) (JWT_EXPIRE cfg) (now_jwt env)).
    destruct (jwt_sign lib {| jwt_id := _id u; jwt_email := email u |}
                (JWT_SECRET cfg) (JWT_EXPIRE cfg) (now_jwt env))
      as [err|token] eqn:S.
    + split; [|intros _; discriminate].
      right. right. split; [reflexivity|]. right. exists u, err. auto 10.
    + unfold sessionCookie.
      destruct (cookieDate lib cfg env) as [t|] eqn:D.
      * split.
        -- left. split; [reflexivity|]. exists u. auto.
        -- intros H. destruct (H {| jwt_id := _id u; jwt_email := email u |})
             as [err Herr]. congruence.
      * split.
        -- right. right. split; [reflexivity|]. right.
           exists u, InvalidExpires. auto 10.
        -- intros _. discriminate.
Qed.

Lemma register_appends_one_witness :
  Routes.POST_register Reference.lib Reference.documented
    (Reference.env_at 1000 "u1") Reference.alice_register []
  = (server_error Reference.documented "Server error during registration"
       (mkError "Error"
          "expiresIn should be a number of seconds or string representing a timespan"),
     [Reference.alice])
  /\ status (fst (Routes.POST_register Reference.lib Reference.documented
                    (Reference.env_at 1000 "u1") Reference.alice_register []))
     <> 201.
Proof.
  split; [vm_compute; reflexivity|].
  apply (register_appends_one Reference.lib Reference.documented
           (Reference.env_at 1000 "u1") Reference.alice_register []).
  intros p. eexists. reflexivity.
Defined.

End StoreProperties.

(* ================================================================== *)
(** * Sessions: what the replies carry *)

Module SessionProperties.
Import User AuthController ModelFacts HandlerFacts HandlerEquations
  RouteEquations.

(** A user who has registered can log in: a register request that passes
    the validators, with equal passwords, a name and a password of the
    lengths the schema asks for, an email that the schema accepts and
    that is free, is answered 201 with the session reply; a login that
    follows with the same email and password is answered 200 with the
    session reply and leaves the identity of the new user as it was.
    (The library is assumed to normalize the email to a trimmed string,
    to verify the password against the hash it has just made and to
    sign the token of the new user at both requests, for which
    [JWT_SECRET] and [JWT_EXPIRE] must be usable; the date of the cookie
    is assumed to exist at both requests.) *)
Theorem register_then_login (lib : Library) (cfg : Config) (env1 env2 : Env)
  (req1 req2 : Request) (st : Store) (n raw p e t1 t2 : string) (d1 d2 : Z) :
  validation req1 = [] ->
  Validator.accepts (Validator.registerValidation lib) req1 = true ->
  body req1 !! "name" = Some n ->
  body req1 !! "email" = Some raw ->
  body req1 !! "password" = Some p ->
  body req1 !! "confirmPassword" = Some p ->
  validation req2 = [] ->
  body req2 !! "email" = Some raw ->
  body req2 !! "password" = Some p ->
  normalizeEmail lib (Str.trim raw) = Some e ->
  Str.trim e = e ->
  (2 <= Str.length (Str.trim n) <= 50)%nat ->
  Regex.test Regex.email_pattern (Str.toLowerCase e) = true ->
  (6 <= Str.length p)%nat ->
  findOne_email (Str.toLowerCase e) st = None ->
  findById (new_ObjectId env1) st = None ->
  bcrypt_compare lib p (bcrypt_hash lib p (genSalt env1)) = true ->
  jwt_sign lib {| jwt_id := new_ObjectId env1;
                  jwt_email := Str.toLowerCase e |}
    (JWT_SECRET cfg) (JWT_EXPIRE cfg) (now_jwt env1) = inr t1 ->
  jwt_sign lib {| jwt_id := new_ObjectId env1;
                  jwt_email := Str.toLowerCase e |}
    (JWT_SECRET cfg) (JWT_EXPIRE cfg) (now_jwt env2) = inr t2 ->
  cookieDate lib cfg env1 = Some d1 ->
  cookieDate lib cfg env2 = Some d2 ->
  exists u u' c1 c2,
    Routes.POST_register lib cfg env1 req1 st
    = (session_reply 201 "Registration successful" t1 c1 (hydrate true u),
       (st ++ [u])%list)
    /\ sessionCookie lib cfg env1 t1 = inr c1
    /\ email u = Str.toLowerCase e
    /\ Routes.POST_login lib cfg env2 req2 (st ++ [u])%list
       = (session_reply 200 "Login successful" t2 c2 (hydrate true u'),
          (st ++ [u'])%list)
    /\ sessionCookie lib cfg env2 t2 = inr c2
    /\ Spec.same_identity u u'
    /\ lastLogin u' = Some (now_lastLogin env2).
Proof.
  intros Hv1 Hacc Hn Hraw Hp Hc Hv2 Hraw2 Hp2 Hnorm Htrim Hnlen Hre Hplen
    Hfree Hid Hbc Ht1 Ht2 Hd1 Hd2.
  assert (set_email (Str.toLowerCase e) = Str.toLowerCase e) as Hset.
  { unfold set_email.
    now rewrite StrFacts.toLowerCase_idem, <- StrFacts.toLowerCase_trim, Htrim. }
  set (u := Spec.new_record lib env1 (Str.trim n) (Str.toLowerCase e) p).
  assert (email u = Str.toLowerCase e) as Hemail by exact Hset.
  assert (index_conflict u st = false) as Hconf.
  { unfold index_conflict. apply not_true_is_false. intros H.
    apply existsb_exists in H as (r & Hin & H).
    apply orb_true_iff in H as [H|H]; apply String.eqb_eq in H.
    - unfold findById in Hid.
      apply (find_none _ _ Hid) in Hin. cbn [_id u Spec.new_record] in H.
      now rewrite H, String.eqb_refl in Hin.
    - unfold findOne_email in Hfree.
      apply (find_none _ _ Hfree) in Hin. rewrite Hemail in H.
      now rewrite H, String.eqb_refl in Hin. }
  destruct (accepts_register lib req1 n raw p p Hn Hraw Hp Hc Hacc)
    as (_ & _ & _ & Hrne & Hmail & Hpne & _).
  assert (forall env t d,
            jwt_sign lib {| jwt_id := new_ObjectId env1;
                            jwt_email := Str.toLowerCase e |}
              (JWT_SECRET cfg) (JWT_EXPIRE cfg) (now_jwt env) = inr t ->
            cookieDate lib cfg env = Some d ->
            forall code message on_error v,
              _id v = new_ObjectId env1 -> email v = Str.toLowerCase e ->
              Spec.session_outcome lib cfg env code message on_error
                (hydrate true v)
              = session_reply code message t
                  {| cookie_name := "token"; cookie_value := t;
                     expires := d; httpOnly := true;
                     secure := bool_decide (NODE_ENV cfg = Some "production");
                     sameSite := Some "strict" |} (hydrate true v)
              /\ sessionCookie lib cfg env t
                 = inr {| cookie_name := "token"; cookie_value := t;
                          expires := d; httpOnly := true;
                          secure := bool_decide
                                      (NODE_ENV cfg = Some "production");
                          sameSite := Some "strict" |}) as Hout.
  { intros env t d Ht Hd code message on_error v Hvid Hvem. split.
    - apply session_outcome_ok; [|exact Hd].
      change (generateAuthToken lib cfg env (hydrate true v))
        with (jwt_sign lib {| jwt_id := _id v; jwt_email := email v |}
                (JWT_SECRET cfg) (JWT_EXPIRE cfg) (now_jwt env)).
      now rewrite Hvid, Hvem.
    - unfold sessionCookie. now rewrite Hd. }
  exists u.
  assert (Routes.POST_register lib cfg env1 req1 st
          = (Spec.session_outcome lib cfg env1 201 "Registration successful"
               "Server error during registration"
               (hydrate true u), (st ++ [u])%list)) as Hreg.
  { rewrite (POST_register_ok lib cfg env1 req1 st n raw p e);
      try assumption.
    - fold u. now rewrite Hconf.
    - now rewrite Hset. }
  assert (findOne_email (Str.toLowerCase e) (st ++ [u])%list = Some u) as Hf.
  { rewrite (findOne_email_app _ st [u] Hfree). unfold findOne_email.
    cbn [List.find]. now rewrite Hemail, String.eqb_refl. }
  assert (Validator.accepts (Validator.loginValidation lib) req2 = true)
    as Hacc2.
  { apply (ScenarioClaims.accepts_login_intro lib req2 raw p);
      assumption. }
  pose proof (POST_login_ok lib cfg env2 req2 (st ++ [u])%list raw p e u
                Hv2 Hacc2 Hraw2 Hp2 Hnorm Hf Hbc) as Hlog.
  destruct (Hout env1 t1 d1 Ht1 Hd1 201 "Registration successful"
              "Server error during registration" u eq_refl Hemail)
    as [Ho1 Hk1].
  rewrite Ho1 in Hreg.
  destruct (bool_decide (lastLogin u = Some (now_lastLogin env2))) eqn:Ell.
  - apply bool_decide_eq_true in Ell.
    destruct (Hout env2 t2 d2 Ht2 Hd2 200 "Login successful"
                "Server error during login" u eq_refl Hemail) as [Ho2 Hk2].
    rewrite Ho2 in Hlog.
    exists u. do 2 eexists. rewrite Hlog, Hreg.
    repeat split; try reflexivity; try eassumption.
  - rewrite (updateOne_app _ _ st [u] Hid) in Hlog.
    assert (updateOne (new_ObjectId env1) (Spec.touch env2) [u]
            = Some [Spec.touch env2 u]) as Hup.
    { cbn [updateOne]. change (_id u) with (new_ObjectId env1).
      now rewrite String.eqb_refl. }
    rewrite Hup in Hlog. cbn [fmap option_fmap option_map] in Hlog.
    destruct (Hout env2 t2 d2 Ht2 Hd2 200 "Login successful"
                "Server error during login" (Spec.touch env2 u) eq_refl
                Hemail) as [Ho2 Hk2].
    rewrite Ho2 in Hlog.
    exists (Spec.touch env2 u). do 2 eexists. rewrite Hlog, Hreg.
    repeat split; try reflexivity; try eassumption.
Qed.

Lemma register_then_login_witness :
  exists u u' c1 c2,
    Routes.POST_register Reference.lib Reference.cfg
      (Reference.env_at 1000 "u1") Reference.alice_register []
    = (session_reply 201 "Registration successful" Reference.alice_token c1
         (hydrate true u), [u])
    /\ Routes.POST_login Reference.lib Reference.cfg
         (Reference.env_at 5000 "u2") Reference.alice_register [u]
       = (session_reply 200 "Login successful" Reference.alice_token c2
            (hydrate true u'), [u']).
Proof.
  destruct (register_then_login Reference.lib Reference.cfg
              (Reference.env_at 1000 "u1") (Reference.env_at 5000 "u2")
              Reference.alice_register Reference.alice_register []
              "Alice Smith" "Alice@Example.com" "secret1" "alice@example.com"
              Reference.alice_token Reference.alice_token
              604801004 604805004)
    as (u & u' & c1 & c2 & H1 & _ & _ & H2 & _);
    try (vm_compute; reflexivity); try (vm_compute; lia).
  exists u, u', c1, c2. split; [exact H1 | exact H2].
Defined.

Lemma reply_cookie (lib : Library) (cfg : Config) (env : Env)
  (resp : Response) :
  Spec.reply lib cfg env resp ->
  (set_cookie resp = [] /\ Js.get "token" (json resp) = Js.VUndefined)
  \/ (exists tok cookie, Js.get "token" (json resp) = Js.VStr tok
                         /\ sessionCookie lib cfg env tok = inr cookie
                         /\ set_cookie resp = [cookie]).
Proof.
  intros [errs|code message|message e|code message token cookie d Hc Ht Hk|d];
    simpl; eauto 6.
Qed.

(** The session token travels twice and alike: a reply of Register or
    Login either sets no cookie and has no [token], or has a [token] and
    sets exactly one cookie, [token], with that same value, httpOnly,
    sameSite strict, secure exactly in production, expiring at the date
    that [res.cookie] accepted: 7 days after the clock reading when
    [COOKIE_EXPIRE] is unset or empty, and that number of days after it
    when [COOKIE_EXPIRE] is a number of one to eight decimal digits.  A
    success reply is of the second kind. *)
Theorem session_cookie_carries_token (lib : Library) (cfg : Config)
  (env : Env) (req : Request) (st : Store) (resp : Response) :
  resp = fst (Routes.POST_register lib cfg env req st)
  \/ resp = fst (Routes.POST_login lib cfg env req st) ->
  ((set_cookie resp = [] /\ Js.get "token" (json resp) = Js.VUndefined)
   \/ exists tok t,
        Js.get "token" (json resp) = Js.VStr tok
        /\ set_cookie resp
           = [ {| cookie_name := "token";
                  cookie_value := tok;
                  expires := t;
                  httpOnly := true;
                  secure := bool_decide (NODE_ENV cfg = Some "production");
                  sameSite := Some "strict" |} ]
        /\ cookieDate lib cfg env = Some t
        /\ (Str.truthy (COOKIE_EXPIRE cfg) = false ->
            t = now_cookie env + 7 * 86400000)
        /\ (forall days,
              Str.decimal (Validator.toString (COOKIE_EXPIRE cfg))
              = Some days ->
              t = now_cookie env + days * 86400000))
  /\ (Spec.success_status (status resp) ->
      exists tok, Js.get "token" (json resp) = Js.VStr tok
                  /\ map cookie_value (set_cookie resp) = [tok]).
Proof.
  intros Hresp. split.
  - assert (Spec.reply lib cfg env resp) as Hreply.
    { destruct Hresp as [->| ->];
        [apply ProfileClaims.register_reply | apply ProfileClaims.login_reply]. }
    destruct (reply_cookie lib cfg env resp Hreply)
      as [H|(tok & cookie & Ht & Hk & Hc)]; [now left|].
    destruct (sessionCookie_inr lib cfg env tok cookie Hk) as (t & Hd & ->).
    right. exists tok, t. split; [exact Ht|]. split; [exact Hc|].
    split; [exact Hd|]. unfold cookieDate in Hd. split.
    + intros Hf. rewrite Hf in Hd. injection Hd as <-. lia.
    + intros days Hdays. rewrite Hdays in Hd.
      destruct (Str.truthy (COOKIE_EXPIRE cfg)) eqn:Etr.
      * unfold Js.timeClip in Hd.
        destruct (Z.abs _ <=? _)%Z; [|discriminate].
        injection Hd as <-. lia.
      * exfalso. destruct (COOKIE_EXPIRE cfg) as [s|]; [|discriminate].
        cbn [Str.truthy] in Etr. apply negb_false_iff in Etr.
        apply String.eqb_eq in Etr. subst s. discriminate.
  - intros Hs.
    assert (forall code message on_error d,
              Spec.success_status
                (status (Spec.session_outcome lib cfg env code message
                           on_error d)) ->
              exists tok,
                Js.get "token"
                  (json (Spec.session_outcome lib cfg env code message
                           on_error d)) = Js.VStr tok
                /\ map cookie_value
                     (set_cookie (Spec.session_outcome lib cfg env code
                                    message on_error d)) = [tok]) as Hout.
    { intros code message on_error d.
      destruct (session_outcome_cases lib cfg env code message on_error d)
        as [(t & c & _ & Hk & ->)|(e & _ & ->)].
      - intros _. exists t.
        destruct (sessionCookie_inr lib cfg env t c Hk) as (x & _ & ->).
        split; reflexivity.
      - intros H. exfalso. unfold Spec.success_status in H.
        cbn [status server_error] in H. lia. }
    destruct Hresp as [->| ->].
    + unfold Routes.POST_register in *.
      destruct (register_cases lib cfg env
                  (Validator.run_all (Validator.registerValidation lib) req) st)
        as [[_ He]|(n & e & p & _ & _ & _ & _ & _ & _ & _ & E)].
      * destruct (ProfileClaims.error_not_success _ He Hs).
      * rewrite E in *. cbn [fst] in *. now apply Hout.
    + unfold Routes.POST_login in *.
      destruct (login_cases lib cfg env
                  (Validator.run_all (Validator.loginValidation lib) req) st)
        as [[_ He]|(e & p & r & r' & st' & _ & _ & _ & _ & _ & _ & E)].
      * destruct (ProfileClaims.error_not_success _ He Hs).
      * rewrite E in *. cbn [fst] in *. now apply Hout.
Qed.

Lemma session_cookie_carries_token_witness :
  exists tok,
    Js.get "token"
      (json (fst (Routes.POST_register Reference.lib Reference.cfg
                    (Reference.env_at 1000 "u1")
                    Reference.alice_register []))) = Js.VStr tok
    /\ map cookie_value
         (set_cookie (fst (Routes.POST_register Reference.lib Reference.cfg
                             (Reference.env_at 1000 "u1")
                             Reference.alice_register []))) = [tok].
Proof.
  destruct (session_cookie_carries_token Reference.lib Reference.cfg
              (Reference.env_at 1000 "u1") Reference.alice_register []
              (fst (Routes.POST_register Reference.lib Reference.cfg
                      (Reference.env_at 1000 "u1")
                      Reference.alice_register []))) as [_ H].
  - left. reflexivity.
  - apply H. right. vm_compute. reflexivity.
Defined.

(** Outside development mode no reply of Register, Login or GetProfile
    carries the message of the error that was caught: the [error]
    property is undefined. *)
Theorem error_detail_suppressed (lib : Library) (cfg : Config) (env : Env)
  (req : Request) (st : Store) (resp : Response) :
  NODE_ENV cfg <> Some "development" ->
  resp = fst (Routes.POST_register lib cfg env req st)
  \/ resp = fst (Routes.POST_login lib cfg env req st)
  \/ resp = fst (Routes.GET_profile lib cfg env req st) ->
  Js.get "error" (json resp) = Js.VUndefined.
Proof.
  intros Hmode Hresp.
  assert (Spec.reply lib cfg env resp) as Hreply.
  { destruct Hresp as [->|[->| ->]].
    - apply ProfileClaims.register_reply.
    - apply ProfileClaims.login_reply.
    - apply ProfileClaims.protected_reply. intros.
      apply ProfileClaims.getProfile_cases; assumption. }
  destruct Hreply
    as [errs|code message|message e|code message token cookie d _ _ _|d];
    try reflexivity.
  unfold server_error. cbn [json Js.get Js.assoc String.eqb].
  now rewrite bool_decide_eq_false_2.
Qed.

Lemma error_detail_suppressed_witness :
  Js.get "error"
    (json (fst (Routes.POST_register Reference.lib Reference.cfg
                  (Reference.env_at 1000 "u1") Reference.register_info [])))
  = Js.VUndefined.
Proof.
  apply (error_detail_suppressed Reference.lib Reference.cfg
           (Reference.env_at 1000 "u1") Reference.register_info []).
  - vm_compute. discriminate.
  - left. reflexivity.
Defined.

End SessionProperties.

(* ================================================================== *)
(** * The reference token format *)

Module ReferenceFacts.
Import RegexFacts.

Lemma split_length_pos (sep : ascii) (s : string) :
  (1 <= length (Str.split sep s))%nat.
Proof.
  destruct s as [|c s]; cbn [Str.split]; [cbn; lia|].
  destruct (Ascii.eqb c sep); [cbn; lia|].
  destruct (Str.split sep s); cbn; lia.
Qed.

Lemma split_length_cons (sep c : ascii) (s : string) :
  length (Str.split sep (String c s))
  = if Ascii.eqb c sep then S (length (Str.split sep s))
    else length (Str.split sep s).
Proof.
  pose proof (split_length_pos sep s) as H. cbn [Str.split].
  destruct (Ascii.eqb c sep); [reflexivity|].
  destruct (Str.split sep s); [cbn in H; lia|reflexivity].
Qed.

Lemma split_length_app (sep : ascii) (a b : string) :
  length (Str.split sep (a +:+ String sep b))
  = (length (Str.split sep a) + length (Str.split sep b))%nat.
Proof.
  induction a as [|c a IH].
  - rewrite append_nil_l, split_length_cons, Ascii.eqb_refl. cbn. lia.
  - rewrite append_cons_l, !split_length_cons, IH.
    destruct (Ascii.eqb c sep); lia.
Qed.

Lemma split_length_one (sep : ascii) (s : string) :
  length (Str.split sep s) = 1%nat -> Str.has_char sep s = false.
Proof.
  induction s as [|c s IH]; [reflexivity|].
  rewrite split_length_cons. cbn [Str.has_char].
  pose proof (split_length_pos sep s).
  destruct (Ascii.eqb c sep); [lia|exact IH].
Qed.

Lemma split_app_sep (sep : ascii) (a b : string) :
  Str.has_char sep a = false ->
  Str.split sep (a +:+ String sep b) = a :: Str.split sep b.
Proof.
  induction a as [|c a IH]; intros H.
  - rewrite append_nil_l. cbn [Str.split]. now rewrite Ascii.eqb_refl.
  - cbn [Str.has_char] in H. apply orb_false_iff in H as [Hc Ha].
    rewrite append_cons_l. cbn [Str.split]. now rewrite Hc, (IH Ha).
Qed.

(** The reference [verify] decodes what the reference [sign] has
    produced whenever the token has exactly four fields. *)
Lemma reference_round_trip (p : JwtPayload) (secret : string)
  (expiresIn : option string) (tok : string) (c c' : Z) :
  Str.has_char "|" secret = false ->
  Reference.sign p (Some secret) expiresIn c = inr tok ->
  length (Str.split "|" tok) = 4%nat ->
  Reference.verify tok (Some secret) c' = Decoded p.
Proof.
  intros Hsec. destruct p as [id em]. unfold Reference.sign, Reference.verify.
  destruct (negb (Str.truthy (Some secret))); [discriminate|].
  destruct (negb (Str.truthy expiresIn)); [discriminate|].
  intros [= <-].
  cbn [Str.join jwt_id jwt_email Validator.toString default].
  change ("|" +:+ em +:+ "|" +:+ "live" +:+ "|" +:+ secret)
    with (String "|" (em +:+ String "|" ("live" +:+ String "|" secret))).
  rewrite !split_length_app.
  rewrite (MiddlewareClaims.split_no_sep "|" secret Hsec).
  pose proof (split_length_pos "|" id). pose proof (split_length_pos "|" em).
  change (length (Str.split "|" "live")) with 1%nat.
  cbn [length]. intros HL.
  assert (Str.has_char "|" id = false) as Hid
    by (apply split_length_one; lia).
  assert (Str.has_char "|" em = false) as Hem
    by (apply split_length_one; lia).
  rewrite (split_app_sep "|" id _ Hid), (split_app_sep "|" em _ Hem).
  rewrite (split_app_sep "|" "live" secret eq_refl).
  rewrite (MiddlewareClaims.split_no_sep "|" secret Hsec).
  rewrite String.eqb_refl. reflexivity.
Qed.

End ReferenceFacts.

(* ================================================================== *)
(** * Protected routes *)

Module ProtectedProperties.
Import User AuthController AuthMiddleware ModelFacts HandlerFacts.

(** What [protect] has established when it calls [next()]. *)
Lemma protect_next (lib : Library) (cfg : Config) (env : Env)
  (req q : Request) (st : Store) :
  protect lib cfg env req st = Next q ->
  exists tok p r,
    extractToken req = Some tok /\ tok <> EmptyString
    /\ jwt_verify lib tok (JWT_SECRET cfg) (now_jwt env) = Decoded p
    /\ findById (jwt_id p) st = Some r
    /\ q = attach (Some (identity_of r)) req.
Proof.
  intros H. destruct (Str.truthy (extractToken req)) eqn:T.
  - destruct (MiddlewareClaims.truthy_Some _ T) as (tok & Ht & Hne).
    rewrite (MiddlewareClaims.protect_with_token lib cfg env req st tok Ht Hne)
      in H.
    destruct (jwt_verify lib tok (JWT_SECRET cfg) (now_jwt env)) as [p| | |]
      eqn:V; try discriminate H.
    destruct (findById (jwt_id p) st) as [r|] eqn:F; [|discriminate H].
    injection H as <-. exists tok, p, r. auto.
  - rewrite (MiddlewareClaims.protect_no_token lib cfg env req st T) in H.
    discriminate H.
Qed.

(** On one state of the collection GET /profile never answers 404: the
    user that the middleware has just resolved is the user the handler
    looks up.  When the middleware lets the request through, the reply
    is 200 with the public profile of the stored user that the token
    names, and the collection is unchanged. *)
Theorem profile_of_resolved_user (lib : Library) (cfg : Config) (env : Env)
  (req : Request) (st : Store) :
  status (fst (Routes.GET_profile lib cfg env req st)) <> 404
  /\ snd (Routes.GET_profile lib cfg env req st) = st
  /\ (forall q, protect lib cfg env req st = Next q ->
        exists r, In r st /\ user q = Some (identity_of r)
          /\ fst (Routes.GET_profile lib cfg env req st)
             = {| status := 200;
                  json := Js.VObj
                    [ ("success", Js.VBool true);
                      ("user", getPublicProfile (hydrate false r)) ];
                  set_cookie := [] |}).
Proof.
  assert (forall q, protect lib cfg env req st = Next q ->
            exists r, In r st /\ user q = Some (identity_of r)
              /\ getProfile cfg q st
                 = ({| status := 200;
                       json := Js.VObj
                         [ ("success", Js.VBool true);
                           ("user", getPublicProfile (hydrate false r)) ];
                       set_cookie := [] |}, st)) as Hnext.
  { intros q Hq.
    destruct (protect_next lib cfg env req q st Hq)
      as (tok & p & r & _ & _ & _ & Hf & ->).
    destruct (findById_In _ _ _ Hf) as [Hin Hid].
    exists r. split; [exact Hin|]. split; [reflexivity|].
    unfold getProfile, Exc.try_catch, getProfile_try.
    cbn [user attach identity_of ru_id]. unfold Exc.bind, Exc.get.
    rewrite Hid, Hf. reflexivity. }
  split; [|split].
  - unfold Routes.GET_profile, Routes.protected.
    destruct (protect lib cfg env req st) as [resp|q] eqn:Hp.
    + unfold protect, protect_try in Hp.
      destruct (negb _); [injection Hp as <-; discriminate|].
      destruct (jwt_verify lib _ _ _); try (injection Hp as <-; discriminate).
      destruct (findById _ st); [discriminate Hp|injection Hp as <-; discriminate].
    + destruct (Hnext q eq_refl) as (r & _ & _ & ->). discriminate.
  - unfold Routes.GET_profile. apply protected_store, getProfile_store.
  - intros q Hq. destruct (Hnext q Hq) as (r & Hin & Hu & E).
    exists r. split; [exact Hin|]. split; [exact Hu|].
    unfold Routes.GET_profile, Routes.protected. now rewrite Hq, E.
Qed.

Lemma profile_of_resolved_user_witness :
  exists r, In r [Reference.alice]
    /\ fst (Routes.GET_profile Reference.lib Reference.cfg
              (Reference.env_at 5000 "u2")
              (Reference.with_bearer Reference.alice_token) [Reference.alice])
       = {| status := 200;
            json := Js.VObj
              [ ("success", Js.VBool true);
                ("user", getPublicProfile (hydrate false r)) ];
            set_cookie := [] |}.
Proof.
  destruct (profile_of_resolved_user Reference.lib Reference.cfg
              (Reference.env_at 5000 "u2")
              (Reference.with_bearer Reference.alice_token) [Reference.alice])
    as (_ & _ & H).
  destruct (H (attach (Some (identity_of Reference.alice))
                 (Reference.with_bearer Reference.alice_token)))
    as (r & Hin & _ & E).
  - vm_compute. reflexivity.
  - exists r. split; [exact Hin | exact E].
Defined.

(** [optionalAuth] resolves the identity as [protect] does: on a
    request without identity, where [protect] would let the request
    through, [optionalAuth] passes on the very same request with the
    same identity; where [protect] would reject, [optionalAuth] passes
    the request on with no identity.  It never changes the cookies, the
    headers or the body. *)
Theorem optionalAuth_agrees_with_protect (lib : Library) (cfg : Config)
  (env : Env) (req : Request) (st : Store) :
  user req = None ->
  (forall q, protect lib cfg env req st = Next q ->
     optionalAuth lib cfg env req st = q)
  /\ (forall resp, protect lib cfg env req st = Reject resp ->
        user (optionalAuth lib cfg env req st) = None)
  /\ cookies (optionalAuth lib cfg env req st) = cookies req
  /\ headers (optionalAuth lib cfg env req st) = headers req
  /\ body (optionalAuth lib cfg env req st) = body req.
Proof.
  intros Hu. unfold protect, protect_try, optionalAuth.
  destruct (Str.truthy (extractToken req)); cbn [negb].
  - destruct (jwt_verify lib _ _ _) as [p| | |].
    + destruct (findById (jwt_id p) st) as [r|].
      * repeat split; try reflexivity; [congruence | discriminate].
      * repeat split; try reflexivity; [discriminate | auto].
    + repeat split; try reflexivity; discriminate.
    + repeat split; try reflexivity; discriminate.
    + repeat split; try reflexivity; discriminate.
  - repeat split; try reflexivity; [discriminate | auto].
Qed.

Lemma optionalAuth_agrees_with_protect_witness :
  optionalAuth Reference.lib Reference.cfg (Reference.env_at 5000 "u2")
    (Reference.with_cookie Reference.alice_token) [Reference.alice]
  = attach (Some (identity_of Reference.alice))
      (Reference.with_cookie Reference.alice_token)
  /\ user (optionalAuth Reference.lib Reference.cfg
             (Reference.env_at 5000 "u2")
             (Reference.with_cookie Reference.stale_token) [Reference.alice])
     = None.
Proof.
  split.
  - destruct (optionalAuth_agrees_with_protect Reference.lib Reference.cfg
                (Reference.env_at 5000 "u2")
                (Reference.with_cookie Reference.alice_token)
                [Reference.alice] eq_refl) as (H & _).
    apply H. vm_compute. reflexivity.
  - destruct (optionalAuth_agrees_with_protect Reference.lib Reference.cfg
                (Reference.env_at 5000 "u2")
                (Reference.with_cookie Reference.stale_token)
                [Reference.alice] eq_refl) as (_ & H & _).
    apply (H (failure 401 "Token expired. Please login again.")).
    vm_compute. reflexivity.
Defined.

Lemma extract_cookie (req : Request) (tok : string) :
  cookies req !! "token" = Some tok -> tok <> EmptyString ->
  extractToken req = Some tok.
Proof.
  intros Hc Hne. unfold extractToken. rewrite Hc. cbn [Str.truthy].
  apply String.eqb_neq in Hne. now rewrite Hne.
Qed.

Lemma extract_bearer (req : Request) (tok : string) :
  cookies req !! "token" = None ->
  headers req !! "authorization" = Some ("Bearer " +:+ tok) ->
  Str.has_char " " tok = false ->
  extractToken req = Some tok.
Proof.
  intros Hc Hh Hs. unfold extractToken. rewrite Hc, Hh.
  cbn [Str.truthy Str.startsWith].
  change (String.prefix "Bearer" ("Bearer " +:+ tok)) with true.
  rewrite andb_true_r.
  destruct (String.eqb ("Bearer " +:+ tok) EmptyString) eqn:E;
    [apply String.eqb_eq in E; discriminate E|].
  cbn [negb]. now apply MiddlewareClaims.split_bearer.
Qed.

Lemma findById_snoc (u : Stored) (st : Store) :
  findById (_id u) st = None ->
  findById (_id u) (st ++ [u])%list = Some u.
Proof.
  unfold findById. induction st as [|a st IH]; cbn [List.find app].
  - now rewrite String.eqb_refl.
  - destruct (String.eqb (_id a) (_id u)); [discriminate|exact IH].
Qed.

(** The token that Register issues opens the protected routes for the
    new user, in the cookie or in the header, and a logout does not
    close them.  If jsonwebtoken decodes the issued token, at the later
    clock reading, to the payload it was signed from, then GET /verify
    answers 200 with the [_id], name and email of the new user for a
    request that carries the token in the cookie, or in a Bearer header
    with no cookie, on the collection as Register left it and as a
    logout leaves it.  (Nothing on the server revokes a token.) *)
Theorem issued_token_resolves (lib : Library) (cfg : Config)
  (env1 env2 env3 : Env) (req req3 : Request) (st : Store) (tok : string) :
  status (fst (Routes.POST_register lib cfg env1 req st)) = 201 ->
  Js.get "token" (json (fst (Routes.POST_register lib cfg env1 req st)))
    = Js.VStr tok ->
  tok <> EmptyString ->
  Str.has_char " " tok = false ->
  (forall p, jwt_sign lib p (JWT_SECRET cfg) (JWT_EXPIRE cfg) (now_jwt env1)
             = inr tok ->
             jwt_verify lib tok (JWT_SECRET cfg) (now_jwt env2) = Decoded p) ->
  exists u,
    snd (Routes.POST_register lib cfg env1 req st) = (st ++ [u])%list
    /\ forall q st',
         cookies q !! "token" = Some tok
         \/ (cookies q !! "token" = None
             /\ headers q !! "authorization" = Some ("Bearer " +:+ tok)) ->
         st' = (st ++ [u])%list
         \/ st' = snd (Routes.POST_logout lib cfg env3 req3 (st ++ [u])%list) ->
         Routes.GET_verify lib cfg env2 q st'
         = ({| status := 200;
               json := Js.VObj
                 [ ("success", Js.VBool true);
                   ("authenticated", Js.VBool true);
                   ("user", Js.VObj [ ("id", Js.VStr (_id u));
                                      ("name", Js.VStr (name u));
                                      ("email", Js.VStr (email u)) ]) ];
               set_cookie := [] |}, st').
Proof.
  intros Hs Htok Hne Hsp Hjwt.
  revert Hs Htok. unfold Routes.POST_register.
  destruct (register_cases lib cfg env1
              (Validator.run_all (Validator.registerValidation lib) req) st)
    as [[_ He]|(n & e & p & _ & _ & _ & _ & _ & _ & Hc & E)].
  { unfold Spec.error_status in He. intros Hs. lia. }
  rewrite E. cbn [fst snd].
  set (u := Spec.new_record lib env1 n (Str.toLowerCase e) p) in *.
  destruct (session_outcome_cases lib cfg env1 201 "Registration successful"
              "Server error during registration" (hydrate true u))
    as [(t & c & Ht & _ & ->)|(err & _ & ->)]; [|discriminate].
  intros _ Htok.
  exists u. split; [reflexivity|].
  assert (jwt_verify lib tok (JWT_SECRET cfg) (now_jwt env2)
          = Decoded {| jwt_id := _id u; jwt_email := email u |}) as Hv.
  { apply Hjwt. injection Htok as <-. exact Ht. }
  destruct (HandlerEquations.index_conflict_find u st Hc) as [_ Hid].
  pose proof (findById_snoc u st Hid) as Hfind.
  intros q st' Hq Hst'.
  assert (extractToken q = Some tok) as Hext.
  { destruct Hq as [Hq|[Hq1 Hq2]];
      [now apply extract_cookie | now apply extract_bearer]. }
  assert (st' = (st ++ [u])%list) as ->.
  { destruct Hst' as [->| ->]; [reflexivity|].
    unfold Routes.POST_logout. now apply protected_store. }
  unfold Routes.GET_verify, Routes.protected.
  rewrite (MiddlewareClaims.protect_with_token lib cfg env2 q _ tok Hext Hne),
    Hv.
  cbn [jwt_id]. rewrite Hfind. reflexivity.
Qed.

Lemma issued_token_resolves_witness :
  Routes.GET_verify Reference.lib Reference.cfg (Reference.env_at 5000 "u2")
    (Reference.with_bearer Reference.alice_token) [Reference.alice]
  = ({| status := 200;
        json := Js.VObj
          [ ("success", Js.VBool true);
            ("authenticated", Js.VBool true);
            ("user", Js.VObj [ ("id", Js.VStr "u1");
                               ("name", Js.VStr "Alice Smith");
                               ("email", Js.VStr "alice@example.com") ]) ];
        set_cookie := [] |}, [Reference.alice]).
Proof.
  destruct (issued_token_resolves Reference.lib Reference.cfg
              (Reference.env_at 1000 "u1") (Reference.env_at 5000 "u2")
              (Reference.env_at 6000 "u3")
              Reference.alice_register Reference.alice_login []
              Reference.alice_token) as (u & Hu & H).
  - vm_compute. reflexivity.
  - vm_compute. reflexivity.
  - discriminate.
  - vm_compute. reflexivity.
  - intros p E.
    apply (ReferenceFacts.reference_round_trip p "s3cret" (Some "7d")
             Reference.alice_token 1003 5003 eq_refl E).
    vm_compute. reflexivity.
  - assert (snd (Routes.POST_register Reference.lib Reference.cfg
                   (Reference.env_at 1000 "u1") Reference.alice_register [])
            = [Reference.alice]) as E0 by (vm_compute; reflexivity).
    rewrite E0 in Hu. change ([Reference.alice] = [u]) in Hu.
    injection Hu as <-.
    apply (H (Reference.with_bearer Reference.alice_token)).
    + right. split; reflexivity.
    + left. vm_compute. reflexivity.
Defined.

(** A request that [protect] rejects goes no further: whatever the
    handler of the route, the reply is the rejection, with status 401
    or 500 and [success: false], it sets no cookie (a logout without a
    session leaves the cookie of the browser alone), and the collection
    is as it was. *)
Theorem rejected_request_is_untouched (lib : Library) (cfg : Config)
  (env : Env) (h : Routes.Handler) (req : Request) (st : Store)
  (resp : Response) :
  protect lib cfg env req st = Reject resp ->
  Routes.protected lib cfg env h req st = (resp, st)
  /\ (status resp = 401 \/ status resp = 500)
  /\ Js.get "success" (json resp) = Js.VBool false
  /\ set_cookie resp = [].
Proof.
  intros Hp. split.
  - unfold Routes.protected. now rewrite Hp.
  - revert Hp. unfold protect, protect_try.
    destruct (negb _); [intros [= <-]; cbn; auto|].
    destruct (jwt_verify lib _ _ _); try (intros [= <-]; cbn; now auto).
    destruct (findById _ st); [discriminate|intros [= <-]; cbn; auto].
Qed.

Lemma rejected_request_is_untouched_witness :
  set_cookie (fst (Routes.POST_logout Reference.lib Reference.cfg
                     (Reference.env_at 5000 "u2")
                     (Reference.with_cookie Reference.stale_token)
                     [Reference.alice])) = [].
Proof.
  destruct (rejected_request_is_untouched Reference.lib Reference.cfg
              (Reference.env_at 5000 "u2")
              (AuthController.logout (Reference.env_at 5000 "u2"))
              (Reference.with_cookie Reference.stale_token)
              [Reference.alice]
              (failure 401 "Token expired. Please login again."))
    as (E & _ & _ & _).
  - vm_compute. reflexivity.
  - unfold Routes.POST_logout. rewrite E. reflexivity.
Defined.

End ProtectedProperties.

(* ================================================================== *)
(** * The validators of the routes *)

Module ValidatorProperties.
Import Validator ValidatorFacts AuthController.

Lemma errors_unaffected (path : string) (steps : list Step) (req : Request)
  (cs : list Chain) :
  ~ In path (map fst cs) ->
  flat_map (fun c => snd (run_chain (fst c) (snd c)
                            (body (run_on (path, steps) req) !! fst c))) cs
  = flat_map (fun c => snd (run_chain (fst c) (snd c) (body req !! fst c))) cs.
Proof.
  induction cs as [|c cs IH]; intros Hnin; [reflexivity|].
  cbn [flat_map]. rewrite run_on_body.
  destruct (decide (path = fst c)) as [->|Hne];
    [exfalso; apply Hnin; now left|].
  f_equal. apply IH. intros H. apply Hnin. now right.
Qed.

(** The chains of a route, each on a field of its own, do not
    interfere, although they run one after the other on a request that
    the earlier ones have rewritten: the errors are those of every
    chain run on the field as it was sent, in the order of the chains
    and after the errors the request already had, and every field is
    left as its own chain leaves the value that was sent. *)
Theorem validators_independent (cs : list Chain) (req : Request) :
  NoDup (map fst cs) ->
  validation (run_all cs req)
  = (validation req
     ++ flat_map (fun c => snd (run_chain (fst c) (snd c)
                                  (body req !! fst c))) cs)%list
  /\ forall k,
       body (run_all cs req) !! k
       = match chain_of k cs with
         | Some c => fst (run_chain (fst c) (snd c) (body req !! k))
         | None => body req !! k
         end.
Proof.
  intros Hnd. split.
  - revert req. induction cs as [|[path steps] cs IH]; intros req.
    + cbn [flat_map]. now rewrite app_nil_r.
    + cbn [map fst] in Hnd. apply NoDup_cons in Hnd as [Hnin Hnd].
      rewrite list_elem_of_In in Hnin.
      change (run_all ((path, steps) :: cs) req)
        with (run_all cs (run_on (path, steps) req)).
      rewrite (IH Hnd), run_on_validation, errors_unaffected by exact Hnin.
      cbn [flat_map fst snd]. now rewrite <- app_assoc.
  - intros k. destruct (run_all_spec cs Hnd req) as (Hb & _).
    rewrite Hb. destruct (chain_of k cs) as [[path steps]|]; [|reflexivity].
    cbn [fst snd]. now rewrite run_chain_fst.
Qed.

Lemma validators_independent_witness :
  validation (run_all (registerValidation Reference.lib)
                (Reference.request [("name", " A "); ("email", "alice")]))
  = [ mkFieldError "name" "Name must be at least 2 characters" (Some "A");
      mkFieldError "email" "Please provide a valid email" (Some "alice");
      mkFieldError "password" "Password is required" None;
      mkFieldError "password" "Password must be at least 6 characters" None;
      mkFieldError "confirmPassword" "Please confirm your password" None ].
Proof.
  destruct (validators_independent (registerValidation Reference.lib)
              (Reference.request [("name", " A "); ("email", "alice")])
              (registerValidation_paths Reference.lib)) as [H _].
  rewrite H. vm_compute. reflexivity.
Defined.

End ValidatorProperties.

(* ================================================================== *)
(** * More on patterns *)

Module PatternFacts.
Import Regex RegexFacts.

Lemma lang_lit (s : string) : lang (lit s) s.
Proof.
  induction s as [|c s IH]; cbn [lit]; [constructor|].
  change (String c s) with (String c EmptyString +:+ s).
  apply lang_Seq; [|exact IH]. constructor. cbn. now rewrite Ascii.eqb_refl.
Qed.

Lemma lang_star_class (k : cclass) (s : string) :
  Str.all_chars (class_mem k) s = true -> lang (Star (Class k)) s.
Proof.
  induction s as [|c s IH]; cbn [Str.all_chars]; intros H; [constructor|].
  apply andb_true_iff in H as [Hc Hs].
  change (String c s) with (String c EmptyString +:+ s).
  apply lang_StarS; [now constructor | now apply IH].
Qed.

Lemma lang_plus_class (k : cclass) (s : string) :
  s <> EmptyString -> Str.all_chars (class_mem k) s = true ->
  lang (Plus (Class k)) s.
Proof.
  destruct s as [|c s]; [congruence|]. cbn [Str.all_chars]. intros _ H.
  apply andb_true_iff in H as [Hc Hs].
  change (String c s) with (String c EmptyString +:+ s).
  apply lang_Seq; [now constructor | now apply lang_star_class].
Qed.

Lemma all_chars_impl (P Q : ascii -> bool) (s : string) :
  (forall c, P c = true -> Q c = true) ->
  Str.all_chars P s = true -> Str.all_chars Q s = true.
Proof.
  intros HPQ. induction s as [|c s IH]; cbn [Str.all_chars]; [reflexivity|].
  rewrite !andb_true_iff. intros [Hc Hs]. auto.
Qed.

Lemma all_chars_app (P : ascii -> bool) (s t : string) :
  Str.all_chars P (s +:+ t) = Str.all_chars P s && Str.all_chars P t.
Proof.
  induction s as [|c s IH]; app_simpl; cbn [Str.all_chars]; [reflexivity|].
  now rewrite IH, andb_assoc.
Qed.

(** A word of a pattern is made of characters of its classes. *)
Lemma lang_reads_only (P : ascii -> bool) (r : re) (s : string) :
  lang r s -> reads_only P r -> Str.all_chars P s = true.
Proof.
  induction 1 as [|k c Hc|a b s t _ IHs _ IHt|a b s _ IH|a b s _ IH
                  |a|a s t _ IHs _ IHt]; cbn [reads_only]; intros HR.
  - reflexivity.
  - cbn [Str.all_chars]. now rewrite (HR c Hc).
  - rewrite all_chars_app, IHs, IHt; tauto.
  - apply IH; tauto.
  - apply IH; tauto.
  - reflexivity.
  - rewrite all_chars_app, IHs, IHt; auto.
Qed.

Lemma digit_class (c : ascii) :
  Str.is_digit c = true
  -> class_mem (COneOf ["0"; "1"; "2"; "3"; "4"; "5"; "6"; "7"; "8"; "9"]%char)
       c = true.
Proof.
  destruct c as [[] [] [] [] [] [] [] []]; vm_compute; congruence.
Qed.

End PatternFacts.

(* ================================================================== *)
(** * The CORS policy *)

Module CorsProperties.
Import Regex RegexFacts PatternFacts Server.

Lemma localhost_origin (scheme host port : string) :
  In scheme ["http"; "https"] ->
  In host ["localhost"; "127.0.0.1"] ->
  port = EmptyString
  \/ (exists d, port = ":" +:+ d /\ d <> EmptyString
                /\ Str.all_chars Str.is_digit d = true) ->
  test localhost_pattern (scheme +:+ "://" +:+ host +:+ port) = true.
Proof.
  intros Hs Hh Hp. apply test_spec. unfold localhost_pattern.
  assert (lang (Opt (Seq (lit ":") (Plus digit))) port) as Hport.
  { destruct Hp as [->|(d & -> & Hne & Hd)].
    - apply lang_AltL. constructor.
    - apply lang_AltR. apply lang_Seq; [apply lang_lit|].
      apply lang_plus_class; [exact Hne|].
      apply (all_chars_impl Str.is_digit); [exact digit_class | exact Hd]. }
  assert (lang (Alt (lit "localhost") (lit "127.0.0.1")) host) as Hhost.
  { destruct Hh as [<-|[<-|[]]];
      [apply lang_AltL | apply lang_AltR]; apply lang_lit. }
  destruct Hs as [<-|[<-|[]]].
  - change ("http" +:+ "://" +:+ host +:+ port)
      with ("http" +:+ (EmptyString +:+ ("://" +:+ (host +:+ port)))).
    apply lang_Seq; [apply lang_lit|].
    apply lang_Seq; [apply lang_AltL; constructor|].
    apply lang_Seq; [apply lang_lit|].
    now apply lang_Seq.
  - change ("https" +:+ "://" +:+ host +:+ port)
      with ("http" +:+ ("s" +:+ ("://" +:+ (host +:+ port)))).
    apply lang_Seq; [apply lang_lit|].
    apply lang_Seq; [apply lang_AltR; apply lang_lit|].
    apply lang_Seq; [apply lang_lit|].
    now apply lang_Seq.
Qed.

(** What production allows, every mode allows: an origin that the
    policy lets through when [NODE_ENV] is [production] is let through
    whatever [NODE_ENV] is.  The development shortcut only adds
    origins. *)
Theorem cors_production_is_strictest (cfg cfg' : Config)
  (origin : option string) :
  NODE_ENV cfg = Some "production" ->
  corsOrigin cfg origin = inr true ->
  corsOrigin cfg' origin = inr true.
Proof.
  unfold corsOrigin. intros Hp.
  destruct (negb (Str.truthy origin)); [reflexivity|].
  rewrite (bool_decide_eq_true_2 _ Hp). cbn [negb andb].
  destruct (existsb (String.eqb (Validator.toString origin)) allowedOrigins);
    [|discriminate].
  intros _. now destruct (_ && _).
Qed.

Lemma cors_production_is_strictest_witness :
  corsOrigin Reference.development (Some "http://localhost:5173") = inr true.
Proof.
  apply (cors_production_is_strictest Reference.cfg Reference.development
           (Some "http://localhost:5173")); reflexivity.
Defined.

(** Outside production every origin [http(s)://localhost] or
    [http(s)://127.0.0.1], with or without a port, is let through; in
    production, of the origins [http://localhost:<port>], only the
    ports 3000 and 5173 are. *)
Theorem cors_localhost_ports (cfg : Config) (d : string) :
  d <> EmptyString ->
  Str.all_chars Str.is_digit d = true ->
  (NODE_ENV cfg <> Some "production" ->
   forall scheme host,
     In scheme ["http"; "https"] -> In host ["localhost"; "127.0.0.1"] ->
     corsOrigin cfg (Some (scheme +:+ "://" +:+ host)) = inr true
     /\ corsOrigin cfg (Some (scheme +:+ "://" +:+ host +:+ ":" +:+ d))
        = inr true)
  /\ (NODE_ENV cfg = Some "production" ->
      (corsOrigin cfg (Some ("http://localhost:" +:+ d)) = inr true
       <-> d = "3000" \/ d = "5173")).
Proof.
  intros Hne Hd. split.
  - intros Hdev scheme host Hs Hh.
    assert (forall port,
              port = EmptyString
              \/ (exists d, port = ":" +:+ d /\ d <> EmptyString
                            /\ Str.all_chars Str.is_digit d = true) ->
              corsOrigin cfg (Some (scheme +:+ "://" +:+ host +:+ port))
              = inr true) as H.
    { intros port Hport. unfold corsOrigin.
      destruct (negb (Str.truthy _)); [reflexivity|].
      cbn [Validator.toString default]. unfold id.
      rewrite (localhost_origin scheme host port Hs Hh Hport).
      rewrite (bool_decide_eq_false_2 _ Hdev). reflexivity. }
    split.
    + rewrite <- (append_empty_r host) at 1. apply H. now left.
    + apply H. right. exists d. auto.
  - intros Hp. unfold corsOrigin.
    change ("http://localhost:" +:+ d)
      with (String "h" (String "t" (String "t" (String "p" (String ":"
             (String "/" (String "/" (String "l" (String "o" (String "c"
             (String "a" (String "l" (String "h" (String "o" (String "s"
             (String "t" (String ":" d))))))))))))))))).
    cbn [Str.truthy negb String.eqb Ascii.eqb Bool.eqb Validator.toString
         default allowedOrigins existsb orb andb].
    unfold id.
    rewrite (bool_decide_eq_true_2 _ Hp).
    cbn [negb andb String.eqb Ascii.eqb Bool.eqb orb].
    rewrite !orb_false_r.
    destruct (String.eqb d "3000") eqn:E1.
    + apply String.eqb_eq in E1. cbn [orb]. tauto.
    + destruct (String.eqb d "5173") eqn:E2.
      * apply String.eqb_eq in E2. tauto.
      * apply String.eqb_neq in E1, E2. cbn [orb]. split; [discriminate|tauto].
Qed.

Lemma cors_localhost_ports_witness :
  corsOrigin Reference.development (Some "https://127.0.0.1:8080") = inr true
  /\ corsOrigin Reference.cfg (Some "http://localhost:8080")
     <> inr true.
Proof.
  destruct (cors_localhost_ports Reference.development "8080")
    as [Hdev _]; [discriminate | reflexivity |].
  destruct (cors_localhost_ports Reference.cfg "8080")
    as [_ Hprod]; [discriminate | reflexivity |].
  split.
  - apply (Hdev ltac:(discriminate) "https" "127.0.0.1");
      cbn [In]; tauto.
  - intros H. apply (Hprod eq_refl) in H. destruct H; discriminate.
Defined.

End CorsProperties.

(* ================================================================== *)
(** * The browser client against the server *)

Module ClientProperties.
Import Regex RegexFacts PatternFacts Frontend.
Import Spec (schema_char).

Lemma schema_char_client (c : ascii) :
  schema_char c = true -> class_mem not_space_at c = true.
Proof.
  destruct c as [[] [] [] [] [] [] [] []]; vm_compute; congruence.
Qed.

Lemma schema_char_ascii (c : ascii) :
  schema_char c = true -> Str.in_range 0 127 c = true.
Proof.
  destruct c as [[] [] [] [] [] [] [] []]; vm_compute; congruence.
Qed.

Lemma word_schema_char (c : ascii) :
  class_mem CWord c = true -> schema_char c = true.
Proof. cbn [class_mem]. unfold schema_char. now intros ->. Qed.

Lemma dot_schema_char (c : ascii) :
  class_mem (COneOf ["."]%char) c = true -> schema_char c = true.
Proof.
  destruct c as [[] [] [] [] [] [] [] []]; vm_compute; congruence.
Qed.

Lemma dot_or_dash_schema_char (c : ascii) :
  class_mem (COneOf ["."; "-"]%char) c = true -> schema_char c = true.
Proof.
  destruct c as [[] [] [] [] [] [] [] []]; vm_compute; congruence.
Qed.

Lemma reads_dotted_words : reads_only schema_char dotted_words.
Proof.
  unfold dotted_words, Plus, Opt, word, dot_or_dash. cbn [reads_only].
  repeat split; auto using word_schema_char, dot_or_dash_schema_char.
Qed.

Lemma reads_tld_group : reads_only schema_char tld_group.
Proof.
  unfold tld_group, Rep23, Opt, word, dot. cbn [reads_only].
  repeat split; auto using word_schema_char, dot_schema_char.
Qed.

Lemma all_word_all_chars (s : string) :
  Str.all_word s = Str.all_chars Str.is_word s.
Proof. induction s as [|c s IH]; cbn; congruence. Qed.

Lemma dotted_words_nonempty (s : string) :
  lang dotted_words s -> s <> EmptyString.
Proof.
  unfold dotted_words, Plus, word. intros H.
  inversion H as [| |? ? s1 t1 H1 _| | | |]; subst.
  inversion H1 as [| |? ? s2 t2 H2 _| | | |]; subst.
  inversion H2; subst. app_simpl. discriminate.
Qed.

Lemma app_nonempty_l (s t : string) :
  s <> EmptyString -> s +:+ t <> EmptyString.
Proof. intros Hs E. now apply append_empty_inv in E as [E _]. Qed.

(** A local part, an [@], a middle part, a [.] and a last part, each
    part not empty and free of white space and [@]. *)
Lemma client_shape (a m w : string) :
  a <> EmptyString -> Str.all_chars (class_mem not_space_at) a = true ->
  m <> EmptyString -> Str.all_chars (class_mem not_space_at) m = true ->
  w <> EmptyString -> Str.all_chars (class_mem not_space_at) w = true ->
  lang isValidEmail_pattern (a +:+ ("@" +:+ (m +:+ ("." +:+ w)))).
Proof.
  intros Ha1 Ha2 Hm1 Hm2 Hw1 Hw2. unfold isValidEmail_pattern.
  apply lang_Seq; [now apply lang_plus_class|].
  apply lang_Seq; [now constructor|].
  apply lang_Seq; [now apply lang_plus_class|].
  apply lang_Seq; [now constructor | now apply lang_plus_class].
Qed.

(** The client's check of an email is weaker than the schema's: every
    address that the [match] pattern of the schema accepts passes
    [isValidEmail] in the browser. *)
Theorem schema_email_passes_client_check (s : string) :
  Regex.test Regex.email_pattern s = true -> isValidEmail s = true.
Proof.
  intros H. apply test_spec in H.
  unfold email_pattern in H.
  inversion H as [| |? ? s1 r1 Hs1 H1| | | |]; subst.
  inversion H1 as [| |? ? a r2 Ha H2| | | |]; subst.
  inversion H2 as [| |? ? s3 t Hs3 Ht| | | |]; subst.
  inversion Ha as [|? c Hc| | | | |]; subst.
  assert (c = "@"%char) as ->.
  { cbn in Hc. rewrite orb_false_r in Hc. now apply Ascii.eqb_eq in Hc. }
  unfold Plus in Ht.
  inversion Ht as [| |? ? g t' Hg Ht'| | | |]; subst.
  pose proof (lang_reads_only schema_char _ _ Hs1 reads_dotted_words) as C1.
  pose proof (lang_reads_only schema_char _ _ Hs3 reads_dotted_words) as C3.
  pose proof (lang_reads_only schema_char _ _ Hg reads_tld_group) as Cg.
  pose proof (lang_reads_only schema_char (Star tld_group) _ Ht'
                reads_tld_group) as Ct.
  pose proof (dotted_words_nonempty _ Hs1) as N1.
  pose proof (dotted_words_nonempty _ Hs3) as N3.
  assert (forall x, Str.all_chars schema_char x = true ->
                    Str.all_chars (class_mem not_space_at) x = true) as Hok
    by (intros x; apply all_chars_impl, schema_char_client).
  assert (forall w, Str.all_word w = true ->
                    Str.all_chars (class_mem not_space_at) w = true) as Hword.
  { intros w Hw. rewrite all_word_all_chars in Hw. apply Hok.
    revert Hw. apply all_chars_impl. unfold schema_char. now intros c' ->. }
  assert (forall x, Str.all_chars schema_char x = true ->
                    Str.all_chars (Str.in_range 0 127) x = true) as Hascii
    by (intros x; apply all_chars_impl, schema_char_ascii).
  unfold isValidEmail. apply andb_true_iff. split.
  2:{ apply negb_true_iff, StrFacts.has_wide_space_ascii.
      rewrite !all_chars_app, (Hascii _ C1), (Hascii _ C3), (Hascii _ Cg),
        (Hascii _ Ct).
      reflexivity. }
  apply test_spec.
  destruct (lang_tld_group g Hg) as (w0 & -> & Hw0 & Hl0).
  destruct (lang_star_tld_group t' Ht') as [->|(p & w & -> & Hw & Hl)].
  - rewrite append_empty_r.
    change (String "." w0) with ("." +:+ w0).
    change (String "@" EmptyString +:+ s3 +:+ "." +:+ w0)
      with ("@" +:+ (s3 +:+ ("." +:+ w0))).
    apply client_shape; auto.
    apply HandlerEquations.length_pos_nonempty. lia.
  - replace (String "@" EmptyString +:+ s3 +:+ String "." w0 +:+ p
             +:+ String "." w)
      with ("@" +:+ ((s3 +:+ String "." w0 +:+ p) +:+ ("." +:+ w))).
    2:{ change ("." +:+ w) with (String "." w).
        change ("@" +:+ ?x) with (String "@" EmptyString +:+ x).
        now rewrite !append_assoc. }
    rewrite all_chars_app in Ct. apply andb_true_iff in Ct as [Cp _].
    apply client_shape; auto.
    + now apply app_nonempty_l.
    + apply Hok. rewrite !all_chars_app, C3, Cg, Cp. reflexivity.
    + apply HandlerEquations.length_pos_nonempty. lia.
Qed.

Lemma schema_email_passes_client_check_witness :
  isValidEmail "alice.smith@mail.example.com" = true.
Proof.
  apply schema_email_passes_client_check. vm_compute. reflexivity.
Defined.

(** On a string without characters of two code units the reference
    count of characters is [s.length]. *)
Lemma characters_plain (s : string) :
  Str.plain s = true -> Reference.characters s = Str.length s.
Proof.
  induction s as [|a s IH]; [reflexivity|].
  cbn [Str.plain Reference.characters Str.length].
  rewrite !andb_true_iff, negb_true_iff. intros [[Ha _] Hs].
  rewrite (IH Hs). unfold Str.units. rewrite Ha. reflexivity.
Qed.

Lemma reference_counts_units : Spec.counts_units Reference.lib.
Proof.
  intros min max s Hs. cbn [isLength Reference.lib].
  unfold Reference.length_within, Spec.length_in.
  now rewrite (characters_plain s Hs).
Qed.

(** A register form that the browser submits gets past the validators
    of the server, and never meets "Passwords do not match", as soon as
    the two checks that only the server makes hold and the name and the
    password have no character that validator.js counts otherwise than
    [length] does: if the submit handler shows no error, the trimmed
    name has at most 50 code units, validator.js takes the trimmed
    email for an email, and neither the trimmed name nor the password
    has a character outside the basic plane or a variation selector,
    then the validators report nothing on the body the browser posts,
    and the password and its confirmation reach the handler equal.
    The condition on the characters is needed: where validator.js
    counts a surrogate pair once, the form whose name is one emoji
    passes the checks of the browser and the validators report "Name
    must be at least 2 characters". *)
Theorem client_checked_form_passes_validators :
  (forall (lib : Library) (f : RegisterForm),
     Spec.counts_units lib ->
     registerFormErrors f = [] ->
     Str.plain (Str.trim (f_name f)) = true ->
     Str.plain (f_password f) = true ->
     (Str.length (Str.trim (f_name f)) <= 50)%nat ->
     isEmail lib (Str.trim (f_email f)) = true ->
     validation (Validator.run_all (Validator.registerValidation lib)
                   (post (registerBody f))) = []
     /\ body (Validator.run_all (Validator.registerValidation lib)
                (post (registerBody f))) !! "password" = Some (f_password f)
     /\ body (Validator.run_all (Validator.registerValidation lib)
                (post (registerBody f))) !! "confirmPassword"
        = Some (f_password f))
  /\ (registerFormErrors Reference.emoji_form = []
      /\ (Str.length (Str.trim (f_name Reference.emoji_form)) <= 50)%nat
      /\ isEmail Reference.lib (Str.trim (f_email Reference.emoji_form))
         = true
      /\ Str.plain (f_password Reference.emoji_form) = true
      /\ validation (Validator.run_all
                       (Validator.registerValidation Reference.lib)
                       (post (registerBody Reference.emoji_form)))
         = [ mkFieldError "name" "Name must be at least 2 characters"
               (Some Reference.emoji) ]).
Proof.
  split; [|vm_compute; repeat split; lia].
  intros lib f Hlib. unfold registerFormErrors, is_empty.
  intros He Hplain_n Hplain_p Hlen Hmail.
  destruct (app_eq_nil _ _ He) as [E1 He2].
  destruct (app_eq_nil _ _ He2) as [E2 He3].
  destruct (app_eq_nil _ _ He3) as [E3 E4].
  clear He He2 He3.
  destruct (String.eqb (Str.trim (f_name f)) EmptyString) eqn:N1;
    [discriminate E1|].
  destruct (Str.length (Str.trim (f_name f)) <? 2)%nat eqn:N2;
    [discriminate E1|].
  destruct (String.eqb (Str.trim (f_email f)) EmptyString) eqn:M1;
    [discriminate E2|].
  destruct (String.eqb (f_password f) EmptyString) eqn:P1;
    [discriminate E3|].
  destruct (Str.length (f_password f) <? 6)%nat eqn:P2;
    [discriminate E3|].
  destruct (String.eqb (f_confirmPassword f) EmptyString) eqn:C1;
    [discriminate E4|].
  destruct (String.eqb (f_password f) (f_confirmPassword f)) eqn:C2;
    [|discriminate E4].
  apply String.eqb_eq in C2. apply String.eqb_neq in N1, M1, P1, C1.
  apply Nat.ltb_ge in N2, P2.
  assert (body (post (registerBody f)) !! "name"
          = Some (Str.trim (f_name f))) as Bn by reflexivity.
  assert (body (post (registerBody f)) !! "email"
          = Some (Str.trim (f_email f))) as Be by reflexivity.
  assert (body (post (registerBody f)) !! "password"
          = Some (f_password f)) as Bp by reflexivity.
  assert (body (post (registerBody f)) !! "confirmPassword"
          = Some (f_confirmPassword f)) as Bc by reflexivity.
  destruct (ValidatorFacts.run_all_spec _
              (ValidatorFacts.registerValidation_paths lib)
              (post (registerBody f))) as (_ & Hval & _).
  destruct (ValidatorFacts.registerValidation_body lib (post (registerBody f)))
    as (_ & _ & Vp & Vc).
  split; [|split].
  - apply Hval. split; [reflexivity|].
    apply (ScenarioClaims.accepts_register_intro lib _ _ _ _ _ Bn Be Bp Bc);
      rewrite ?StrFacts.trim_idem; try assumption.
    + rewrite (Hlib _ _ _ Hplain_n). unfold Spec.length_in.
      cbn [default]. rewrite andb_true_r. now apply Nat.leb_le.
    + rewrite (Hlib _ _ _ Hplain_n). unfold Spec.length_in.
      cbn [default]. now apply Nat.leb_le.
    + rewrite (Hlib _ _ _ Hplain_p). unfold Spec.length_in.
      cbn [default]. rewrite andb_true_r. now apply Nat.leb_le.
  - now rewrite Vp.
  - now rewrite Vc, Bc, C2.
Qed.

Lemma client_checked_form_passes_validators_witness :
  validation (Validator.run_all
                (Validator.registerValidation Reference.lib)
                (post (registerBody Reference.alice_form))) = [].
Proof.
  destruct client_checked_form_passes_validators as [H _].
  apply (H Reference.lib Reference.alice_form reference_counts_units).
  - vm_compute. reflexivity.
  - vm_compute. reflexivity.
  - vm_compute. reflexivity.
  - vm_compute. lia.
  - vm_compute. reflexivity.
Defined.

(** The login form asks more of the password than the server.  When
    validator.js takes the trimmed email for an email, every login
    that the submit handler lets through passes the validators of
    POST /login, which report nothing on the body the browser would
    post as soon as the trimmed email and the password are not empty;
    but the submit handler shows an error for every password of fewer
    than 6 code units, and lets the form through exactly when its own
    email check passes and the password has at least 6 code units, as
    [length] counts them. *)
Theorem login_form_is_stricter (lib : Library) (email0 password : string) :
  isEmail lib (Str.trim email0) = true ->
  (Str.trim email0 <> EmptyString -> password <> EmptyString ->
   validation (Validator.run_all (Validator.loginValidation lib)
                 (post (loginBody email0 password))) = [])
  /\ (loginFormErrors email0 password = [] ->
      validation (Validator.run_all (Validator.loginValidation lib)
                    (post (loginBody email0 password))) = [])
  /\ ((Str.length password < 6)%nat ->
      loginFormErrors email0 password <> [])
  /\ (loginFormErrors email0 password = []
      <-> isValidEmail (Str.trim email0) = true
          /\ (6 <= Str.length password)%nat).
Proof.
  intros Hmail.
  assert (Str.trim email0 <> EmptyString -> password <> EmptyString ->
          validation (Validator.run_all (Validator.loginValidation lib)
                        (post (loginBody email0 password))) = []) as Hserver.
  { intros He Hp.
    destruct (ValidatorFacts.run_all_spec _
                (ValidatorFacts.loginValidation_paths lib)
                (post (loginBody email0 password))) as (_ & Hval & _).
    apply Hval. split; [reflexivity|].
    apply (ScenarioClaims.accepts_login_intro lib _ (Str.trim email0)
             password); try reflexivity;
      rewrite ?StrFacts.trim_idem; assumption. }
  assert (loginFormErrors email0 password = []
          <-> isValidEmail (Str.trim email0) = true
              /\ (6 <= Str.length password)%nat) as Hiff.
  { unfold loginFormErrors, is_empty.
    destruct (String.eqb (Str.trim email0) EmptyString) eqn:He.
    { apply String.eqb_eq in He. rewrite He.
      split; [discriminate|]. intros [H _]. discriminate H. }
    destruct (String.eqb password EmptyString) eqn:Hp.
    { apply String.eqb_eq in Hp. subst password.
      split; [|intros [_ H]; cbn in H; lia].
      destruct (negb (isValidEmail (Str.trim email0))); discriminate. }
    destruct (isValidEmail (Str.trim email0)); cbn [negb].
    + destruct (Str.length password <? 6)%nat eqn:L.
      * apply Nat.ltb_lt in L. split; [discriminate|]. intros [_ H]. lia.
      * apply Nat.ltb_ge in L. split; auto.
    + split; [|intros [H _]; discriminate H].
      destruct (Str.length password <? 6)%nat; discriminate. }
  split; [exact Hserver|]. split; [|split; [|exact Hiff]].
  - intros H. apply Hiff in H as [Hv Hl]. apply Hserver.
    + intros E. rewrite E in Hv. discriminate Hv.
    + apply StrFacts.length_units_nonempty. lia.
  - intros Hl H. apply Hiff in H as [_ H]. lia.
Qed.

Lemma login_form_is_stricter_witness :
  validation (Validator.run_all (Validator.loginValidation Reference.lib)
                (post (loginBody "alice@example.com" "abc"))) = []
  /\ loginFormErrors "alice@example.com" "abc" <> [].
Proof.
  destruct (login_form_is_stricter Reference.lib "alice@example.com" "abc")
    as (Hs & _ & Hc & _); [reflexivity|].
  split; [apply Hs; discriminate|].
  apply Hc. vm_compute. lia.
Defined.

End ClientProperties.
